(** * Context-window management and step execution of the research workflow

    A shallow embedding of [src/graph/nodes.py]: the token estimator, the
    context-window truncation, the coordinator, planner, human-feedback and
    reporter nodes and the step executor with its retry loop and its tools;
    of the configuration loader ([src/config/loader.py]), the Python tool
    ([src/tools/python_repl.py]) and the event and speech endpoints of the
    server ([src/server/app.py]); followed by the properties the
    specification states about them and by further properties of the
    code. *)

From Stdlib Require Import String Ascii.
From Stdlib Require Import ZArith NArith List Bool Lia.
From Stdlib Require Import Sorting.Sorted Sorting.Permutation.
From Stdlib Require Import DecimalString.
Import ListNotations.

Local Open Scope Z_scope.

(** ** Python strings

    A Python [str] is a sequence of Unicode code points.  Literals are
    written as UTF-8 and decoded once, so that they read like the source. *)
Module PyStr.

Definition pystr := list N.

Fixpoint utf8_go (bs : list N) (need : nat) (acc : N) : pystr :=
  match bs with
  | [] => []
  | b :: r =>
      match need with
      | O =>
          if (b <? 0x80)%N then b :: utf8_go r 0 0%N
          else if (b <? 0xE0)%N then utf8_go r 1 (b - 0xC0)%N
          else if (b <? 0xF0)%N then utf8_go r 2 (b - 0xE0)%N
          else utf8_go r 3 (b - 0xF0)%N
      | S O => (acc * 64 + (b - 0x80))%N :: utf8_go r 0 0%N
      | S k => utf8_go r k (acc * 64 + (b - 0x80))%N
      end
  end.

Definition utf8 (s : string) : pystr :=
  utf8_go (map N_of_ascii (list_ascii_of_string s)) 0 0%N.

(** A literal of the source: UTF-8 text in which the two characters
    backslash, n stand for a newline, as in the Python literal. *)
Fixpoint unescape (s : pystr) : pystr :=
  match s with
  | 92%N :: 110%N :: r => 10%N :: unescape r
  | c :: r => c :: unescape r
  | [] => []
  end.

Definition lit (s : string) : pystr := unescape (utf8 s).

Definition len (s : pystr) : Z := Z.of_nat (length s).

Fixpoint eqb (a b : pystr) : bool :=
  match a, b with
  | [], [] => true
  | x :: a', y :: b' => (x =? y)%N && eqb a' b'
  | _, _ => false
  end.

(** [s.startswith(p)] *)
Fixpoint startswith (p s : pystr) : bool :=
  match p, s with
  | [], _ => true
  | x :: p', y :: s' => (x =? y)%N && startswith p' s'
  | _ :: _, [] => false
  end.

(** [sub in s] *)
Fixpoint contains (sub s : pystr) : bool :=
  startswith sub s ||
  match s with
  | [] => false
  | _ :: s' => contains sub s'
  end.

(** [s.count(sub)]: occurrences that do not overlap, scanning from the
    left; [skip] is the number of characters still covered by the last
    occurrence found. *)
Fixpoint count_from (sub s : pystr) (skip : nat) : Z :=
  match s with
  | [] => match sub, skip with [], O => 1 | _, _ => 0 end
  | _ :: s' =>
      match skip with
      | S k => count_from sub s' k
      | O =>
          if startswith sub s
          then 1 + count_from sub s' (Nat.pred (length sub))
          else count_from sub s' 0
      end
  end.

Definition count (sub s : pystr) : Z := count_from sub s 0.

(** Case mapping of the ASCII letters, which is what [str.lower] and
    [str.upper] do on a text of ASCII characters. *)
Definition lower_char (c : N) : N :=
  if ((0x41 <=? c) && (c <=? 0x5A))%N then (c + 32)%N else c.
Definition upper_char (c : N) : N :=
  if ((0x61 <=? c) && (c <=? 0x7A))%N then (c - 32)%N else c.
Definition ascii_lower (s : pystr) : pystr := map lower_char s.
Definition ascii_upper (s : pystr) : pystr := map upper_char s.
Definition is_ascii (s : pystr) : bool := forallb (fun c => (c <? 128)%N) s.

(** [s[:k]] for [k >= 0] and [s[-k:]] *)
Definition take (k : Z) (s : pystr) : pystr := firstn (Z.to_nat k) s.

(** [sep.join(parts)] *)
Fixpoint join (sep : pystr) (parts : list pystr) : pystr :=
  match parts with
  | [] => []
  | [p] => p
  | p :: rest => p ++ sep ++ join sep rest
  end.

(** [str(n)] for an integer *)
Definition of_Z (n : Z) : pystr :=
  map N_of_ascii (list_ascii_of_string (NilZero.string_of_int (Z.to_int n))).

(** truthiness of a string *)
Definition truthy (s : pystr) : bool :=
  match s with [] => false | _ => true end.

End PyStr.
Import PyStr.

Arguments utf8 s%_string.
Arguments lit s%_string.

(** [str.lower] and [str.upper] map every cased character of Unicode, by
    tables that are not part of the program.  They are taken as given:
    [lower] is any function (its result depends on the context of a
    character, as for a final sigma); [upper] maps character by character,
    so it distributes over concatenation, and on ASCII text it is the ASCII
    mapping. *)
Class CaseMapping := {
  lower : pystr -> pystr;
  upper : pystr -> pystr;
  upper_app : forall a b, upper (a ++ b) = upper a ++ upper b;
  upper_ascii : forall s, is_ascii s = true -> upper s = ascii_upper s
}.

(** The mapping that leaves every character outside ASCII as it is; it
    agrees with Python's on texts whose cased characters are ASCII. *)
#[export] Instance ascii_case : CaseMapping := {|
  lower := ascii_lower;
  upper := ascii_upper;
  upper_app := fun a b => map_app upper_char a b;
  upper_ascii := fun s _ => eq_refl
|}.

(** ** Python floats

    A finite binary64 value is kept as the exact rational [fnum / fden]
    ([fden] a positive power of two).  Every operation computes the exact
    rational result and rounds it to the nearest value with a 53-bit
    significand, ties to even, as IEEE 754 prescribes; the exponent range is
    not bounded (binary64 overflows only beyond 1.7e308). *)
Module PyFloat.

Record float := mk { fnum : Z; fden : Z }.

(** nearest integer to [n / d], ties to even ([0 <= n], [0 < d]) *)
Definition nearest_even (n d : Z) : Z :=
  let q := n / d in
  let r := n mod d in
  if 2 * r <? d then q
  else if d <? 2 * r then q + 1
  else if Z.even q then q else q + 1.

(** nearest binary64 to [p / q] for [0 < p], [0 < q] *)
Definition round53 (p q : Z) : float :=
  let lp := Z.log2 p in
  let lq := Z.log2 q in
  let P := p * 2 ^ (lq + 53) in
  let Q := q * 2 ^ lp in
  let '(m, e) :=
    if P <? 2 ^ 53 * Q
    then (nearest_even P Q, lp - lq - 53)
    else (nearest_even P (2 * Q), lp - lq - 52) in
  if 0 <=? e then mk (m * 2 ^ e) 1 else mk m (2 ^ (- e)).

Definition of_rat (p q : Z) : float :=
  if p =? 0 then mk 0 1
  else if p <? 0 then let r := round53 (- p) q in mk (- fnum r) (fden r)
  else round53 p q.

(** [float(n)] for an integer, and a decimal literal [p/q] *)
Definition of_int (n : Z) : float := of_rat n 1.

Definition mul (a b : float) : float :=
  of_rat (fnum a * fnum b) (fden a * fden b).

(** [a / b] for [b > 0] *)
Definition div (a b : float) : float :=
  of_rat (fnum a * fden b) (fden a * fnum b).

(** [int(a)]: truncation toward zero *)
Definition to_int (a : float) : Z := Z.quot (fnum a) (fden a).

(** [n > a] for an integer [n]: Python compares the exact values *)
Definition int_gt (n : Z) (a : float) : bool := fnum a <? n * fden a.

(** [a ** n] for a small positive integer exponent *)
Fixpoint pow (a : float) (n : nat) : float :=
  match n with
  | O => mk 1 1
  | S O => a
  | S k => mul (pow a k) a
  end.

End PyFloat.
Import PyFloat.

(** ** Token estimator and context-window truncation *)

(** [MAX_CONTEXT_TOKENS] and [TRUNCATION_RATIO] are read from the environment
    when the module is loaded, as [parse_token_limit(os.getenv(...))] and
    [float(os.getenv(...))]; the settings are the two values read, the ratio
    being any finite float.  The default settings are the values used when
    the variables are not set. *)
Class Settings := {
  MAX_CONTEXT_TOKENS : Z;
  TRUNCATION_RATIO : float
}.

#[export] Instance default_settings : Settings := {|
  MAX_CONTEXT_TOKENS := 128000;
  TRUNCATION_RATIO := of_rat 7 10
|}.

Section Model.

Context {case_mapping : CaseMapping} {settings : Settings}.

Definition is_chinese (c : N) : bool := ((0x4E00 <=? c) && (c <=? 0x9FFF))%N.

Definition has_code (text : pystr) : bool :=
  let code_blocks := count (lit "```") text in
  (0 <? code_blocks) || (0 <? count (lit "def ") text)
  || (0 <? count (lit "class ") text).

Definition estimate_tokens (text : pystr) : Z :=
  if negb (truthy text) then 0
  else
    let chinese_chars := Z.of_nat (length (filter is_chinese text)) in
    let english_chars := len text - chinese_chars in
    if has_code text then len text / 3
    else if english_chars <? chinese_chars
         then to_int (div (of_int (len text)) (of_rat 15 10))
         else len text / 4.

(** A message handed to the truncation is a dict; the keys the program reads
    are [content], [role], [name] and [type], and [None] stands for a key
    that is absent.  Values are taken to be strings. *)
Record msg := mkmsg {
  content : option pystr;
  role : option pystr;
  name : option pystr;
  mtype : option pystr
}.

Definition opt_eqb (a b : option pystr) : bool :=
  match a, b with
  | None, None => true
  | Some x, Some y => PyStr.eqb x y
  | _, _ => false
  end.

(** equality of two dicts *)
Definition msg_eqb (a b : msg) : bool :=
  opt_eqb (content a) (content b) && opt_eqb (role a) (role b)
  && opt_eqb (name a) (name b) && opt_eqb (mtype a) (mtype b).

(** [d.get(key, "")] *)
Definition get_or_empty (o : option pystr) : pystr :=
  match o with Some s => s | None => [] end.

Definition msg_content (m : msg) : pystr := get_or_empty (content m).

(** [{**msg, "content": c}] *)
Definition with_content (m : msg) (c : pystr) : msg :=
  mkmsg (Some c) (role m) (name m) (mtype m).

Definition total_tokens (messages : list msg) : Z :=
  fold_right (fun m acc => estimate_tokens (msg_content m) + acc) 0 messages.

Inductive msg_class := SystemClass | TaskClass | OtherClass.

Definition task_keywords : list pystr :=
  [lit "current task"; lit "當前任務"; lit "title"; lit "description"].

Definition classify (m : msg) : msg_class :=
  let content := msg_content m in
  let role := get_or_empty (role m) in
  let name := get_or_empty (name m) in
  if PyStr.eqb role (lit "system") || contains (lit "system") (lower name)
  then SystemClass
  else if existsb (fun keyword => contains keyword (lower content)) task_keywords
  then TaskClass
  else OtherClass.

Definition is_class (c : msg_class) (m : msg) : bool :=
  match c, classify m with
  | SystemClass, SystemClass | TaskClass, TaskClass | OtherClass, OtherClass => true
  | _, _ => false
  end.

Definition TRUNCATED_MARK : pystr := lit "\n\n[內容已截斷...]".

(** The loop of [add_messages_if_fits]; the pair is the enclosing function's
    [current_tokens] and [truncated_messages], and the [break] is the branch
    that returns the pair as it stands. *)
Fixpoint add_messages_if_fits (msg_list : list msg) (max_tokens_remaining : Z)
    (acc : Z * list msg) : Z * list msg :=
  match msg_list with
  | [] => acc
  | m :: rest =>
      let '(current_tokens, truncated_messages) := acc in
      let content := msg_content m in
      let msg_tokens := estimate_tokens content in
      let '(m, msg_tokens) :=
        if int_gt msg_tokens (mul (of_int max_tokens_remaining) (of_rat 8 10))
        then
          let truncated_content :=
            take (to_int (mul (of_int (len content)) (of_rat 6 10))) content
            ++ TRUNCATED_MARK in
          (with_content m truncated_content, estimate_tokens truncated_content)
        else (m, msg_tokens) in
      if current_tokens + msg_tokens <=? max_tokens_remaining
      then add_messages_if_fits rest max_tokens_remaining
             (current_tokens + msg_tokens, truncated_messages ++ [m])
      else acc
  end.

(** [messages.index(x) if x in messages else len(messages)] *)
Fixpoint sort_key (messages : list msg) (x : msg) : nat :=
  match messages with
  | [] => O
  | y :: rest => if msg_eqb y x then O else S (sort_key rest x)
  end.

(** [list.sort(key=...)] is stable: elements with equal keys keep their
    order.  Insertion from the right gives that order. *)
Fixpoint insert_by (key : msg -> nat) (x : msg) (l : list msg) : list msg :=
  match l with
  | [] => [x]
  | y :: l' => if (key x <=? key y)%nat then x :: l else y :: insert_by key x l'
  end.

Fixpoint sort_by (key : msg -> nat) (l : list msg) : list msg :=
  match l with
  | [] => []
  | x :: l' => insert_by key x (sort_by key l')
  end.

(** The messages accepted by the three passes, in the order they were
    accepted, with the running total. *)
Definition select_messages (messages : list msg) (max_tokens : Z) : Z * list msg :=
  let target_tokens := to_int (mul (of_int max_tokens) TRUNCATION_RATIO) in
  let system_messages := filter (is_class SystemClass) messages in
  let task_messages := filter (is_class TaskClass) messages in
  let other_messages := filter (is_class OtherClass) messages in
  let acc := add_messages_if_fits system_messages target_tokens (0, []) in
  let remaining_tokens := target_tokens - fst acc in
  let acc := add_messages_if_fits task_messages remaining_tokens acc in
  let remaining_tokens := target_tokens - fst acc in
  add_messages_if_fits (rev other_messages) remaining_tokens acc.

Definition truncate_context (messages : list msg) (max_tokens : option Z) : list msg :=
  let max_tokens :=
    match max_tokens with None => MAX_CONTEXT_TOKENS | Some n => n end in
  match messages with
  | [] => messages
  | _ =>
      if total_tokens messages <=? max_tokens then messages
      else sort_by (sort_key messages) (snd (select_messages messages max_tokens))
  end.

(** ** Plan data model and workflow state *)

(** Modelled from the spec: the [Step] and [Plan] classes of
    [src/prompts/planner_model.py], which the nodes import; section 3 of the
    specification gives their fields.  A step's [execution_res] is [None]
    until the step has been executed. *)
Record Step := mkStep {
  step_title : pystr;
  step_description : pystr;
  execution_res : option pystr
}.

Record Plan := mkPlan {
  plan_locale : pystr;
  has_enough_context : bool;
  thought : pystr;
  plan_title : pystr;
  steps : list Step
}.

(** A LangChain message object: its class, its [content] and its [name].
    Only [ChatMessage] carries a [role] attribute. *)
Inductive msg_kind :=
| HumanMessage
| AIMessage
| ChatMessage (role_attr : pystr).

Record lc_message := mklc {
  kind : msg_kind;
  lc_content : pystr;
  lc_name : option pystr
}.

(** An element of the state's [messages]: an object with a [content]
    attribute, a dict, or anything else. *)
Inductive state_message :=
| ObjMsg (m : lc_message)
| DictMsg (d : msg)
| OtherMsg.

Record Resource := mkResource {
  resource_title : pystr;
  resource_description : pystr
}.

(** [current_plan] is absent, the planner's raw text, or a validated plan. *)
Inductive plan_slot :=
| NoPlan
| RawPlan (text : pystr)
| ValidPlan (p : Plan).

(** Modelled from the spec: the [State] class of [src/graph/types.py], which
    the nodes import; section 3 of the specification gives its fields.  A key
    that is absent reads as the default the nodes pass to [state.get]. *)
Record State := mkState {
  messages : list state_message;
  plan_iterations : Z;
  current_plan : plan_slot;
  observations : list pystr;
  locale : option pystr;
  resources : list Resource;
  auto_accepted_plan : bool
}.

(** JSON values as [json.loads] returns them (numbers restricted to
    integers). *)
#[local] Unset Elimination Schemes.
Inductive json :=
| JNull
| JBool (b : bool)
| JNum (n : Z)
| JStr (s : pystr)
| JList (l : list json)
| JDict (items : list (pystr * json)).
#[local] Set Elimination Schemes.

(** truthiness of a parsed value *)
Definition json_truthy (j : json) : bool :=
  match j with
  | JNull => false
  | JBool b => b
  | JNum n => negb (n =? 0)
  | JStr s => truthy s
  | JList l => match l with [] => false | _ => true end
  | JDict items => match items with [] => false | _ => true end
  end.

Fixpoint assoc (key : pystr) (items : list (pystr * json)) : option json :=
  match items with
  | [] => None
  | (k, v) :: rest => if PyStr.eqb k key then Some v else assoc key rest
  end.

Inductive node :=
| planner
| human_feedback
| reporter
| research_team
| node_end.

(** [Command(update=..., goto=...)]: the keys a node may update. *)
Record Command := mkCommand {
  goto : node;
  update_messages : list lc_message;
  update_current_plan : option plan_slot;
  update_plan_iterations : option Z;
  update_locale : option json;
  update_observations : option (list pystr)
}.

Definition goto_only (n : node) : Command := mkCommand n [] None None None None.

Inductive exn :=
| TypeError (message : pystr)
| AttributeError
| KeyError (key : pystr)
| IndexError
| ValidationError
| UnboundLocalError
| AgentError (message : pystr)
| AgentBaseException (message : pystr).

Inductive outcome (A : Type) :=
| Return (a : A)
| Raise (e : exn).
Arguments Return {A} a.
Arguments Raise {A} e.

(** Modelled from the spec: how the graph runtime merges a command's update
    into the state ([src/graph/types.py] and the LangGraph reducers are not
    part of the sources).  [messages] is append-only, the other keys are
    replaced; a [locale] that is not a string is left out of the model. *)
Definition apply_command (st : State) (c : Command) : State :=
  mkState
    (messages st ++ map ObjMsg (update_messages c))
    (match update_plan_iterations c with Some n => n | None => plan_iterations st end)
    (match update_current_plan c with Some p => p | None => current_plan st end)
    (match update_observations c with Some o => o | None => observations st end)
    (match update_locale c with Some (JStr s) => Some s | _ => locale st end)
    (resources st)
    (auto_accepted_plan st).

(** ** Planner and human-feedback nodes *)

Section Nodes.

(** The collaborators of the two nodes: [repair_json_output] of
    [src/utils/json_utils.py], [json.loads] ([None] stands for
    [JSONDecodeError]) and pydantic's [Plan.model_validate] ([None] stands
    for [ValidationError]). *)
Variable repair_json_output : pystr -> pystr.
Variable json_loads : pystr -> option json.
Variable model_validate : json -> option Plan.

(** [planner_node]; [max_plan_iterations] comes from the run's
    configuration and [full_response] is the text the planning model
    answers with when it is invoked. *)
Definition planner_node (state : State) (max_plan_iterations : Z)
    (full_response : pystr) : outcome Command :=
  let plan_iterations := plan_iterations state in
  if max_plan_iterations <=? plan_iterations then Return (goto_only reporter)
  else
    match json_loads (repair_json_output full_response) with
    | None =>
        if 0 <? plan_iterations then Return (goto_only reporter)
        else Return (goto_only node_end)
    | Some curr_plan =>
        match curr_plan with
        | JDict items =>
            let enough :=
              match assoc (lit "has_enough_context") items with
              | Some v => json_truthy v
              | None => false
              end in
            if enough then
              match model_validate curr_plan with
              | Some new_plan =>
                  Return (mkCommand reporter
                            [mklc AIMessage full_response (Some (lit "planner"))]
                            (Some (ValidPlan new_plan)) None None None)
              | None => Raise ValidationError
              end
            else
              Return (mkCommand human_feedback
                        [mklc AIMessage full_response (Some (lit "planner"))]
                        (Some (RawPlan full_response)) None None None)
        | _ => Raise AttributeError
        end
    end.

(** The part of [human_feedback_node] that runs once the plan is accepted. *)
Definition accept_plan (state : State) : outcome Command :=
  match current_plan state with
  | ValidPlan _ => Raise AttributeError
  | slot =>
      let current_plan := match slot with RawPlan text => text | _ => [] end in
      let plan_iterations := plan_iterations state in
      let current_plan := repair_json_output current_plan in
      let plan_iterations := plan_iterations + 1 in
      match json_loads current_plan with
      | None =>
          if 0 <? plan_iterations then Return (goto_only reporter)
          else Return (goto_only node_end)
      | Some new_plan =>
          match new_plan with
          | JDict items =>
              match assoc (lit "has_enough_context") items with
              | None => Raise (KeyError (lit "has_enough_context"))
              | Some v =>
                  let goto := if json_truthy v then reporter else research_team in
                  match model_validate new_plan with
                  | None => Raise ValidationError
                  | Some p =>
                      match assoc (lit "locale") items with
                      | None => Raise (KeyError (lit "locale"))
                      | Some l =>
                          Return (mkCommand goto [] (Some (ValidPlan p))
                                    (Some plan_iterations) (Some l) None)
                      end
                  end
              end
          | _ => Raise (TypeError (lit "indices must be integers"))
          end
      end
  end.

(** [human_feedback_node] when it is resumed; [feedback] is the value the
    interrupt returns. *)
Definition human_feedback_node (state : State) (feedback : pystr)
    : outcome Command :=
  if negb (auto_accepted_plan state) then
    if truthy feedback && startswith (lit "[EDIT_PLAN]") (upper feedback) then
      Return (mkCommand planner
                [mklc HumanMessage feedback (Some (lit "feedback"))]
                None None None None)
    else if truthy feedback && startswith (lit "[ACCEPTED]") (upper feedback) then
      accept_plan state
    else
      Raise (TypeError (lit "Interrupt value of " ++ feedback
                        ++ lit " is not supported."))
  else accept_plan state.

End Nodes.

(** ** Step executor *)

(** What the agent collaborator answers to one invocation: the contents of
    [result["messages"]], or the text of the exception it raises.  The
    executor's [except Exception] clauses catch an [Exception]; a
    [BaseException] that is not one (a cancellation, a keyboard interrupt)
    passes through them. *)
Inductive agent_result :=
| AgentReturn (result_messages : list pystr)
| AgentRaise (error : pystr)
| AgentRaiseBase (error : pystr).

(** The agent collaborator.  Its answer may depend on how many times it has
    been invoked before, on the messages it is given and on the recursion
    limit of the call. *)
Definition agent_handle := nat -> list lc_message -> Z -> agent_result.

(** [not step.execution_res] *)
Definition unexecuted (step : Step) : bool :=
  match execution_res step with
  | None => true
  | Some r => negb (truthy r)
  end.

(** The search for the first unexecuted step: the steps passed over, and the
    step found with the steps after it. *)
Fixpoint find_step (steps completed_steps : list Step)
    : list Step * option (Step * list Step) :=
  match steps with
  | [] => (completed_steps, None)
  | step :: rest =>
      if unexecuted step then (completed_steps, Some (step, rest))
      else find_step rest (completed_steps ++ [step])
  end.

Definition str_of_res (r : option pystr) : pystr :=
  match r with Some s => s | None => lit "None" end.

Fixpoint findings (i : Z) (completed_steps : list Step) : pystr :=
  match completed_steps with
  | [] => []
  | step :: rest =>
      lit "## Existing Finding " ++ of_Z (i + 1) ++ lit ": " ++ step_title step
      ++ lit "\n\n"
      ++ lit "<finding>\n" ++ str_of_res (execution_res step) ++ lit "\n</finding>\n\n"
      ++ findings (i + 1) rest
  end.

Definition completed_steps_info (completed_steps : list Step) : pystr :=
  match completed_steps with
  | [] => []
  | _ => lit "# Existing Research Findings\n\n" ++ findings 0 completed_steps
  end.

Definition state_locale (state : State) : pystr :=
  match locale state with Some l => l | None => lit "en-US" end.

Definition current_task_content (state : State) (current_step : Step) : pystr :=
  lit "# Current Task\n\n## Title\n\n" ++ step_title current_step
  ++ lit "\n\n## Description\n\n" ++ step_description current_step
  ++ lit "\n\n## Locale\n\n" ++ state_locale state.

Definition human (c : pystr) : lc_message := mklc HumanMessage c None.

(** [l[-n:]] for [n > 0] *)
Definition last_n {A : Type} (n : nat) (l : list A) : list A :=
  skipn (length l - n) l.

(** [getattr(msg, "role", "user")] *)
Definition role_of (m : lc_message) : pystr :=
  match kind m with
  | ChatMessage r => r
  | _ => lit "user"
  end.

Definition state_message_part (m : state_message) : list msg :=
  match m with
  | ObjMsg o =>
      [mkmsg (Some (lc_content o)) (Some (role_of o)) None (Some (lit "state_message"))]
  | DictMsg d =>
      [mkmsg (content d) (role d) (name d) (Some (lit "state_message"))]
  | OtherMsg => []
  end.

Fixpoint numbered (i : Z) (obs : list pystr) : list pystr :=
  match obs with
  | [] => []
  | o :: rest => (lit "觀察 " ++ of_Z (i + 1) ++ lit ": " ++ o) :: numbered (i + 1) rest
  end.

Definition observations_part (observations : list pystr) : list msg :=
  match observations with
  | [] => []
  | _ =>
      let recent_observations := last_n 3 observations in
      let obs_content := join (lit "\n\n") (numbered 0 recent_observations) in
      if truthy obs_content
      then [mkmsg (Some obs_content) (Some (lit "system")) None (Some (lit "observations"))]
      else []
  end.

(** The material assembled before truncation. *)
Definition context_parts (state : State) (completed_steps : list Step)
    (current_step : Step) : list msg :=
  let completed_steps_info := completed_steps_info completed_steps in
  (if truthy completed_steps_info
   then [mkmsg (Some completed_steps_info) (Some (lit "system")) None
           (Some (lit "completed_steps"))]
   else [])
  ++ [mkmsg (Some (current_task_content state current_step)) (Some (lit "user")) None
        (Some (lit "current_task"))]
  ++ flat_map state_message_part (last_n 5 (messages state))
  ++ observations_part (observations state).

Definition type_is (t : pystr) (m : msg) : bool := opt_eqb (mtype m) (Some t).

(** The agent input rebuilt from the truncated material. *)
Definition rebuild_input (truncated_context : list msg) (agent_input : list lc_message)
    (current_step : Step) : list lc_message :=
  match truncated_context with
  | [] => agent_input
  | _ =>
      let current_content :=
        match find (type_is (lit "current_task")) truncated_context with
        | Some task_msg => msg_content task_msg
        | None =>
            lit "任務: " ++ step_title current_step ++ lit "\n描述: "
            ++ step_description current_step
        end in
      let additional_context :=
        map msg_content
          (filter (fun m => (type_is (lit "completed_steps") m
                             || type_is (lit "observations") m)
                            && truthy (msg_content m))
                  truncated_context) in
      match additional_context with
      | [] => [human current_content]
      | _ =>
          let context_summary := join (lit "\n\n") additional_context in
          if 0 <? len context_summary
          then [human (context_summary ++ lit "\n\n" ++ current_content)]
          else [human current_content]
      end
  end.

Fixpoint resource_lines (rs : list Resource) : pystr :=
  match rs with
  | [] => []
  | r :: rest =>
      lit "- " ++ resource_title r ++ lit " (" ++ resource_description r ++ lit ")\n"
      ++ resource_lines rest
  end.

Definition CITATION_REMINDER : pystr :=
  lit "IMPORTANT: DO NOT include inline citations in the text. Instead, track all sources and include a References section at the end using numbered format. Include an empty line between each citation for better readability. Use this format for each reference:\n[1](URL) - Source Title\n\n[2](URL) - Another Source Title".

(** The messages appended for the researcher agent. *)
Definition researcher_messages (state : State) (agent_name : pystr) : list lc_message :=
  if PyStr.eqb agent_name (lit "researcher") then
    (match resources state with
     | [] => []
     | rs =>
         [human (lit "**The user mentioned the following resource files:**\n\n"
                 ++ resource_lines rs
                 ++ lit "\n\n"
                 ++ lit "You MUST use the **local_search_tool** to retrieve the information from the resource files.")]
     end)
    ++ [mklc HumanMessage CITATION_REMINDER (Some (lit "system"))]
  else [].

(** The recursion limit; [env_value] is the integer read from
    [AGENT_RECURSION_LIMIT], [None] when the variable is not set or is not an
    integer. *)
Definition default_recursion_limit : Z := 25.

Definition recursion_limit (env_value : option Z) : Z :=
  match env_value with
  | Some parsed_limit =>
      if 0 <? parsed_limit then parsed_limit else default_recursion_limit
  | None => default_recursion_limit
  end.

Definition max_retries : Z := 3.

Definition is_context_error (e : pystr) : bool :=
  let error_msg := lower e in
  contains (lit "context_length_exceeded") error_msg
  || contains (lit "maximum context length") error_msg.

(** The first message, cut for the next attempt. *)
Definition shrink_input (retry_count : Z) (agent_input : list lc_message)
    : list lc_message :=
  match agent_input with
  | [] => []
  | first :: rest =>
      let current_content := lc_content first in
      let truncation_factor := pow (of_rat 8 10) (Z.to_nat retry_count) in
      let max_length := to_int (mul (of_int (len current_content)) truncation_factor) in
      let max_length := if max_length <? 1000 then 1000 else max_length in
      let truncated_content := take max_length current_content in
      let truncated_content :=
        if max_length <? len current_content
        then truncated_content ++ lit "\n\n[內容已截斷，原長度: "
             ++ of_Z (len current_content) ++ lit " 字符]"
        else truncated_content in
      human truncated_content :: rest
  end.

Definition minimal_content (current_step : Step) : pystr :=
  lit "任務: " ++ step_title current_step ++ lit "\n簡要描述: "
  ++ take 200 (step_description current_step) ++ lit "...".

Definition placeholder (current_step : Step) : pystr :=
  lit "抱歉，由於上下文長度限制，無法完成任務 '" ++ step_title current_step
  ++ lit "'。請考慮：\n1. 使用支援更大上下文的模型\n2. 減少研究步驟數量\n3. 調整 MAX_CONTEXT_TOKENS 環境變數".

(** How the retry loop ends: with a result, with the agent's exception
    raised again, with a [BaseException] that no clause caught, or by
    falling out of the [while] with [result] unbound. *)
Inductive loop_end :=
| Got (result_messages : list pystr)
| Failed (error : pystr)
| Uncaught (error : pystr)
| Unbound
| OutOfFuel.

(** The [while retry_count < max_retries] loop.  [log] holds the inputs of
    the invocations made so far, oldest first. *)
Fixpoint retry_loop (agent : agent_handle) (limit : Z) (current_step : Step)
    (fuel : nat) (retry_count : Z) (agent_input : list lc_message)
    (log : list (list lc_message)) : loop_end * list (list lc_message) :=
  if retry_count <? max_retries then
    match fuel with
    | O => (OutOfFuel, log)
    | S fuel' =>
        match agent (length log) agent_input limit with
        | AgentReturn result => (Got result, log ++ [agent_input])
        | AgentRaise e =>
            let log := log ++ [agent_input] in
            if is_context_error e then
              let retry_count := retry_count + 1 in
              if retry_count <? max_retries then
                retry_loop agent limit current_step fuel' retry_count
                  (shrink_input retry_count agent_input) log
              else
                let agent_input := [human (minimal_content current_step)] in
                match agent (length log) agent_input limit with
                | AgentReturn result => (Got result, log ++ [agent_input])
                | AgentRaise _ =>
                    (Got [placeholder current_step], log ++ [agent_input])
                | AgentRaiseBase e => (Uncaught e, log ++ [agent_input])
                end
            else (Failed e, log)
        | AgentRaiseBase e => (Uncaught e, log ++ [agent_input])
        end
    end
  else (Unbound, log).

(** What an invocation of the executor leaves behind: the command it
    returns, the plan with the claimed step filled in, and the inputs of the
    agent invocations it made. *)
Record step_result := mkResult {
  command : Command;
  plan_after : Plan;
  invocations : list (list lc_message)
}.

Definition set_execution_res (step : Step) (r : pystr) : Step :=
  mkStep (step_title step) (step_description step) (Some r).

Definition with_steps (p : Plan) (l : list Step) : Plan :=
  mkPlan (plan_locale p) (has_enough_context p) (thought p) (plan_title p) l.

(** The agent input as it stands when the agent is first invoked. *)
Definition prepare_agent_input (state : State) (completed_steps : list Step)
    (current_step : Step) (agent_name : pystr) : list lc_message :=
  let agent_input :=
    [human (completed_steps_info completed_steps
            ++ current_task_content state current_step)] in
  let truncated_context :=
    truncate_context (context_parts state completed_steps current_step) None in
  let agent_input := rebuild_input truncated_context agent_input current_step in
  agent_input ++ researcher_messages state agent_name.

Definition _execute_agent_step (state : State) (agent : agent_handle)
    (agent_name : pystr) (env_value : option Z) : outcome step_result :=
  match current_plan state with
  | ValidPlan current_plan =>
      let observations := observations state in
      match find_step (steps current_plan) [] with
      | (_, None) => Return (mkResult (goto_only research_team) current_plan [])
      | (completed_steps, Some (current_step, later_steps)) =>
          let agent_input :=
            prepare_agent_input state completed_steps current_step agent_name in
          match retry_loop agent (recursion_limit env_value) current_step
                  (Z.to_nat max_retries) 0 agent_input [] with
          | (Got result, log) =>
              match rev result with
              | [] => Raise IndexError
              | response_content :: _ =>
                  Return (mkResult
                    (mkCommand research_team
                       [mklc HumanMessage response_content (Some agent_name)]
                       None None None
                       (Some (observations ++ [response_content])))
                    (with_steps current_plan
                       (completed_steps
                        ++ set_execution_res current_step response_content
                        :: later_steps))
                    log)
              end
          | (Failed e, _) => Raise (AgentError e)
          | (Uncaught e, _) => Raise (AgentBaseException e)
          | (Unbound, _) => Raise UnboundLocalError
          | (OutOfFuel, _) => Raise UnboundLocalError
          end
      end
  | _ => Raise AttributeError
  end.

(** * The other nodes, the server and the tools *)

(** ** Coordinator and reporter nodes *)

(** A tool call of the coordinator's answer: its [name] and, from its
    [args], [locale] and [research_topic]; the empty string stands for a key
    that is absent or empty, both of which the node treats alike. *)
Record tool_call := mkToolCall {
  tc_name : pystr;
  tc_locale : pystr;
  tc_research_topic : pystr
}.

Inductive coordinator_goto :=
| to_planner
| to_background_investigator
| to_end.

(** The command the coordinator returns: [goto] and the three keys of its
    update. *)
Record coordinator_command := mkCoordinatorCommand {
  coordinator_next : coordinator_goto;
  coordinator_locale : pystr;
  coordinator_research_topic : pystr;
  coordinator_resources : list Resource
}.

(** The loop over the tool calls: calls of other tools are passed over, and
    the first hand-off call with a locale and a topic ends the loop. *)
Fixpoint find_handoff (tool_calls : list tool_call) : option (pystr * pystr) :=
  match tool_calls with
  | [] => None
  | tool_call :: rest =>
      if negb (PyStr.eqb (tc_name tool_call) (lit "handoff_to_planner"))
      then find_handoff rest
      else if truthy (tc_locale tool_call) && truthy (tc_research_topic tool_call)
      then Some (tc_locale tool_call, tc_research_topic tool_call)
      else find_handoff rest
  end.

(** [coordinator_node]; [research_topic] and
    [enable_background_investigation] are the state's keys of those names,
    [tool_calls] the tool calls of the model's answer and [resources] the
    configured resources. *)
Definition coordinator_node (state : State) (research_topic : pystr)
    (enable_background_investigation : bool) (tool_calls : list tool_call)
    (resources : list Resource) : coordinator_command :=
  let locale := state_locale state in
  match tool_calls with
  | [] => mkCoordinatorCommand to_end locale research_topic resources
  | _ =>
      let goto :=
        if enable_background_investigation then to_background_investigator
        else to_planner in
      match find_handoff tool_calls with
      | Some (locale, research_topic) =>
          mkCoordinatorCommand goto locale research_topic resources
      | None => mkCoordinatorCommand goto locale research_topic resources
      end
  end.

Definition REPORT_REMINDER : pystr :=
  lit "IMPORTANT: Structure your report according to the format in the prompt. Remember to include:\n\n1. Key Points - A bulleted list of the most important findings\n2. Overview - A brief introduction to the topic\n3. Detailed Analysis - Organized into logical sections\n4. Survey Note (optional) - For more comprehensive reports\n5. Key Citations - List all references at the end\n\nFor citations, DO NOT include inline citations in the text. Instead, place all citations in the 'Key Citations' section at the end using the format: `- [Source Title](URL)`. Include an empty line between each citation for better readability.\n\nPRIORITIZE USING MARKDOWN TABLES for data presentation and comparison. Use tables whenever presenting comparative data, statistics, features, or options. Structure tables with clear headers and aligned columns. Example table format:\n\n| Feature | Description | Pros | Cons |\n|---------|-------------|------|------|\n| Feature 1 | Description 1 | Pros 1 | Cons 1 |\n| Feature 2 | Description 2 | Pros 2 | Cons 2 |".

Definition observation_message (observation : pystr) : lc_message :=
  mklc HumanMessage
    (lit "Below are some observations for the research task:\n\n" ++ observation)
    (Some (lit "observation")).

(** The messages the reporter hands to the model; [apply_prompt_template]
    renders the reporter's prompt from the requirement message and the
    locale. *)
Definition reporter_messages
    (apply_prompt_template : list lc_message -> pystr -> list lc_message)
    (state : State) (current_plan : Plan) : list lc_message :=
  let input_messages :=
    [human (lit "# Research Requirements\n\n## Task\n\n" ++ plan_title current_plan
            ++ lit "\n\n## Description\n\n" ++ thought current_plan)] in
  let invoke_messages := apply_prompt_template input_messages (state_locale state) in
  let invoke_messages :=
    invoke_messages ++ [mklc HumanMessage REPORT_REMINDER (Some (lit "system"))] in
  invoke_messages ++ map observation_message (observations state).

(** [reporter_node]: the final report, the model's answer to those
    messages. *)
Definition reporter_node
    (apply_prompt_template : list lc_message -> pystr -> list lc_message)
    (llm : list lc_message -> pystr) (state : State) : outcome pystr :=
  match current_plan state with
  | ValidPlan current_plan =>
      Return (llm (reporter_messages apply_prompt_template state current_plan))
  | _ => Raise AttributeError
  end.

(** ** Tools of an agent *)

Record Tool := mkTool {
  tool_name : pystr;
  tool_description : pystr
}.

(** An entry of [mcp_settings["servers"]]. *)
Record server_config := mkServer {
  enabled_tools : list pystr;
  add_to_agents : list pystr;
  server_settings : list (pystr * json)
}.

Definition mem (x : pystr) (l : list pystr) : bool := existsb (PyStr.eqb x) l.

Definition server_selected (agent_type : pystr) (config : server_config) : bool :=
  match enabled_tools config with
  | [] => false
  | _ => mem agent_type (add_to_agents config)
  end.

Definition connection_keys : list pystr :=
  [lit "transport"; lit "command"; lit "args"; lit "url"; lit "env"].

(** [mcp_servers]: the servers of this agent type, each with its connection
    settings. *)
Fixpoint mcp_servers (agent_type : pystr) (servers : list (pystr * server_config))
    : list (pystr * list (pystr * json)) :=
  match servers with
  | [] => []
  | (server_name, config) :: rest =>
      if server_selected agent_type config
      then (server_name,
            filter (fun kv => mem (fst kv) connection_keys) (server_settings config))
           :: mcp_servers agent_type rest
      else mcp_servers agent_type rest
  end.

(** [enabled_tools[tool_name]] after the loop: the last selected server that
    enables the name. *)
Fixpoint tool_server (agent_type : pystr) (servers : list (pystr * server_config))
    (name : pystr) : option pystr :=
  match servers with
  | [] => None
  | (server_name, config) :: rest =>
      match tool_server agent_type rest name with
      | Some later => Some later
      | None =>
          if server_selected agent_type config && mem name (enabled_tools config)
          then Some server_name
          else None
      end
  end.

Fixpoint add_client_tools (agent_type : pystr) (servers : list (pystr * server_config))
    (client_tools : list Tool) : list Tool :=
  match client_tools with
  | [] => []
  | tool :: rest =>
      match tool_server agent_type servers (tool_name tool) with
      | Some server =>
          mkTool (tool_name tool)
            (lit "Powered by '" ++ server ++ lit "'.\n" ++ tool_description tool)
          :: add_client_tools agent_type servers rest
      | None => add_client_tools agent_type servers rest
      end
  end.

(** The tools [_setup_and_execute_agent_step] creates the agent with;
    [get_tools] is what the client of the selected servers offers. *)
Definition agent_tools (agent_type : pystr) (servers : list (pystr * server_config))
    (default_tools : list Tool)
    (get_tools : list (pystr * list (pystr * json)) -> list Tool) : list Tool :=
  match mcp_servers agent_type servers with
  | [] => default_tools
  | selected => default_tools ++ add_client_tools agent_type servers (get_tools selected)
  end.

(** ** The Python tool *)

(** What [repl.run] does with the code: it returns the captured output, or
    raises; [error] is [repr] of the exception. *)
Inductive repl_result :=
| ReplOutput (result : pystr)
| ReplRaise (error : pystr).

Definition repl_error (code result : pystr) : pystr :=
  lit "Error executing code:\n```python\n" ++ code ++ lit "\n```\nError: " ++ result.

(** [python_repl_tool] for a string [code]. *)
Definition python_repl_tool (run : pystr -> repl_result) (code : pystr) : pystr :=
  match run code with
  | ReplOutput result =>
      if contains (lit "Error") result || contains (lit "Exception") result
      then repl_error code result
      else lit "Successfully executed:\n```python\n" ++ code ++ lit "\n```\nStdout: "
           ++ result
  | ReplRaise error_msg => repl_error code error_msg
  end.

(** ** Configuration loader *)

(** [os.getenv]: the value of a variable, if it is set *)
Definition environment := pystr -> option pystr.

Definition replace_env_vars (getenv : environment) (value : json) : json :=
  match value with
  | JStr s =>
      if startswith (lit "$") s
      then
        let env_var := skipn 1 s in
        JStr (match getenv env_var with Some v => v | None => env_var end)
      else value
  | _ => value
  end.

(** The body of the loop of [process_dict]: a dict is processed in turn, a
    string has its variable replaced, anything else is kept. *)
Fixpoint process_value (getenv : environment) (value : json) : json :=
  match value with
  | JDict inner =>
      JDict (map (fun kv => match kv with
                            | (key, value) => (key, process_value getenv value)
                            end) inner)
  | JStr _ => replace_env_vars getenv value
  | _ => value
  end.

(** [process_dict] on a dict that is not empty, given by its items. *)
Definition process_items (getenv : environment) (items : list (pystr * json))
    : list (pystr * json) :=
  map (fun kv => match kv with
                 | (key, value) => (key, process_value getenv value)
                 end) items.

Inductive load_result :=
| Loaded (config : json)
| LoadAttributeError
| LoadYAMLError.

(** [process_dict] on what the YAML loader returned: anything falsy gives
    the empty dict, and a value that is not a dict has no [items]. *)
Definition process_dict (getenv : environment) (config : json) : load_result :=
  if negb (json_truthy config) then Loaded (JDict [])
  else
    match config with
    | JDict items => Loaded (JDict (process_items getenv items))
    | _ => LoadAttributeError
    end.

(** What is at a path: nothing, a file the YAML loader rejects, or a file
    with the value it loads. *)
Inductive file :=
| Missing
| Unreadable
| Content (config : json).

(** [load_yaml_config] with the cache it reads and leaves behind. *)
Definition load_yaml_config (getenv : environment) (fs : pystr -> file)
    (cache : list (pystr * json)) (file_path : pystr)
    : load_result * list (pystr * json) :=
  match fs file_path with
  | Missing => (Loaded (JDict []), cache)
  | found =>
      match assoc file_path cache with
      | Some cached => (Loaded cached, cache)
      | None =>
          match found with
          | Content config =>
              match process_dict getenv config with
              | Loaded processed_config =>
                  (Loaded processed_config, (file_path, processed_config) :: cache)
              | failure => (failure, cache)
              end
          | _ => (LoadYAMLError, cache)
          end
      end
  end.

(** ** Server *)

(** [json.dumps(..., ensure_ascii=False)] *)
Definition hex_digit (n : N) : N := if (n <? 10)%N then (48 + n)%N else (87 + n)%N.

Definition escape_char (c : N) : pystr :=
  if (c =? 34)%N then [92; 34]%N
  else if (c =? 92)%N then [92; 92]%N
  else if (c =? 10)%N then [92; 110]%N
  else if (c =? 13)%N then [92; 114]%N
  else if (c =? 9)%N then [92; 116]%N
  else if (c =? 8)%N then [92; 98]%N
  else if (c =? 12)%N then [92; 102]%N
  else if (c <? 32)%N
       then [92; 117; 48; 48; hex_digit (c / 16); hex_digit (c mod 16)]%N
  else [c].

Definition json_string (s : pystr) : pystr :=
  [34%N] ++ flat_map escape_char s ++ [34%N].

Fixpoint json_dumps (j : json) : pystr :=
  match j with
  | JNull => lit "null"
  | JBool true => lit "true"
  | JBool false => lit "false"
  | JNum n => of_Z n
  | JStr s => json_string s
  | JList l => lit "[" ++ join (lit ", ") (map json_dumps l) ++ lit "]"
  | JDict items =>
      lit "{"
      ++ join (lit ", ")
           (map (fun kv => match kv with
                           | (k, v) => json_string k ++ lit ": " ++ json_dumps v
                           end) items)
      ++ lit "}"
  end.

(** [data.pop("content")] *)
Definition without_key (key : pystr) (data : list (pystr * json)) : list (pystr * json) :=
  filter (fun kv => negb (PyStr.eqb (fst kv) key)) data.

Definition _make_event (event_type : pystr) (data : list (pystr * json)) : pystr :=
  let data :=
    match assoc (lit "content") data with
    | Some (JStr []) => without_key (lit "content") data
    | _ => data
    end in
  lit "event: " ++ event_type ++ lit "\ndata: " ++ json_dumps (JDict data) ++ lit "\n\n".

(** The input of a run: the text that resumes an interrupted run, or a fresh
    state.  [interrupt_feedback] is empty when the request has none, and
    [last_content] is the content, a text, of the last message of the
    request, if it has messages. *)
Inductive run_input :=
| Resume (resume_msg : pystr)
| Fresh.

Definition workflow_input (auto_accepted_plan : bool) (interrupt_feedback : pystr)
    (last_content : option pystr) : run_input :=
  if negb auto_accepted_plan && truthy interrupt_feedback then
    let resume_msg := lit "[" ++ interrupt_feedback ++ lit "]" in
    let resume_msg :=
      match last_content with
      | Some c => resume_msg ++ lit " " ++ c
      | None => resume_msg
      end in
    Resume resume_msg
  else Fresh.

(** The values of the two options an interrupt event offers. *)
Definition interrupt_options : list pystr := [lit "edit_plan"; lit "accepted"].

Inductive http_result :=
| AudioResponse (content : pystr) (media_type : pystr)
| HTTPException (status_code : Z) (detail : pystr).

Definition INTERNAL_SERVER_ERROR_DETAIL : pystr := lit "Internal Server Error".

(** What the speech client answers: a result with its [success] flag, its
    [error] and its [audio_data], or an exception. *)
Inductive tts_result :=
| TTSResult (success : bool) (error : pystr) (audio_data : pystr)
| TTSRaise.

(** What the body of the [try] of [text_to_speech] does: it returns a
    response, raises an [HTTPException], or lets another exception through. *)
Inductive tts_attempt :=
| Responds (response : http_result)
| RaisesHTTP (status_code : Z) (detail : pystr)
| RaisesOther.

(** [app_id] and [access_token] are the values of the two environment
    variables, empty when they are not set; [b64decode] gives [None] when it
    raises. *)
Definition text_to_speech_body (app_id access_token : pystr)
    (tts_client : pystr -> tts_result) (b64decode : pystr -> option pystr)
    (text encoding : pystr) : tts_attempt :=
  if negb (truthy app_id)
  then RaisesHTTP 400 (lit "VOLCENGINE_TTS_APPID is not set")
  else if negb (truthy access_token)
  then RaisesHTTP 400 (lit "VOLCENGINE_TTS_ACCESS_TOKEN is not set")
  else
    match tts_client (take 1024 text) with
    | TTSRaise => RaisesOther
    | TTSResult success error audio =>
        if negb success then RaisesHTTP 500 error
        else
          match b64decode audio with
          | None => RaisesOther
          | Some audio_data =>
              Responds (AudioResponse audio_data (lit "audio/" ++ encoding))
          end
    end.

(** [text_to_speech]: the [except Exception] clause catches whatever the
    body raises, [HTTPException] included. *)
Definition text_to_speech (app_id access_token : pystr)
    (tts_client : pystr -> tts_result) (b64decode : pystr -> option pystr)
    (text encoding : pystr) : http_result :=
  match text_to_speech_body app_id access_token tts_client b64decode text encoding with
  | Responds response => response
  | RaisesHTTP _ _ => HTTPException 500 INTERNAL_SERVER_ERROR_DETAIL
  | RaisesOther => HTTPException 500 INTERNAL_SERVER_ERROR_DETAIL
  end.

(** * Vocabulary of the properties *)

(** [sub] occurs in [s] *)
Definition Occurs (sub s : pystr) : Prop :=
  exists pre post, s = pre ++ sub ++ post.

(** A text the estimator rates as code, and a text with more CJK characters
    than other characters. *)
Definition code_like (text : pystr) : Prop :=
  Occurs (lit "```") text \/ Occurs (lit "def ") text \/ Occurs (lit "class ") text.

Definition cjk_dominant (text : pystr) : Prop :=
  (length (filter (fun c => negb (is_chinese c)) text)
   < length (filter is_chinese text))%nat.

(** The truncation ratio is at most one and, for a budget of 2^53 or more,
    which a float need not hold exactly, at most 0.999. *)
Definition ratio_fits (budget : Z) : Prop :=
  0 < fden TRUNCATION_RATIO
  /\ fnum TRUNCATION_RATIO <= fden TRUNCATION_RATIO
  /\ (budget < 2 ^ 53 \/ 1000 * fnum TRUNCATION_RATIO <= 999 * fden TRUNCATION_RATIO).

(** C1 as the specification states it, for one list and one budget. *)
Definition respects_budget (messages : list msg) (budget : Z) : Prop :=
  forall smallest,
    In smallest messages ->
    (forall m, In m messages ->
       estimate_tokens (msg_content smallest) <= estimate_tokens (msg_content m)) ->
    estimate_tokens (msg_content smallest) <= budget ->
    total_tokens (truncate_context messages (Some budget)) <= budget.



(** The content of [m] cut the way [add_messages_if_fits] cuts it. *)
Definition shortened (m : msg) : msg :=
  with_content m
    (take (to_int (mul (of_int (len (msg_content m))) (of_rat 6 10))) (msg_content m)
     ++ TRUNCATED_MARK).

(** [r] is the input message [m], as it is or cut. *)
Definition comes_from (m r : msg) : Prop := r = m \/ r = shortened m.



(** A step that has a non-empty result *)
Definition executed (step : Step) : Prop := unexecuted step = false.

(** The input of invocation [i] of a run whose first input is [agent_input]:
    the input itself, the input cut for the first retry, that one cut again
    for the second retry, and then the minimal content. *)
Definition attempt_input (current_step : Step) (agent_input : list lc_message)
    (i : nat) : list lc_message :=
  match i with
  | 0%nat => agent_input
  | 1%nat => shrink_input 1 agent_input
  | 2%nat => shrink_input 2 (shrink_input 1 agent_input)
  | _ => [human (minimal_content current_step)]
  end.

(** The agent raises a context-length failure on each of the first [k]
    invocations of the run, that is, on the inputs the run hands to it. *)
Definition overflows_on (agent : agent_handle) (limit : Z) (current_step : Step)
    (agent_input : list lc_message) (k : nat) : Prop :=
  forall i, (i < k)%nat ->
    exists e,
      agent i (attempt_input current_step agent_input i) limit = AgentRaise e
      /\ is_context_error e = true.

(** The inputs of the first [n] invocations of the run *)
Definition attempts (current_step : Step) (agent_input : list lc_message) (n : nat)
    : list (list lc_message) :=
  map (attempt_input current_step agent_input) (seq 0 n).

(** The payload assembled in a run: the context parts for the step the
    executor claims and the steps it passes over. *)
Definition assembled_context (state : State) : list msg :=
  match current_plan state with
  | ValidPlan current_plan =>
      match find_step (steps current_plan) [] with
      | (completed_steps, Some (current_step, _)) =>
          context_parts state completed_steps current_step
      | _ => []
      end
  | _ => []
  end.

(** C10 as the specification states it: no observation before the three
    most recent ones is part of the assembled payload. *)
Definition drops_older_observations (state : State) : Prop :=
  forall o m,
    In o (firstn (length (observations state) - 3) (observations state)) ->
    In m (assembled_context state) ->
    ~ Occurs o (msg_content m).

(** The state with only what [context_parts] may draw from: the five most
    recent messages and the three most recent observations. *)
Definition recent_state (state : State) : State :=
  mkState (last_n 5 (messages state)) (plan_iterations state) (current_plan state)
    (last_n 3 (observations state)) (locale state) (resources state)
    (auto_accepted_plan state).

(** The state with older messages and observations in front of its own. *)
Definition with_older (older_messages : list state_message)
    (older_observations : list pystr) (state : State) : State :=
  mkState (older_messages ++ messages state) (plan_iterations state)
    (current_plan state) (older_observations ++ observations state)
    (locale state) (resources state) (auto_accepted_plan state).

(** A message as one pass of [add_messages_if_fits] takes it: cut when its
    estimate is above 0.8 of the pass's limit, as it is otherwise. *)
Definition fitted (max_tokens_remaining : Z) (m : msg) : msg :=
  if int_gt (estimate_tokens (msg_content m))
       (mul (of_int max_tokens_remaining) (of_rat 8 10))
  then shortened m else m.

(** A tool call that hands the conversation over with a locale and a
    topic. *)
Definition hands_off (tool_call : tool_call) : Prop :=
  tc_name tool_call = lit "handoff_to_planner"
  /\ tc_locale tool_call <> [] /\ tc_research_topic tool_call <> [].

(** The run of the code went through and its output mentions neither
    [Error] nor [Exception]. *)
Definition clean_run (run : pystr -> repl_result) (code : pystr) : Prop :=
  exists result,
    run code = ReplOutput result
    /\ ~ Occurs (lit "Error") result /\ ~ Occurs (lit "Exception") result.

(** No string that [process_dict] would replace: the strings it reaches,
    through nested dicts only, do not start with a dollar sign. *)
Fixpoint no_variables (value : json) : bool :=
  match value with
  | JStr s => negb (startswith (lit "$") s)
  | JDict items =>
      forallb (fun kv => match kv with (_, v) => no_variables v end) items
  | _ => true
  end.

(** A character that ends a line of an event stream *)
Definition line_break (c : N) : Prop := c = 10%N \/ c = 13%N.

(** The context without the entries that come from the state's messages. *)
Definition without_state_messages (context : list msg) : list msg :=
  filter (fun m => negb (type_is (lit "state_message") m)) context.

(** Three consecutive overflow failures are enough for the placeholder: the
    reading of C4 that counts the minimal-content attempt among the three. *)
Definition three_overflows_degrade (state : State) (agent : agent_handle)
    (agent_name : pystr) (env_value : option Z) (completed : list Step)
    (current : Step) : Prop :=
  overflows_on agent (recursion_limit env_value) current
    (prepare_agent_input state completed current agent_name) 3 ->
  exists res,
    _execute_agent_step state agent agent_name env_value = Return res
    /\ update_observations (command res)
       = Some (observations state ++ [placeholder current]).

(** When every invocation overflows, the placeholder comes after three
    invocations, the third being the minimal-content attempt: the reading of
    C4 that takes every invocation to fail. *)
Definition degrades_within_three_attempts (state : State) (agent : agent_handle)
    (agent_name : pystr) (env_value : option Z) (completed : list Step)
    (current : Step) : Prop :=
  (forall k,
     overflows_on agent (recursion_limit env_value) current
       (prepare_agent_input state completed current agent_name) k) ->
  exists res,
    _execute_agent_step state agent agent_name env_value = Return res
    /\ update_observations (command res)
       = Some (observations state ++ [placeholder current])
    /\ length (invocations res) = 3%nat
    /\ nth_error (invocations res) 2 = Some [human (minimal_content current)].

(** The message appended on success is tagged as the assistant's: the
    reading of C9 for the appended message. *)
Definition appends_assistant_message (res : step_result) : Prop :=
  exists m, In m (update_messages (command res)) /\ kind m = AIMessage.

End Model.

Arguments Return {A} a.
Arguments Raise {A} e.

(** ** Example inputs *)

Definition first_step : Step := mkStep (lit "first") (lit "look") (Some (lit "found")).
Definition second_step : Step := mkStep (lit "second") (lit "dig") None.

Definition example_plan : Plan :=
  mkPlan (lit "en-US") false (lit "why") (lit "Plan") [first_step; second_step].

Definition example_state : State :=
  mkState [ObjMsg (mklc HumanMessage (lit "query") None)] 1 (ValidPlan example_plan)
    [lit "found"] (Some (lit "en-US")) [] true.

(** An agent that overflows three times and then answers. *)
Definition flaky_agent : agent_handle :=
  fun i _ _ =>
    if (i <? 3)%nat then AgentRaise (lit "Error code: 400 - context_length_exceeded")
    else AgentReturn [lit "done"].

(** An agent that always overflows *)
Definition failing_agent : agent_handle :=
  fun _ _ _ => AgentRaise (lit "This model's maximum context length is 8192 tokens").

(** An agent that answers at once *)
Definition prompt_agent : agent_handle := fun _ _ _ => AgentReturn [lit "done"].

(** A state waiting for the review of a plan. *)
Definition review_state : State :=
  mkState [ObjMsg (mklc HumanMessage (lit "query") None)] 0 (RawPlan (lit "{}"))
    [] None [] false.

(** Two messages of the system class; the first is too long for a budget of
    40 tokens and is cut. *)
Definition order_example : list msg :=
  [mkmsg (Some (repeat 97%N 164)) (Some (lit "system")) None None;
   mkmsg (Some (lit "note")) (Some (lit "system")) None None].

(** Settings with [TRUNCATION_RATIO=1.5] in the environment. *)
Definition generous_settings : Settings :=
  {| MAX_CONTEXT_TOKENS := 128000; TRUNCATION_RATIO := of_rat 3 2 |}.

(** A state with seven messages and three observations. *)
Definition long_state : State :=
  mkState (repeat OtherMsg 2 ++ repeat (ObjMsg (mklc HumanMessage (lit "hi") None)) 5) 1
    (ValidPlan example_plan) [lit "a"; lit "b"; lit "c"] None [] true.

(** A state as the executor leaves it after four steps: the four results are
    the results of the plan's first four steps and the observations. *)
Definition history_plan : Plan :=
  mkPlan (lit "en-US") false (lit "why") (lit "Plan")
    [mkStep (lit "one") (lit "look") (Some (lit "alpha finding"));
     mkStep (lit "two") (lit "look") (Some (lit "beta finding"));
     mkStep (lit "three") (lit "look") (Some (lit "gamma finding"));
     mkStep (lit "four") (lit "look") (Some (lit "delta finding"));
     mkStep (lit "five") (lit "look") None].

Definition history_state : State :=
  mkState [ObjMsg (mklc HumanMessage (lit "query") None)] 1 (ValidPlan history_plan)
    [lit "alpha finding"; lit "beta finding"; lit "gamma finding"; lit "delta finding"]
    None [] true.

(** A system message of 30 tokens, a task message of one token and an older
    message of 50 tokens. *)
Definition starved_example : list msg :=
  [mkmsg (Some (repeat 97%N 120)) (Some (lit "system")) None None;
   mkmsg (Some (lit "title")) (Some (lit "user")) None None;
   mkmsg (Some (repeat 98%N 200)) (Some (lit "user")) None None].

(** An agent that fails for a reason other than the context length *)
Definition broken_agent : agent_handle :=
  fun _ _ _ => AgentRaise (lit "Connection reset by peer").

(** An agent that answers with an empty text *)
Definition silent_agent : agent_handle := fun _ _ _ => AgentReturn [[]].

(** An agent whose invocation is cancelled. *)
Definition cancelled_agent : agent_handle :=
  fun _ _ _ => AgentRaiseBase (lit "CancelledError()").

(** One long message and a short one that occurs twice. *)
Definition duplicate_example : list msg :=
  [mkmsg (Some (repeat 97%N 164)) (Some (lit "user")) None None;
   mkmsg (Some (lit "hi")) (Some (lit "user")) None None;
   mkmsg (Some (lit "yo")) (Some (lit "user")) None None;
   mkmsg (Some (lit "hi")) (Some (lit "user")) None None].

(** A state whose plan has no step left to execute. *)
Definition finished_state : State :=
  mkState [] 1 (ValidPlan (mkPlan (lit "en-US") false (lit "why") (lit "Plan") [first_step]))
    [lit "found"] None [] true.

(** A plan as the planning model writes it when it needs more context, and
    the command with which the planner hands a draft to the review. *)
Definition draft_plan : json :=
  JDict [(lit "has_enough_context", JBool false); (lit "locale", JStr (lit "en-US"))].

Definition review_command (full_response : pystr) : Command :=
  mkCommand human_feedback [mklc AIMessage full_response (Some (lit "planner"))]
    (Some (RawPlan full_response)) None None None.

(** A configuration with a variable inside a list only, and a configuration
    file that refers to a variable. *)
Definition plain_config : list (pystr * json) :=
  [(lit "name", JStr (lit "deer")); (lit "paths", JList [JStr (lit "$HOME")])].

Definition key_config : json := JDict [(lit "api_key", JStr (lit "$KEY"))].

(** Two tool calls: a search, then a hand-off. *)
Definition example_calls : list tool_call :=
  [mkToolCall (lit "web_search") [] [];
   mkToolCall (lit "handoff_to_planner") (lit "zh-TW") (lit "tea")].

(** * Properties *)

(** ** Rounding *)

Module FloatFacts.

Lemma nearest_even_bounds n d :
  0 <= n -> 0 < d ->
  0 <= nearest_even n d /\
  - d <= 2 * (nearest_even n d * d - n) <= d.
Proof.
  intros Hn Hd. unfold nearest_even.
  pose proof (Z.div_mod n d ltac:(lia)) as Hdm.
  pose proof (Z.mod_pos_bound n d Hd) as Hr.
  pose proof (Z.div_pos n d Hn Hd) as Hq.
  set (q := n / d) in *. set (r := n mod d) in *.
  destruct (2 * r <? d) eqn:E1; [apply Z.ltb_lt in E1 | apply Z.ltb_ge in E1].
  - split; [lia | nia].
  - destruct (d <? 2 * r) eqn:E2; [apply Z.ltb_lt in E2 | apply Z.ltb_ge in E2].
    + split; [lia | nia].
    + destruct (Z.even q); split; try lia; nia.
Qed.

(** The value [m * 2^(a-b)] written as a fraction. *)
Lemma scale_error m p q a b :
  0 < p -> 0 < q -> 0 <= a -> 0 <= b -> 0 <= m ->
  - (p * 2 ^ b) <= (m * (q * 2 ^ a) - p * 2 ^ b) * 2 ^ 53 <= p * 2 ^ b ->
  let r := if 0 <=? a - b then mk (m * 2 ^ (a - b)) 1 else mk m (2 ^ (- (a - b))) in
  0 < fden r /\ 0 <= fnum r /\
  - (p * fden r) <= (fnum r * q - p * fden r) * 2 ^ 53 <= p * fden r.
Proof.
  intros Hp Hq Ha Hb Hm H.
  destruct (0 <=? a - b) eqn:E; [apply Z.leb_le in E | apply Z.leb_gt in E]; cbn [fnum fden].
  - assert (Hab : 2 ^ a = 2 ^ b * 2 ^ (a - b)).
    { rewrite <- Z.pow_add_r by lia. f_equal. lia. }
    pose proof (Z.pow_pos_nonneg 2 b ltac:(lia) Hb) as Hpb.
    pose proof (Z.pow_pos_nonneg 2 (a - b) ltac:(lia) E) as Hpe.
    rewrite Hab in H.
    set (B := 2 ^ b) in *. set (E' := 2 ^ (a - b)) in *.
    split; [lia|]. split; [nia|].
    split.
    + apply Z.mul_le_mono_pos_l with (p := B); [lia|]. nia.
    + apply Z.mul_le_mono_pos_l with (p := B); [lia|]. nia.
  - assert (Hab : 2 ^ b = 2 ^ a * 2 ^ (- (a - b))).
    { rewrite <- Z.pow_add_r by lia. f_equal. lia. }
    pose proof (Z.pow_pos_nonneg 2 a ltac:(lia) Ha) as Hpa.
    pose proof (Z.pow_pos_nonneg 2 (- (a - b)) ltac:(lia) ltac:(lia)) as Hpe.
    rewrite Hab in H.
    set (A := 2 ^ a) in *. set (E' := 2 ^ (- (a - b))) in *.
    split; [lia|]. split; [lia|].
    split.
    + apply Z.mul_le_mono_pos_l with (p := A); [lia|]. nia.
    + apply Z.mul_le_mono_pos_l with (p := A); [lia|]. nia.
Qed.

(** Rounding to 53 bits moves a positive value by at most 2^-53 of it. *)
Lemma round53_error p q :
  0 < p -> 0 < q ->
  0 < fden (round53 p q) /\ 0 <= fnum (round53 p q) /\
  - (p * fden (round53 p q))
    <= (fnum (round53 p q) * q - p * fden (round53 p q)) * 2 ^ 53
    <= p * fden (round53 p q).
Proof.
  intros Hp Hq. unfold round53.
  pose proof (Z.log2_spec p Hp) as [Hp1 Hp2].
  pose proof (Z.log2_spec q Hq) as [Hq1 Hq2].
  pose proof (Z.log2_nonneg p) as Hlp.
  pose proof (Z.log2_nonneg q) as Hlq.
  set (lp := Z.log2 p) in *. set (lq := Z.log2 q) in *.
  rewrite Z.pow_succ_r in Hp2, Hq2 by lia.
  assert (Hb : 2 ^ (lq + 53) = 2 ^ lq * 2 ^ 53) by (apply Z.pow_add_r; lia).
  pose proof (Z.pow_pos_nonneg 2 lp ltac:(lia) Hlp) as Hpp.
  pose proof (Z.pow_pos_nonneg 2 lq ltac:(lia) Hlq) as Hpq.
  assert (H52 : 2 ^ 53 = 2 * 2 ^ 52) by reflexivity.
  assert (Hlow : 2 ^ 52 * (q * 2 ^ lp) <= p * 2 ^ (lq + 53)).
  { rewrite Hb, H52. set (K := 2 ^ 52) in *. assert (0 < K) by (subst K; reflexivity).
    nia. }
  destruct (p * 2 ^ (lq + 53) <? 2 ^ 53 * (q * 2 ^ lp)) eqn:E;
    [apply Z.ltb_lt in E | apply Z.ltb_ge in E].
  - pose proof (nearest_even_bounds (p * 2 ^ (lq + 53)) (q * 2 ^ lp) ltac:(nia) ltac:(nia))
      as [Hm Herr].
    replace (lp - lq - 53) with (lp - (lq + 53)) by lia.
    apply scale_error; lia.
  - pose proof (nearest_even_bounds (p * 2 ^ (lq + 53)) (2 * (q * 2 ^ lp)) ltac:(nia) ltac:(nia))
      as [Hm Herr].
    replace (lp - lq - 52) with ((lp + 1) - (lq + 53)) by lia.
    assert (Hq2' : 2 * (q * 2 ^ lp) = q * 2 ^ (lp + 1)).
    { rewrite Z.pow_add_r by lia. change (2 ^ 1) with 2. ring. }
    rewrite Hq2' in *.
    apply scale_error; lia.
Qed.

Lemma of_rat_bounds p q :
  0 <= p -> 0 < q ->
  0 < fden (of_rat p q) /\ 0 <= fnum (of_rat p q) /\
  fnum (of_rat p q) * q * 2 ^ 53 <= p * fden (of_rat p q) * (2 ^ 53 + 1) /\
  p * fden (of_rat p q) * (2 ^ 53 - 1) <= fnum (of_rat p q) * q * 2 ^ 53.
Proof.
  intros Hp Hq. unfold of_rat.
  destruct (p =? 0) eqn:E0; [apply Z.eqb_eq in E0 | apply Z.eqb_neq in E0].
  - subst p. cbn. lia.
  - destruct (p <? 0) eqn:E1; [apply Z.ltb_lt in E1; lia |].
    pose proof (round53_error p q ltac:(lia) Hq) as (Hd & Hn & Hl & Hu).
    repeat split; try assumption; lia.
Qed.

Lemma to_int_nonneg a : 0 <= fnum a -> 0 < fden a -> 0 <= to_int a.
Proof. intros. unfold to_int. apply Z.quot_pos; lia. Qed.

Lemma to_int_le a x : 0 <= fnum a -> 0 < fden a -> fnum a <= x * fden a -> to_int a <= x.
Proof.
  intros Hn Hd H. unfold to_int. rewrite Z.quot_div_nonneg by lia.
  apply Z.div_le_upper_bound; lia.
Qed.

(** [int(x * c)] stays within [0 .. x] when the factor [c] is at most
    [1 - 2^-51]. *)
Lemma scaled_int_bounds x c :
  0 <= x -> 0 <= fnum c -> 0 < fden c ->
  fnum c * ((2 ^ 53 + 1) * (2 ^ 53 + 1)) <= fden c * (2 ^ 53 * 2 ^ 53) ->
  0 <= to_int (mul (of_int x) c) <= x.
Proof.
  intros Hx Hc Hd Hsmall. unfold mul, of_int.
  pose proof (of_rat_bounds x 1 Hx ltac:(lia)) as (Hda & Hna & Hua & _).
  remember (of_rat x 1) as a eqn:Ea. clear Ea.
  pose proof (of_rat_bounds (fnum a * fnum c) (fden a * fden c) ltac:(nia) ltac:(nia))
    as (Hdr & Hnr & Hur & _).
  remember (of_rat (fnum a * fnum c) (fden a * fden c)) as r eqn:Er. clear Er.
  split; [apply to_int_nonneg; assumption |].
  apply to_int_le; try assumption.
  destruct a as [na da], c as [nc dc], r as [nr dr]; cbn [fnum fden] in *.
  remember (2 ^ 53) as K eqn:EK.
  assert (HK : 0 < K) by (subst K; reflexivity). clear EK.
  assert (H1 : nr * (da * dc) * K * K <= na * K * (nc * dr * (K + 1))).
  { replace (na * K * (nc * dr * (K + 1))) with (na * nc * dr * (K + 1) * K) by ring.
    apply Z.mul_le_mono_nonneg_r; lia. }
  assert (H2 : na * K * (nc * dr * (K + 1)) <= x * da * (K + 1) * (nc * dr * (K + 1))).
  { apply Z.mul_le_mono_nonneg_r; [nia | lia]. }
  assert (H3 : x * da * dr * (nc * ((K + 1) * (K + 1))) <= x * da * dr * (dc * (K * K))).
  { apply Z.mul_le_mono_nonneg_l; [nia | lia]. }
  assert (H4 : nr * (da * dc * (K * K)) <= x * dr * (da * dc * (K * K))).
  { replace (nr * (da * dc * (K * K))) with (nr * (da * dc) * K * K) by ring.
    replace (x * dr * (da * dc * (K * K))) with (x * da * dr * (dc * (K * K))) by ring.
    replace (x * da * (K + 1) * (nc * dr * (K + 1)))
      with (x * da * dr * (nc * ((K + 1) * (K + 1)))) in H2 by ring.
    lia. }
  apply Z.mul_le_mono_pos_r in H4; [assumption | nia].
Qed.

Lemma nearest_even_exact a d : 0 < d -> nearest_even (a * d) d = a.
Proof.
  intros Hd. unfold nearest_even.
  rewrite Z.div_mul, Z.mod_mul by lia.
  destruct (2 * 0 <? d) eqn:E; [reflexivity | apply Z.ltb_ge in E; lia].
Qed.

(** A value with at most 53 significant bits is not moved by the rounding. *)
Lemma round53_exact k q :
  0 < k < 2 ^ 53 -> 0 < q ->
  0 < fden (round53 (k * q) q)
  /\ fnum (round53 (k * q) q) = k * fden (round53 (k * q) q).
Proof.
  intros Hk Hq. unfold round53.
  assert (Hp : 0 < k * q) by nia.
  pose proof (Z.log2_spec (k * q) Hp) as [Hp1 Hp2].
  pose proof (Z.log2_spec q Hq) as [Hq1 Hq2].
  pose proof (Z.log2_nonneg (k * q)) as Hlp.
  pose proof (Z.log2_nonneg q) as Hlq.
  set (lp := Z.log2 (k * q)) in *. set (lq := Z.log2 q) in *.
  assert (HD : lp <= lq + 53).
  { assert (Hlt : lp < lq + 54); [|lia].
    apply Z.log2_lt_pow2; [exact Hp|].
    replace (lq + 54) with (Z.succ lq + 53) by lia.
    rewrite Z.pow_add_r by lia. nia. }
  pose proof (Z.pow_pos_nonneg 2 lp ltac:(lia) Hlp) as Hpp.
  assert (Hsplit : 2 ^ (lq + 53) = 2 ^ (lq + 53 - lp) * 2 ^ lp).
  { rewrite <- Z.pow_add_r by lia. f_equal. lia. }
  pose proof (Z.pow_pos_nonneg 2 (lq + 53 - lp) ltac:(lia) ltac:(lia)) as HpD.
  assert (HP : k * q * 2 ^ (lq + 53) = (k * 2 ^ (lq + 53 - lp)) * (q * 2 ^ lp)).
  { rewrite Hsplit. ring. }
  destruct (k * q * 2 ^ (lq + 53) <? 2 ^ 53 * (q * 2 ^ lp)) eqn:E;
    [apply Z.ltb_lt in E | apply Z.ltb_ge in E].
  - rewrite HP, nearest_even_exact by nia.
    destruct (0 <=? lp - lq - 53) eqn:E0;
      [apply Z.leb_le in E0 | apply Z.leb_gt in E0]; cbn [fnum fden].
    + replace (lq + 53 - lp) with 0 by lia. replace (lp - lq - 53) with 0 by lia.
      change (2 ^ 0) with 1. split; lia.
    + replace (- (lp - lq - 53)) with (lq + 53 - lp) by lia. split; [lia | reflexivity].
  - assert (Hge : 2 ^ 53 <= k * 2 ^ (lq + 53 - lp)).
    { rewrite HP in E. apply Z.mul_le_mono_pos_r in E; [exact E | nia]. }
    assert (HD1 : 1 <= lq + 53 - lp).
    { destruct (Z.eq_dec (lq + 53 - lp) 0) as [E0|E0]; [|lia].
      rewrite E0 in Hge. change (2 ^ 0) with 1 in Hge. lia. }
    assert (Hsplit2 : 2 ^ (lq + 53 - lp) = 2 ^ (lq + 52 - lp) * 2).
    { replace (lq + 53 - lp) with (lq + 52 - lp + 1) by lia.
      rewrite Z.pow_add_r by lia. reflexivity. }
    pose proof (Z.pow_pos_nonneg 2 (lq + 52 - lp) ltac:(lia) ltac:(lia)) as HpD2.
    assert (HP2 : k * q * 2 ^ (lq + 53) = (k * 2 ^ (lq + 52 - lp)) * (2 * (q * 2 ^ lp))).
    { rewrite HP, Hsplit2. ring. }
    rewrite HP2, nearest_even_exact by nia.
    destruct (0 <=? lp - lq - 52) eqn:E0;
      [apply Z.leb_le in E0 | apply Z.leb_gt in E0]; cbn [fnum fden].
    + replace (lq + 52 - lp) with 0 by lia. replace (lp - lq - 52) with 0 by lia.
      change (2 ^ 0) with 1. split; lia.
    + replace (- (lp - lq - 52)) with (lq + 52 - lp) by lia. split; [lia | reflexivity].
Qed.

Lemma mul_of_int_bounds x c :
  0 <= x -> 0 <= fnum c -> 0 < fden c ->
  let r := mul (of_int x) c in
  0 < fden r /\ 0 <= fnum r
  /\ (forall p q, 0 <= p -> 0 < q ->
        fnum c * q * ((2 ^ 53 + 1) * (2 ^ 53 + 1)) <= p * fden c * (2 ^ 53 * 2 ^ 53) ->
        q * fnum r <= p * x * fden r)
  /\ (forall p q, 0 <= p -> 0 < q ->
        p * fden c * (2 ^ 53 * 2 ^ 53) <= fnum c * q * ((2 ^ 53 - 1) * (2 ^ 53 - 1)) ->
        p * x * fden r <= q * fnum r).
Proof.
  intros Hx Hc Hd. unfold mul, of_int.
  pose proof (of_rat_bounds x 1 Hx ltac:(lia)) as (Hda & Hna & Hua & Hla).
  remember (of_rat x 1) as a eqn:Ea. clear Ea.
  pose proof (of_rat_bounds (fnum a * fnum c) (fden a * fden c) ltac:(nia) ltac:(nia))
    as (Hdr & Hnr & Hur & Hlr).
  remember (of_rat (fnum a * fnum c) (fden a * fden c)) as r eqn:Er. clear Er.
  cbn zeta. split; [assumption|]. split; [assumption|].
  destruct a as [na da], c as [nc dc], r as [nr dr]; cbn [fnum fden] in *.
  remember (2 ^ 53) as K eqn:EK.
  assert (HK : 1 < K) by (subst K; reflexivity). clear EK.
  split; intros p q Hp Hq Hpq.
  - (* upper *)
    assert (H1 : nr * (da * dc) * K * (q * K) <= na * nc * dr * (K + 1) * (q * K)).
    { apply Z.mul_le_mono_nonneg_r; lia. }
    assert (H2 : na * 1 * K * (nc * dr * (K + 1) * q) <= x * da * (K + 1) * (nc * dr * (K + 1) * q)).
    { apply Z.mul_le_mono_nonneg_r; [|lia].
      repeat apply Z.mul_nonneg_nonneg; lia. }
    assert (H3 : nc * q * ((K + 1) * (K + 1)) * (x * da * dr) <= p * dc * (K * K) * (x * da * dr)).
    { apply Z.mul_le_mono_nonneg_r; [|lia].
      repeat apply Z.mul_nonneg_nonneg; lia. }
    assert (H4 : (q * nr) * (da * dc * (K * K)) <= (p * x * dr) * (da * dc * (K * K))).
    { replace ((q * nr) * (da * dc * (K * K))) with (nr * (da * dc) * K * (q * K)) by ring.
      replace ((p * x * dr) * (da * dc * (K * K))) with (p * dc * (K * K) * (x * da * dr)) by ring.
      replace (na * nc * dr * (K + 1) * (q * K)) with (na * 1 * K * (nc * dr * (K + 1) * q)) in H1 by ring.
      replace (x * da * (K + 1) * (nc * dr * (K + 1) * q))
        with (nc * q * ((K + 1) * (K + 1)) * (x * da * dr)) in H2 by ring.
      lia. }
    apply Z.mul_le_mono_pos_r in H4; [assumption|].
    repeat apply Z.mul_pos_pos; lia.
  - (* lower *)
    assert (H1 : na * nc * dr * (K - 1) * (q * K) <= nr * (da * dc) * K * (q * K)).
    { apply Z.mul_le_mono_nonneg_r; lia. }
    assert (H2 : x * da * (K - 1) * (nc * dr * (K - 1) * q) <= na * 1 * K * (nc * dr * (K - 1) * q)).
    { apply Z.mul_le_mono_nonneg_r; [|lia].
      repeat apply Z.mul_nonneg_nonneg; lia. }
    assert (H3 : p * dc * (K * K) * (x * da * dr) <= nc * q * ((K - 1) * (K - 1)) * (x * da * dr)).
    { apply Z.mul_le_mono_nonneg_r; [|lia].
      repeat apply Z.mul_nonneg_nonneg; lia. }
    assert (H4 : (p * x * dr) * (da * dc * (K * K)) <= (q * nr) * (da * dc * (K * K))).
    { replace ((q * nr) * (da * dc * (K * K))) with (nr * (da * dc) * K * (q * K)) by ring.
      replace ((p * x * dr) * (da * dc * (K * K))) with (p * dc * (K * K) * (x * da * dr)) by ring.
      replace (na * nc * dr * (K - 1) * (q * K)) with (na * 1 * K * (nc * dr * (K - 1) * q)) in H1 by ring.
      replace (x * da * (K - 1) * (nc * dr * (K - 1) * q))
        with (nc * q * ((K - 1) * (K - 1)) * (x * da * dr)) in H2 by ring.
      lia. }
    apply Z.mul_le_mono_pos_r in H4; [assumption|].
    repeat apply Z.mul_pos_pos; lia.
Qed.

Lemma to_int_floor a :
  0 <= fnum a -> 0 < fden a ->
  to_int a * fden a <= fnum a < (to_int a + 1) * fden a.
Proof.
  intros Hn Hd. unfold to_int. rewrite Z.quot_div_nonneg by lia.
  pose proof (Z.div_mod (fnum a) (fden a) ltac:(lia)).
  pose proof (Z.mod_pos_bound (fnum a) (fden a) Hd). nia.
Qed.

(** [int(x * c)] is at most [x] when the factor is at most one and the float
    holds [x] exactly, or the factor is at most 0.999. *)
Lemma scaled_int_small x c :
  0 <= x < 2 ^ 53 -> 0 <= fnum c -> 0 < fden c -> fnum c <= fden c ->
  to_int (mul (of_int x) c) <= x.
Proof.
  intros Hx Hc Hd Hle. unfold mul, of_int.
  assert (Ha : 0 < fden (of_rat x 1) /\ fnum (of_rat x 1) = x * fden (of_rat x 1)).
  { unfold of_rat. destruct (x =? 0) eqn:E0; [apply Z.eqb_eq in E0; subst; cbn; lia|].
    apply Z.eqb_neq in E0. destruct (x <? 0) eqn:E1; [apply Z.ltb_lt in E1; lia|].
    pose proof (round53_exact x 1 ltac:(lia) ltac:(lia)) as H.
    rewrite Z.mul_1_r in H. exact H. }
  destruct Ha as [Hda Hna].
  remember (of_rat x 1) as a eqn:Ea. clear Ea.
  pose proof (of_rat_bounds (fnum a * fnum c) (fden a * fden c) ltac:(nia) ltac:(nia))
    as (Hdr & Hnr & Hur & _).
  remember (of_rat (fnum a * fnum c) (fden a * fden c)) as r eqn:Er. clear Er.
  unfold to_int. rewrite Z.quot_div_nonneg by lia.
  apply Z.lt_succ_r. apply Z.div_lt_upper_bound; [assumption|].
  destruct a as [na da], c as [nc dc], r as [nr dr]; cbn [fnum fden] in *. subst na.
  remember (2 ^ 53) as K eqn:EK.
  assert (HK : 0 < K) by (subst K; reflexivity). clear EK.
  assert (H1 : x * da * nc * dr * (K + 1) <= x * da * dc * dr * (K + 1)).
  { apply Z.mul_le_mono_nonneg_r; [lia|]. apply Z.mul_le_mono_nonneg_r; [lia|].
    apply Z.mul_le_mono_nonneg_l; [nia | assumption]. }
  assert (H2 : nr * K * (da * dc) <= x * dr * (K + 1) * (da * dc)).
  { replace (nr * K * (da * dc)) with (nr * (da * dc) * K) by ring.
    replace (x * dr * (K + 1) * (da * dc)) with (x * da * dc * dr * (K + 1)) by ring.
    lia. }
  apply Z.mul_le_mono_pos_r in H2; [|nia].
  assert (H3 : x * dr < K * dr) by (apply Z.mul_lt_mono_pos_r; lia).
  assert (H4 : nr * K < (dr * Z.succ x) * K) by lia.
  apply Z.mul_lt_mono_pos_r in H4; assumption.
Qed.

Lemma scaled_int_neg x c :
  0 <= x -> fnum c <= 0 -> 0 < fden c -> to_int (mul (of_int x) c) <= 0.
Proof.
  intros Hx Hc Hd. unfold mul, of_int.
  pose proof (of_rat_bounds x 1 Hx ltac:(lia)) as (Hda & Hna & _).
  remember (of_rat x 1) as a eqn:Ea. clear Ea.
  assert (Hp : fnum a * fnum c <= 0) by nia.
  assert (Hq : 0 < fden a * fden c) by nia.
  remember (fnum a * fnum c) as p eqn:Ep. remember (fden a * fden c) as q eqn:Eq.
  clear Ep Eq. unfold of_rat.
  destruct (p =? 0) eqn:E0; [reflexivity|]. apply Z.eqb_neq in E0.
  destruct (p <? 0) eqn:E1; [|apply Z.ltb_ge in E1; lia].
  pose proof (round53_error (- p) q ltac:(lia) Hq) as (Hdr & Hnr & _).
  unfold to_int. cbn [fnum fden].
  apply Z.quot_le_upper_bound; lia.
Qed.

Lemma scaled_int_at_most x c :
  0 <= x -> 0 < fden c -> fnum c <= fden c ->
  x < 2 ^ 53 \/ 1000 * fnum c <= 999 * fden c ->
  to_int (mul (of_int x) c) <= x.
Proof.
  intros Hx Hd Hle Hcase.
  destruct (Z.lt_ge_cases (fnum c) 0) as [Hneg | Hpos].
  - pose proof (scaled_int_neg x c Hx ltac:(lia) Hd). lia.
  - destruct Hcase as [Hsmall | Hratio].
    + apply scaled_int_small; lia.
    + apply scaled_int_bounds; try assumption.
      remember (2 ^ 53) as K eqn:EK.
      assert (HK : 2000 <= K) by (subst K; vm_compute; congruence). clear EK.
      assert (H1 : 999 * ((K + 1) * (K + 1)) <= 1000 * (K * K)) by nia.
      assert (H2 : 1000 * fnum c * ((K + 1) * (K + 1)) <= 999 * fden c * ((K + 1) * (K + 1))).
      { apply Z.mul_le_mono_nonneg_r; nia. }
      assert (H3 : fden c * (999 * ((K + 1) * (K + 1))) <= fden c * (1000 * (K * K))).
      { apply Z.mul_le_mono_nonneg_l; lia. }
      assert (H4 : 1000 * (fnum c * ((K + 1) * (K + 1))) <= 1000 * (fden c * (K * K))) by lia.
      lia.
Qed.

End FloatFacts.

(** ** Strings *)

Module StrFacts.

Lemma startswith_spec p s :
  startswith p s = true <-> exists post, s = p ++ post.
Proof.
  revert s. induction p as [|x p IH]; intros s; simpl.
  - split; [intros _; now exists s | reflexivity].
  - destruct s as [|y s].
    + split; [discriminate | intros [post H]; discriminate].
    + rewrite andb_true_iff, N.eqb_eq, IH. split.
      * intros [-> [post ->]]. now exists post.
      * intros [post H]. injection H as -> ->. split; [reflexivity | now exists post].
Qed.

Lemma contains_spec sub s : contains sub s = true <-> Occurs sub s.
Proof.
  unfold Occurs. induction s as [|c s IH].
  - simpl. rewrite orb_false_r, startswith_spec. split.
    + intros [post H]. exists [], post. exact H.
    + intros [pre [post H]]. destruct pre; [now exists post | discriminate].
  - cbn [contains]. rewrite orb_true_iff, startswith_spec, IH. split.
    + intros [[post H] | [pre [post H]]].
      * exists [], post. exact H.
      * exists (c :: pre), post. simpl. now rewrite H.
    + intros [pre [post H]]. destruct pre as [|c' pre].
      * left. now exists post.
      * right. injection H as _ H. now exists pre, post.
Qed.

Lemma count_from_nonneg sub s skip : 0 <= count_from sub s skip.
Proof.
  revert skip. induction s as [|c s IH]; intros skip; cbn [count_from].
  - destruct sub, skip; lia.
  - destruct skip; [|apply IH].
    destruct (startswith sub (c :: s)).
    + pose proof (IH (Nat.pred (List.length sub))). lia.
    + apply IH.
Qed.

(** [s.count(sub) > 0] says that [sub] occurs in [s]. *)
Lemma count_pos sub s : (0 <? count sub s) = contains sub s.
Proof.
  unfold count. induction s as [|c s IH].
  - simpl. destruct sub; reflexivity.
  - cbn [count_from contains].
    destruct (startswith sub (c :: s)) eqn:E.
    + pose proof (count_from_nonneg sub s (Nat.pred (List.length sub))).
      cbn [orb]. apply Z.ltb_lt. lia.
    + cbn [orb]. exact IH.
Qed.

Lemma eqb_eq a b : PyStr.eqb a b = true <-> a = b.
Proof.
  revert b. induction a as [|x a IH]; intros [|y b]; simpl; try (split; congruence).
  rewrite andb_true_iff, N.eqb_eq, IH. split; [intros [-> ->]; reflexivity | intros H; injection H; auto].
Qed.

Lemma len_nonneg s : 0 <= len s.
Proof. unfold len. lia. Qed.

End StrFacts.

Import StrFacts FloatFacts.

Section Facts.

Context {case_mapping : CaseMapping} {settings : Settings}.

(** ** Token estimator *)

Lemma has_code_spec text : has_code text = true <-> code_like text.
Proof.
  unfold has_code, code_like. rewrite !count_pos, !orb_true_iff, !contains_spec. tauto.
Qed.

Lemma filter_split {A} (f : A -> bool) l :
  (length (filter f l) + length (filter (fun x => negb (f x)) l) = length l)%nat.
Proof.
  induction l as [|x l IH]; simpl; [reflexivity|].
  destruct (f x); simpl; lia.
Qed.

Lemma cjk_div_bounds n :
  0 <= n ->
  let e := to_int (div (of_int n) (of_rat 15 10)) in
  0 <= e /\
  3 * e * (2 ^ 53 * 2 ^ 53) <= 2 * n * ((2 ^ 53 + 1) * (2 ^ 53 + 1)) /\
  2 * n * ((2 ^ 53 - 1) * (2 ^ 53 - 1)) < 3 * (e + 1) * (2 ^ 53 * 2 ^ 53).
Proof.
  intros Hn e. subst e. unfold div, of_int.
  pose proof (of_rat_bounds n 1 Hn ltac:(lia)) as (Hda & Hna & Hua & Hla).
  remember (of_rat n 1) as a eqn:Ea. clear Ea.
  assert (H15 : of_rat 15 10 = mk 6755399441055744 4503599627370496) by (vm_compute; reflexivity).
  rewrite H15. cbn [fnum fden].
  pose proof (of_rat_bounds (fnum a * 4503599627370496) (fden a * 6755399441055744)
                ltac:(lia) ltac:(lia)) as (Hdr & Hnr & Hur & Hlr).
  remember (of_rat (fnum a * 4503599627370496) (fden a * 6755399441055744)) as r eqn:Er.
  clear Er.
  unfold to_int. rewrite Z.quot_div_nonneg by lia.
  pose proof (Z.div_mod (fnum r) (fden r) ltac:(lia)) as Hdm.
  pose proof (Z.mod_pos_bound (fnum r) (fden r) Hdr) as Hmod.
  pose proof (Z.div_pos (fnum r) (fden r) Hnr Hdr) as Hq.
  remember (fnum r / fden r) as e eqn:Ee. clear Ee.
  remember (fnum r mod fden r) as m eqn:Em. clear Em.
  destruct a as [na da], r as [nr dr]; cbn [fnum fden] in *.
  change 6755399441055744 with (3 * 2251799813685248) in *.
  change 4503599627370496 with (2 * 2251799813685248) in *.
  remember 2251799813685248 as c eqn:Ec.
  assert (Hc : 0 < c) by (subst c; reflexivity). clear Ec.
  remember (2 ^ 53) as K eqn:EK.
  assert (HK : 1 < K) by (subst K; reflexivity). clear EK.
  split; [exact Hq|].
  (* Hur : nr * (da * (3c)) * K <= na * (2c) * dr * (K+1) ; Hua : na * 1 * K <= n * da * (K+1) *)
  assert (Hur' : 3 * nr * da * K <= 2 * na * dr * (K + 1)).
  { apply Z.mul_le_mono_pos_r with (p := c); [assumption|].
    replace (3 * nr * da * K * c) with (nr * (da * (3 * c)) * K) by ring.
    replace (2 * na * dr * (K + 1) * c) with (na * (2 * c) * dr * (K + 1)) by ring.
    exact Hur. }
  assert (Hlr' : 2 * na * dr * (K - 1) <= 3 * nr * da * K).
  { apply Z.mul_le_mono_pos_r with (p := c); [assumption|].
    replace (3 * nr * da * K * c) with (nr * (da * (3 * c)) * K) by ring.
    replace (2 * na * dr * (K - 1) * c) with (na * (2 * c) * dr * (K - 1)) by ring.
    exact Hlr. }
  clear Hur Hlr.
  split.
  - apply Z.mul_le_mono_pos_r with (p := da * dr); [nia|].
    apply Z.le_trans with (3 * nr * da * K * K).
    + replace (3 * e * (K * K) * (da * dr)) with (3 * (dr * e) * da * K * K) by ring.
      apply Z.mul_le_mono_nonneg_r; [lia|].
      apply Z.mul_le_mono_nonneg_r; [lia|]. nia.
    + apply Z.le_trans with (2 * na * dr * (K + 1) * K).
      * apply Z.mul_le_mono_nonneg_r; lia.
      * replace (2 * na * dr * (K + 1) * K) with ((na * 1 * K) * (2 * dr * (K + 1))) by ring.
        replace (2 * n * ((K + 1) * (K + 1)) * (da * dr))
          with ((n * da * (K + 1)) * (2 * dr * (K + 1))) by ring.
        apply Z.mul_le_mono_nonneg_r; [nia | lia].
  - apply Z.mul_lt_mono_pos_r with (p := da * dr); [nia|].
    apply Z.le_lt_trans with (3 * nr * da * K * K).
    + apply Z.le_trans with (2 * na * dr * (K - 1) * K).
      * replace (2 * n * ((K - 1) * (K - 1)) * (da * dr))
          with ((n * da * (K - 1)) * (2 * dr * (K - 1))) by ring.
        replace (2 * na * dr * (K - 1) * K) with ((na * 1 * K) * (2 * dr * (K - 1))) by ring.
        apply Z.mul_le_mono_nonneg_r; [nia | lia].
      * apply Z.mul_le_mono_nonneg_r; lia.
    + replace (3 * (e + 1) * (K * K) * (da * dr)) with (3 * (dr * (e + 1)) * da * K * K) by ring.
      apply Z.mul_lt_mono_pos_r; [lia|].
      apply Z.mul_lt_mono_pos_r; [lia|]. nia.
Qed.

(** Below 2^52 characters [int(n / 1.5)] is the floor of [2n/3]. *)
Lemma cjk_div_exact n :
  0 <= n < 2 ^ 52 ->
  to_int (div (of_int n) (of_rat 15 10)) = 2 * n / 3.
Proof.
  intros Hn.
  assert (H15 : of_rat 15 10 = mk 6755399441055744 4503599627370496) by (vm_compute; reflexivity).
  rewrite H15. unfold div, of_int. cbn [fnum fden].
  destruct (Z.eq_dec n 0) as [->|Hn0]; [reflexivity|].
  assert (Ha : 0 < fden (of_rat n 1) /\ fnum (of_rat n 1) = n * fden (of_rat n 1)).
  { unfold of_rat. destruct (n =? 0) eqn:E; [apply Z.eqb_eq in E; lia|].
    destruct (n <? 0) eqn:E1; [apply Z.ltb_lt in E1; lia|].
    pose proof (round53_exact n 1 ltac:(change (2 ^ 53) with (2 * 2 ^ 52); lia) ltac:(lia))
      as Hx.
    rewrite Z.mul_1_r in Hx. exact Hx. }
  destruct Ha as [Hda Hna]. rewrite Hna.
  remember (fden (of_rat n 1)) as da eqn:Eda. clear Eda Hna.
  change 6755399441055744 with (3 * 2251799813685248).
  change 4503599627370496 with (2 * 2251799813685248).
  remember 2251799813685248 as c eqn:Ec.
  assert (Hc : 0 < c) by (subst c; reflexivity). clear Ec.
  pose proof (Z.div_mod (2 * n) 3 ltac:(lia)) as Hdm.
  pose proof (Z.mod_pos_bound (2 * n) 3 ltac:(lia)) as Hmod.
  remember (2 * n / 3) as j eqn:Ej. remember ((2 * n) mod 3) as f eqn:Ef. clear Ej Ef.
  destruct (Z.eq_dec f 0) as [Hf|Hf].
  - (* the quotient is an integer *)
    assert (Hj : 0 < j < 2 ^ 53) by lia.
    pose proof (round53_exact j (da * (3 * c)) Hj ltac:(nia)) as [Hd Hx].
    replace (n * da * (2 * c)) with (j * (da * (3 * c))) by nia.
    unfold of_rat.
    destruct (j * (da * (3 * c)) =? 0) eqn:E; [apply Z.eqb_eq in E; nia|].
    destruct (j * (da * (3 * c)) <? 0) eqn:E1; [apply Z.ltb_lt in E1; nia|].
    unfold to_int. rewrite Hx. apply Z.quot_mul. lia.
  - pose proof (of_rat_bounds (n * da * (2 * c)) (da * (3 * c)) ltac:(nia) ltac:(nia))
      as (Hdr & Hnr & Hur & Hlr).
    remember (of_rat (n * da * (2 * c)) (da * (3 * c))) as r eqn:Er. clear Er.
    destruct r as [nr dr]; cbn [fnum fden] in *.
    unfold to_int; cbn [fnum fden]. rewrite Z.quot_div_nonneg by lia.
    remember (2 ^ 53) as K eqn:EK.
    assert (HK : K = 2 * 2 ^ 52) by (subst K; reflexivity).
    assert (Hur' : 3 * nr * K <= 2 * n * dr * (K + 1)).
    { apply Z.mul_le_mono_pos_r with (p := da * c); [nia|].
      replace (3 * nr * K * (da * c)) with (nr * (da * (3 * c)) * K) by ring.
      replace (2 * n * dr * (K + 1) * (da * c)) with (n * da * (2 * c) * dr * (K + 1)) by ring.
      exact Hur. }
    assert (Hlr' : 2 * n * dr * (K - 1) <= 3 * nr * K).
    { apply Z.mul_le_mono_pos_r with (p := da * c); [nia|].
      replace (3 * nr * K * (da * c)) with (nr * (da * (3 * c)) * K) by ring.
      replace (2 * n * dr * (K - 1) * (da * c)) with (n * da * (2 * c) * dr * (K - 1)) by ring.
      exact Hlr. }
    clear Hur Hlr.
    assert (H2n : 2 * n < K) by lia.
    assert (Hup : 3 * nr < (2 * n + 1) * dr).
    { apply Z.mul_lt_mono_pos_r with (p := K); [lia|]. nia. }
    assert (Hlo : (2 * n - 1) * dr < 3 * nr).
    { apply Z.mul_lt_mono_pos_r with (p := K); [lia|]. nia. }
    symmetry. apply Z.div_unique with (r := nr - dr * j); nia.
Qed.

Lemma estimate_tokens_nonneg text : 0 <= estimate_tokens text.
Proof.
  unfold estimate_tokens. pose proof (len_nonneg text).
  destruct (negb (truthy text)); [lia|].
  destruct (has_code text); [apply Z.div_pos; lia|].
  destruct (_ <? _); [|apply Z.div_pos; lia].
  apply (cjk_div_bounds (len text)); assumption.
Qed.

(** C8: for every text the estimator returns a non-negative integer (the
    same for the same text, with no state involved: it is a function); the
    empty text costs 0; a text in which a code fence, [def ] or [class ]
    occurs costs one token per 3 characters; any other text with more CJK
    than other characters costs one token per 1.5 characters, that is
    [2 * len / 3] rounded down for a text of fewer than 2^52 characters and
    within the two roundings of the floating-point division of that value
    for any length; every other text costs one token per 4 characters. *)
Theorem estimate_tokens_contract (text : pystr) :
  0 <= estimate_tokens text
  /\ estimate_tokens [] = 0
  /\ (code_like text -> estimate_tokens text = len text / 3)
  /\ (~ code_like text -> cjk_dominant text ->
      3 * estimate_tokens text * 2 ^ 106 <= 2 * len text * (2 ^ 53 + 1) ^ 2
      /\ 2 * len text * (2 ^ 53 - 1) ^ 2 < 3 * (estimate_tokens text + 1) * 2 ^ 106
      /\ (len text < 2 ^ 52 -> estimate_tokens text = 2 * len text / 3))
  /\ (~ code_like text -> ~ cjk_dominant text -> estimate_tokens text = len text / 4).
Proof.
  split; [apply estimate_tokens_nonneg|].
  split; [reflexivity|].
  assert (Hdom : (len text - Z.of_nat (length (filter is_chinese text))
                  <? Z.of_nat (length (filter is_chinese text))) = true
                 <-> cjk_dominant text).
  { unfold cjk_dominant, len. pose proof (filter_split is_chinese text).
    rewrite Z.ltb_lt. lia. }
  pose proof (has_code_spec text) as Hcode.
  pose proof (cjk_div_bounds (len text) (len_nonneg text)) as (_ & Hu & Hl).
  pose proof (cjk_div_exact (len text)) as Hex.
  pose proof (len_nonneg text) as Hlen.
  unfold estimate_tokens.
  destruct text as [|c text].
  { split; [intros _; reflexivity|].
    split; [intros _ Hd; inversion Hd | intros _ _; reflexivity]. }
  cbn [truthy negb]. remember (c :: text) as t eqn:Et. clear Et.
  destruct (has_code t).
  - assert (Hyes : code_like t) by (apply Hcode; reflexivity).
    split; [intros _; reflexivity|].
    split; intros Hno; contradiction.
  - assert (Hno : ~ code_like t) by (intros H; apply Hcode in H; discriminate).
    destruct (len t - _ <? _).
    + assert (Hd : cjk_dominant t) by (apply Hdom; reflexivity).
      split; [intros; contradiction|].
      split; [intros _ _; split; [|split] | intros; contradiction].
      * replace (2 ^ 106) with (2 ^ 53 * 2 ^ 53) by reflexivity.
        replace ((2 ^ 53 + 1) ^ 2) with ((2 ^ 53 + 1) * (2 ^ 53 + 1)) by reflexivity.
        exact Hu.
      * replace (2 ^ 106) with (2 ^ 53 * 2 ^ 53) by reflexivity.
        replace ((2 ^ 53 - 1) ^ 2) with ((2 ^ 53 - 1) * (2 ^ 53 - 1)) by reflexivity.
        exact Hl.
      * intros Hshort. apply Hex. lia.
    + assert (Hd : ~ cjk_dominant t) by (intros H; apply Hdom in H; discriminate).
      split; [intros; contradiction|].
      split; [intros; contradiction | intros _ _; reflexivity].
Qed.

(** ** Truncation *)

Lemma total_tokens_app l1 l2 :
  total_tokens (l1 ++ l2) = total_tokens l1 + total_tokens l2.
Proof. induction l1 as [|m l1 IH]; simpl; [reflexivity | rewrite IH; lia]. Qed.

Lemma total_tokens_nonneg l : 0 <= total_tokens l.
Proof.
  induction l as [|m l IH]; simpl; [lia|].
  pose proof (estimate_tokens_nonneg (msg_content m)). lia.
Qed.

(** What one pass of [add_messages_if_fits] keeps true: the running total is
    the cost of the accepted messages, it never decreases, and it exceeds the
    pass's limit only if it did so before the pass. *)
Lemma add_messages_if_fits_inv msg_list limit current acc :
  let r := add_messages_if_fits msg_list limit (current, acc) in
  total_tokens (snd r) - total_tokens acc = fst r - current
  /\ current <= fst r
  /\ (fst r = current \/ fst r <= limit).
Proof.
  revert current acc. induction msg_list as [|m rest IH]; intros current acc; cbn zeta.
  - simpl. lia.
  - cbn [add_messages_if_fits].
    set (step :=
      if int_gt (estimate_tokens (msg_content m)) (mul (of_int limit) (of_rat 8 10))
      then _ else _).
    assert (Hstep : estimate_tokens (msg_content (fst step)) = snd step).
    { subst step. destruct (int_gt _ _); reflexivity. }
    destruct step as [m' t]. cbn [fst snd] in Hstep.
    destruct (current + t <=? limit) eqn:E; [apply Z.leb_le in E | simpl; lia].
    specialize (IH (current + t) (acc ++ [m'])).
    cbn zeta in IH. destruct IH as (H1 & H2 & H3).
    rewrite total_tokens_app in H1. simpl in H1. rewrite Hstep in H1.
    pose proof (estimate_tokens_nonneg (msg_content m')). rewrite Hstep in H.
    lia.
Qed.

Lemma select_messages_target messages max_tokens :
  total_tokens (snd (select_messages messages max_tokens))
  <= Z.max 0 (to_int (mul (of_int max_tokens) TRUNCATION_RATIO)).
Proof.
  unfold select_messages.
  set (target := to_int (mul (of_int max_tokens) TRUNCATION_RATIO)) in *.
  pose proof (add_messages_if_fits_inv (filter (is_class SystemClass) messages) target 0 [])
    as (A1 & A2 & A3).
  cbn zeta in *.
  destruct (add_messages_if_fits (filter (is_class SystemClass) messages) target (0, []))
    as [c1 l1] eqn:E1.
  cbn [fst snd] in *.
  pose proof (add_messages_if_fits_inv (filter (is_class TaskClass) messages)
                (target - c1) c1 l1) as (B1 & B2 & B3).
  cbn zeta in *.
  destruct (add_messages_if_fits (filter (is_class TaskClass) messages) (target - c1) (c1, l1))
    as [c2 l2] eqn:E2.
  cbn [fst snd] in *.
  pose proof (add_messages_if_fits_inv (rev (filter (is_class OtherClass) messages))
                (target - c2) c2 l2) as (C1 & C2 & C3).
  cbn zeta in *.
  destruct (add_messages_if_fits (rev (filter (is_class OtherClass) messages)) (target - c2) (c2, l2))
    as [c3 l3] eqn:E3.
  cbn [fst snd] in *. simpl in A1. lia.
Qed.

Lemma insert_by_perm key x l : Permutation (x :: l) (insert_by key x l).
Proof.
  induction l as [|y l IH]; simpl; [apply Permutation_refl|].
  destruct (key x <=? key y)%nat; [apply Permutation_refl|].
  eapply perm_trans; [apply perm_swap | apply perm_skip, IH].
Qed.

Lemma sort_by_perm key l : Permutation l (sort_by key l).
Proof.
  induction l as [|x l IH]; simpl; [constructor|].
  eapply perm_trans; [apply perm_skip, IH | apply insert_by_perm].
Qed.

Lemma total_tokens_perm l1 l2 : Permutation l1 l2 -> total_tokens l1 = total_tokens l2.
Proof. induction 1; simpl; lia. Qed.



(** C2: a message list whose estimated cost is within the budget is returned
    unchanged, so truncating it a second time with the same budget changes
    nothing. *)
Theorem truncate_context_idempotent (messages : list msg) (budget : Z) :
  total_tokens messages <= budget ->
  truncate_context messages (Some budget) = messages
  /\ truncate_context (truncate_context messages (Some budget)) (Some budget)
     = truncate_context messages (Some budget).
Proof.
  intros H.
  assert (E : truncate_context messages (Some budget) = messages).
  { unfold truncate_context. destruct messages; [reflexivity|].
    apply Z.leb_le in H. now rewrite H. }
  now rewrite !E.
Qed.

(** With a ratio that fits, the target is at most the budget. *)
Lemma target_at_most_budget budget :
  0 <= budget -> ratio_fits budget ->
  to_int (mul (of_int budget) TRUNCATION_RATIO) <= budget.
Proof.
  intros Hb (Hd & Hle & Hcase). apply scaled_int_at_most; assumption.
Qed.

Lemma truncate_context_cost messages budget :
  0 <= budget -> ratio_fits budget ->
  total_tokens (truncate_context messages (Some budget)) <= budget.
Proof.
  intros Hb Hr. unfold truncate_context.
  destruct messages as [|m l]; [simpl; lia|].
  destruct (total_tokens (m :: l) <=? budget) eqn:E; [now apply Z.leb_le in E|].
  rewrite <- (total_tokens_perm _ _ (sort_by_perm _ _)).
  pose proof (select_messages_target (m :: l) budget).
  pose proof (target_at_most_budget budget Hb Hr). lia.
Qed.

(** C1, as the code has it: the ratio is a setting read from the environment.
    When it is at most one (and at most 0.999 for a budget of 2^53 or more,
    which a float does not hold exactly), then for every message list and
    every budget that is at least the estimated cost of the list's smallest
    message, the estimated cost of the truncated list does not exceed the
    budget.  Messages cut individually count with their cut content. *)
Theorem truncate_context_budget (messages : list msg) (budget : Z) (smallest : msg) :
  In smallest messages ->
  (forall m, In m messages ->
     estimate_tokens (msg_content smallest) <= estimate_tokens (msg_content m)) ->
  estimate_tokens (msg_content smallest) <= budget ->
  ratio_fits budget ->
  total_tokens (truncate_context messages (Some budget)) <= budget.
Proof.
  intros _ _ H Hr. apply truncate_context_cost; [|exact Hr].
  pose proof (estimate_tokens_nonneg (msg_content smallest)). lia.
Qed.



Lemma sort_key_le messages x : (sort_key messages x <= length messages)%nat.
Proof.
  induction messages as [|y l IH]; simpl; [lia|]. destruct (msg_eqb y x); lia.
Qed.






(** ** Planner and human feedback *)

Section NodeFacts.

Variable repair_json_output : pystr -> pystr.

Variable json_loads : pystr -> option json.

Variable model_validate : json -> option Plan.

Lemma ascii_upper_is_ascii p : is_ascii (ascii_upper p) = true -> is_ascii p = true.
Proof.
  induction p as [|c p IH]; [reflexivity|]. cbn [ascii_upper map is_ascii forallb].
  intros H. apply andb_prop in H. destruct H as [Hc Hp].
  apply andb_true_intro. split; [|apply IH; exact Hp].
  unfold upper_char in Hc.
  destruct ((97 <=? c) && (c <=? 122))%N eqn:E; [|exact Hc].
  apply andb_prop in E. destruct E as [_ E]. apply N.leb_le in E. apply N.ltb_lt. lia.
Qed.

(** A text that starts, in any ASCII casing, with a directive has an
    upper-cased text that starts with the directive. *)
Lemma upper_prefix directive p rest :
  is_ascii directive = true -> ascii_upper p = directive ->
  startswith directive (upper (p ++ rest)) = true.
Proof.
  intros Ha Hp. apply startswith_spec. exists (upper rest).
  rewrite upper_app, upper_ascii, Hp; [reflexivity|].
  apply ascii_upper_is_ascii. rewrite Hp. exact Ha.
Qed.

Lemma upper_empty : upper [] = [].
Proof. rewrite upper_ascii; reflexivity. Qed.

(** C5: when the run is not configured to accept plans automatically, the
    decision is read off the upper-cased feedback ([str.upper], so in any
    casing of the directive).  If it starts with [[EDIT_PLAN]] the node
    returns the command that routes to the planner and appends the feedback
    as a human message named [feedback].  If it starts with [[ACCEPTED]] the
    plan is accepted: the stored plan text is repaired and parsed, and with a
    parsed plan that validates the node returns the validated plan, the
    iteration count plus one and the plan's locale, routing to the reporter
    when [has_enough_context] is truthy and to the research team otherwise;
    when the text does not parse it routes to the reporter without an update
    (the count being non-negative).  Every other decision, the empty one
    included, raises the [TypeError] that names the feedback, so no command
    is returned and the state is left as it is. *)
Theorem human_feedback_decision (state : State) (feedback : pystr) :
  auto_accepted_plan state = false ->
  (startswith (lit "[EDIT_PLAN]") (upper feedback) = true ->
     human_feedback_node repair_json_output json_loads model_validate state feedback
     = Return (mkCommand planner [mklc HumanMessage feedback (Some (lit "feedback"))]
                 None None None None)
     /\ messages
          (apply_command state
             (mkCommand planner [mklc HumanMessage feedback (Some (lit "feedback"))]
                None None None None))
        = messages state ++ [ObjMsg (mklc HumanMessage feedback (Some (lit "feedback")))])
  /\ (startswith (lit "[EDIT_PLAN]") (upper feedback) = false ->
      startswith (lit "[ACCEPTED]") (upper feedback) = true ->
      forall text,
        current_plan state = RawPlan text ->
        (forall items v p l,
           json_loads (repair_json_output text) = Some (JDict items) ->
           assoc (lit "has_enough_context") items = Some v ->
           model_validate (JDict items) = Some p ->
           assoc (lit "locale") items = Some l ->
           human_feedback_node repair_json_output json_loads model_validate state feedback
           = Return (mkCommand (if json_truthy v then reporter else research_team) []
                       (Some (ValidPlan p)) (Some (plan_iterations state + 1)) (Some l)
                       None))
        /\ (json_loads (repair_json_output text) = None ->
            0 <= plan_iterations state ->
            human_feedback_node repair_json_output json_loads model_validate state feedback
            = Return (mkCommand reporter [] None None None None)))
  /\ (startswith (lit "[EDIT_PLAN]") (upper feedback) = false ->
      startswith (lit "[ACCEPTED]") (upper feedback) = false ->
      human_feedback_node repair_json_output json_loads model_validate state feedback
      = Raise (TypeError (lit "Interrupt value of " ++ feedback
                          ++ lit " is not supported.")))
  /\ human_feedback_node repair_json_output json_loads model_validate state []
     = Raise (TypeError (lit "Interrupt value of " ++ lit " is not supported."))
  /\ (forall p rest,
        ascii_upper p = lit "[EDIT_PLAN]" ->
        startswith (lit "[EDIT_PLAN]") (upper (p ++ rest)) = true)
  /\ (forall p rest,
        ascii_upper p = lit "[ACCEPTED]" ->
        startswith (lit "[EDIT_PLAN]") (upper (p ++ rest)) = false
        /\ startswith (lit "[ACCEPTED]") (upper (p ++ rest)) = true).
Proof.
  intros Hauto. unfold human_feedback_node. rewrite Hauto. cbn [negb].
  split; [|split; [|split; [|split; [|split]]]].
  - intros H. rewrite H.
    destruct feedback as [|c f]; [rewrite upper_empty in H; discriminate H|].
    cbn [truthy andb]. split; reflexivity.
  - intros H1 H2 text Hplan. rewrite H1, H2, andb_false_r.
    destruct feedback as [|c f]; [rewrite upper_empty in H2; discriminate H2|].
    cbn [truthy andb]. unfold accept_plan. rewrite Hplan. split.
    + intros items v p l Hparse Hv Hp Hl. rewrite Hparse, Hv, Hp, Hl. reflexivity.
    + intros Hparse Hpos. rewrite Hparse.
      assert (E : (0 <? plan_iterations state + 1) = true) by (apply Z.ltb_lt; lia).
      rewrite E. reflexivity.
  - intros H1 H2. rewrite H1, H2, !andb_false_r. reflexivity.
  - reflexivity.
  - intros p rest Hp. apply upper_prefix; [reflexivity | exact Hp].
  - intros p rest Hp.
    assert (E : upper (p ++ rest) = lit "[ACCEPTED]" ++ upper rest).
    { rewrite upper_app, upper_ascii, Hp; [reflexivity|].
      apply ascii_upper_is_ascii. rewrite Hp. reflexivity. }
    rewrite E. split; reflexivity.
Qed.

(** C6: on the first planner pass ([plan_iterations] is 0, below the
    configured maximum), when the parsed answer has a true
    [has_enough_context] and validates as a plan, the planner routes to the
    reporter with the validated plan as [current_plan], and the command
    does not touch [plan_iterations], which stays 0. *)
Theorem planner_enough_context (state : State) (max_plan_iterations : Z)
    (full_response : pystr) (items : list (pystr * json)) (v : json) (p : Plan) :
  plan_iterations state = 0 ->
  0 < max_plan_iterations ->
  json_loads (repair_json_output full_response) = Some (JDict items) ->
  assoc (lit "has_enough_context") items = Some v ->
  json_truthy v = true ->
  model_validate (JDict items) = Some p ->
  exists c,
    planner_node repair_json_output json_loads model_validate state max_plan_iterations
      full_response = Return c
    /\ goto c = reporter
    /\ current_plan (apply_command state c) = ValidPlan p
    /\ update_plan_iterations c = None
    /\ plan_iterations (apply_command state c) = 0.
Proof.
  intros Hit Hmax Hload Hget Htrue Hval. unfold planner_node. rewrite Hit.
  destruct (max_plan_iterations <=? 0) eqn:E; [apply Z.leb_le in E; lia|].
  rewrite Hload, Hget, Htrue, Hval.
  eexists. split; [reflexivity|]. cbn. auto.
Qed.

End NodeFacts.

(** ** Step executor *)

Lemma find_step_spec steps acc :
  match find_step steps acc with
  | (completed, Some (current, later)) =>
      exists passed,
        completed = acc ++ passed /\ steps = passed ++ current :: later
        /\ Forall executed passed /\ unexecuted current = true
  | (completed, None) => completed = acc ++ steps /\ Forall executed steps
  end.
Proof.
  revert acc. induction steps as [|s rest IH]; intros acc; cbn [find_step].
  - split; [now rewrite app_nil_r | constructor].
  - destruct (unexecuted s) eqn:E.
    + exists []. rewrite app_nil_r. repeat split; auto.
    + specialize (IH (acc ++ [s])).
      destruct (find_step rest (acc ++ [s])) as [completed [[current later]|]].
      * destruct IH as (passed & -> & -> & Hf & Hu).
        exists (s :: passed). rewrite <- app_assoc. repeat split; auto.
      * destruct IH as [-> Hf]. rewrite <- app_assoc. split; [reflexivity|].
        constructor; assumption.
Qed.

Section RetryLoop.

Variable agent : agent_handle.

Variable limit : Z.

Variable current_step : Step.

Lemma retry_loop_return fuel retry_count input log result :
  retry_count < max_retries ->
  agent (length log) input limit = AgentReturn result ->
  retry_loop agent limit current_step (S fuel) retry_count input log
  = (Got result, log ++ [input]).
Proof.
  intros Hlt Hcall. cbn [retry_loop].
  apply Z.ltb_lt in Hlt. rewrite Hlt, Hcall. reflexivity.
Qed.

Lemma retry_loop_retry fuel retry_count input log e :
  retry_count + 1 < max_retries -> 0 <= retry_count ->
  agent (length log) input limit = AgentRaise e ->
  is_context_error e = true ->
  retry_loop agent limit current_step (S fuel) retry_count input log
  = retry_loop agent limit current_step fuel (retry_count + 1)
      (shrink_input (retry_count + 1) input) (log ++ [input]).
Proof.
  intros Hlt H0 Hcall Hctx. cbn [retry_loop].
  assert (H1 : (retry_count <? max_retries) = true) by (apply Z.ltb_lt; lia).
  apply Z.ltb_lt in Hlt. rewrite H1, Hcall, Hctx, Hlt. reflexivity.
Qed.

Lemma retry_loop_final fuel retry_count input log e :
  retry_count + 1 = max_retries ->
  agent (length log) input limit = AgentRaise e ->
  is_context_error e = true ->
  retry_loop agent limit current_step (S fuel) retry_count input log
  = match agent (length (log ++ [input])) [human (minimal_content current_step)] limit with
    | AgentReturn result =>
        (Got result, (log ++ [input]) ++ [[human (minimal_content current_step)]])
    | AgentRaise _ =>
        (Got [placeholder current_step],
         (log ++ [input]) ++ [[human (minimal_content current_step)]])
    | AgentRaiseBase e' =>
        (Uncaught e', (log ++ [input]) ++ [[human (minimal_content current_step)]])
    end.
Proof.
  intros Heq Hcall Hctx. cbn [retry_loop].
  assert (H1 : (retry_count <? max_retries) = true) by (apply Z.ltb_lt; lia).
  assert (H2 : (retry_count + 1 <? max_retries) = false) by (apply Z.ltb_ge; lia).
  rewrite H1, Hcall, Hctx, H2. reflexivity.
Qed.

Lemma retry_loop_other fuel retry_count input log e :
  retry_count < max_retries ->
  agent (length log) input limit = AgentRaise e ->
  is_context_error e = false ->
  retry_loop agent limit current_step (S fuel) retry_count input log
  = (Failed e, log ++ [input]).
Proof.
  intros Hlt Hcall Hctx. cbn [retry_loop].
  apply Z.ltb_lt in Hlt. rewrite Hlt, Hcall, Hctx. reflexivity.
Qed.


Lemma retry_loop_base fuel retry_count input log e :
  retry_count < max_retries ->
  agent (length log) input limit = AgentRaiseBase e ->
  retry_loop agent limit current_step (S fuel) retry_count input log
  = (Uncaught e, log ++ [input]).
Proof.
  intros Hlt Hcall. cbn [retry_loop].
  apply Z.ltb_lt in Hlt. rewrite Hlt, Hcall. reflexivity.
Qed.

(** The loop never runs out of fuel and never falls through: it ends with
    a result or with an exception of the agent. *)
Lemma retry_loop_ends fuel retry_count input log :
  0 <= retry_count < max_retries ->
  (Z.to_nat (max_retries - retry_count) <= fuel)%nat ->
  let r := retry_loop agent limit current_step fuel retry_count input log in
  (exists result, fst r = Got result) \/ (exists e, fst r = Failed e)
  \/ (exists e, fst r = Uncaught e).
Proof.
  revert retry_count input log.
  induction fuel as [|fuel IH]; intros retry_count input log Hrc Hfuel; [lia|].
  cbn zeta. cbn [retry_loop].
  assert (H1 : (retry_count <? max_retries) = true) by (apply Z.ltb_lt; lia).
  rewrite H1.
  destruct (agent (length log) input limit) as [result|e|e];
    [left; eexists; reflexivity | | right; right; eexists; reflexivity].
  destruct (is_context_error e); [|right; left; eexists; reflexivity].
  destruct (retry_count + 1 <? max_retries) eqn:E.
  - apply Z.ltb_lt in E. apply IH; lia.
  - destruct (agent _ _ _);
      [left; eexists; reflexivity | left; eexists; reflexivity
       | right; right; eexists; reflexivity].
Qed.

(** The first [k] invocations of the run overflow: the loop reaches
    invocation [k] with the input of that attempt. *)
Lemma retry_loop_reaches k input :
  (k <= 2)%nat ->
  overflows_on agent limit current_step input k ->
  retry_loop agent limit current_step (Z.to_nat max_retries) 0 input []
  = retry_loop agent limit current_step (3 - k) (Z.of_nat k)
      (attempt_input current_step input k) (attempts current_step input k).
Proof.
  intros Hk Hover. change (Z.to_nat max_retries) with 3%nat.
  destruct k as [|[|[|k]]]; [reflexivity | | | lia].
  - destruct (Hover 0%nat ltac:(lia)) as (e0 & C0 & X0). cbn [attempt_input] in C0.
    rewrite (retry_loop_retry _ _ _ _ e0) by (try assumption; unfold max_retries; lia).
    reflexivity.
  - destruct (Hover 0%nat ltac:(lia)) as (e0 & C0 & X0). cbn [attempt_input] in C0.
    rewrite (retry_loop_retry _ _ _ _ e0) by (try assumption; unfold max_retries; lia).
    destruct (Hover 1%nat ltac:(lia)) as (e1 & C1 & X1). cbn [attempt_input] in C1.
    rewrite (retry_loop_retry _ _ _ _ e1) by (try assumption; unfold max_retries; lia).
    reflexivity.
Qed.

(** After three overflows the loop makes the minimal-content attempt. *)
Lemma retry_loop_last input :
  overflows_on agent limit current_step input 3 ->
  retry_loop agent limit current_step (Z.to_nat max_retries) 0 input []
  = match agent 3%nat [human (minimal_content current_step)] limit with
    | AgentReturn result => (Got result, attempts current_step input 4)
    | AgentRaise _ => (Got [placeholder current_step], attempts current_step input 4)
    | AgentRaiseBase e => (Uncaught e, attempts current_step input 4)
    end.
Proof.
  intros Hover.
  rewrite (retry_loop_reaches 2 input) by (try lia; intros i Hi; apply Hover; lia).
  cbn [Nat.sub].
  destruct (Hover 2%nat ltac:(lia)) as (e2 & C2 & X2).
  rewrite (retry_loop_final _ _ _ _ e2) by (try assumption; reflexivity).
  reflexivity.
Qed.

Lemma retry_loop_succeeds k input results :
  (k <= 3)%nat ->
  overflows_on agent limit current_step input k ->
  agent k (attempt_input current_step input k) limit = AgentReturn results ->
  retry_loop agent limit current_step (Z.to_nat max_retries) 0 input []
  = (Got results, attempts current_step input (S k)).
Proof.
  intros Hk Hover Hret.
  destruct (Nat.eq_dec k 3) as [-> | Hne].
  - rewrite (retry_loop_last input Hover). cbn [attempt_input] in Hret.
    rewrite Hret. reflexivity.
  - rewrite (retry_loop_reaches k input) by (try assumption; lia).
    destruct k as [|[|[|k]]]; try lia; cbn [Nat.sub];
      (rewrite (retry_loop_return _ _ _ _ results); [reflexivity | reflexivity | exact Hret]).
Qed.

Lemma retry_loop_degrades input e :
  overflows_on agent limit current_step input 3 ->
  agent 3%nat [human (minimal_content current_step)] limit = AgentRaise e ->
  retry_loop agent limit current_step (Z.to_nat max_retries) 0 input []
  = (Got [placeholder current_step], attempts current_step input 4).
Proof.
  intros Hover Hlast. rewrite (retry_loop_last input Hover), Hlast. reflexivity.
Qed.


Lemma retry_loop_raises k input e :
  (k <= 2)%nat ->
  overflows_on agent limit current_step input k ->
  agent k (attempt_input current_step input k) limit = AgentRaise e ->
  is_context_error e = false ->
  retry_loop agent limit current_step (Z.to_nat max_retries) 0 input []
  = (Failed e, attempts current_step input (S k)).
Proof.
  intros Hk Hover Hraise Hctx.
  rewrite (retry_loop_reaches k input) by assumption.
  destruct k as [|[|[|k]]]; try lia; cbn [Nat.sub];
    (rewrite (retry_loop_other _ _ _ _ e);
     [reflexivity | reflexivity | exact Hraise | exact Hctx]).
Qed.

Lemma retry_loop_uncaught k input e :
  (k <= 3)%nat ->
  overflows_on agent limit current_step input k ->
  agent k (attempt_input current_step input k) limit = AgentRaiseBase e ->
  retry_loop agent limit current_step (Z.to_nat max_retries) 0 input []
  = (Uncaught e, attempts current_step input (S k)).
Proof.
  intros Hk Hover Hraise.
  destruct (Nat.eq_dec k 3) as [-> | Hne].
  - rewrite (retry_loop_last input Hover). cbn [attempt_input] in Hraise.
    rewrite Hraise. reflexivity.
  - rewrite (retry_loop_reaches k input) by (try assumption; lia).
    destruct k as [|[|[|k]]]; try lia; cbn [Nat.sub];
      (rewrite (retry_loop_base _ _ _ _ e); [reflexivity | reflexivity | exact Hraise]).
Qed.


Lemma overflows_on_next k input e :
  overflows_on agent limit current_step input k ->
  agent k (attempt_input current_step input k) limit = AgentRaise e ->
  is_context_error e = true ->
  overflows_on agent limit current_step input (S k).
Proof.
  intros Hover Hcall Hctx i Hi.
  destruct (Nat.eq_dec i k) as [-> | Hne].
  - exists e. split; assumption.
  - apply Hover. lia.
Qed.

(** A result of the run is the answer to one of its four invocations, every
    earlier one having failed on the context length, or it is the
    placeholder that stands for a fourth invocation that raised. *)
Lemma retry_loop_got input result log :
  retry_loop agent limit current_step (Z.to_nat max_retries) 0 input [] = (Got result, log) ->
  (exists k,
     (k <= 3)%nat
     /\ overflows_on agent limit current_step input k
     /\ agent k (attempt_input current_step input k) limit = AgentReturn result)
  \/ (overflows_on agent limit current_step input 3
      /\ (exists e, agent 3%nat [human (minimal_content current_step)] limit = AgentRaise e)
      /\ result = [placeholder current_step]).
Proof.
  intros Hrun.
  assert (Hnext : forall k,
            (k <= 2)%nat ->
            overflows_on agent limit current_step input k ->
            (exists r, agent k (attempt_input current_step input k) limit = AgentReturn r
                       /\ r = result)
            \/ overflows_on agent limit current_step input (S k)).
  { intros k Hk Hover.
    destruct (agent k (attempt_input current_step input k) limit) as [r|e|e] eqn:E.
    - left. exists r. split; [reflexivity|].
      rewrite (retry_loop_succeeds k input r) in Hrun by (try assumption; lia).
      congruence.
    - destruct (is_context_error e) eqn:C.
      + right. exact (overflows_on_next k input e Hover E C).
      + rewrite (retry_loop_raises k input e) in Hrun by assumption.
        discriminate.
    - rewrite (retry_loop_uncaught k input e) in Hrun by (try assumption; lia).
      discriminate. }
  assert (H0 : overflows_on agent limit current_step input 0) by (intros i Hi; lia).
  destruct (Hnext 0%nat ltac:(lia) H0) as [(r & E & ->) | H1];
    [left; exists 0%nat; auto with arith|].
  destruct (Hnext 1%nat ltac:(lia) H1) as [(r & E & ->) | H2];
    [left; exists 1%nat; auto with arith|].
  destruct (Hnext 2%nat ltac:(lia) H2) as [(r & E & ->) | H3];
    [left; exists 2%nat; auto with arith|].
  rewrite (retry_loop_last input H3) in Hrun.
  destruct (agent 3%nat [human (minimal_content current_step)] limit) as [r|e|e] eqn:E.
  - left. exists 3%nat. injection Hrun as <- _. auto.
  - right. injection Hrun as <- _. eauto.
  - discriminate.
Qed.

End RetryLoop.

Lemma find_step_app passed rest acc :
  Forall executed passed ->
  find_step (passed ++ rest) acc = find_step rest (acc ++ passed).
Proof.
  revert acc. induction passed as [|s passed IH]; intros acc Hf.
  - cbn. rewrite app_nil_r. reflexivity.
  - inversion Hf as [|? ? Hs Hp]; subst. cbn [app find_step].
    unfold executed in Hs. rewrite Hs. rewrite IH by assumption.
    rewrite <- app_assoc. reflexivity.
Qed.

(** C7: when no step of the plan is unexecuted, the executor returns the
    command that only routes to the research team, leaves the plan as it was
    and does not invoke the agent.  Whenever it returns, it has done that or
    it has filled in exactly one step: the first one in declaration order
    whose [execution_res] is unset or empty, every step before it having a
    non-empty result.  That step keeps its title and description and gets as
    its result the last message of the agent's answer to one of the run's
    four invocations, or the placeholder; every other step and every other
    field of the plan is left as it was, and the command routes to the
    research team. *)
Theorem single_claim_in_order (state : State) (agent : agent_handle)
    (agent_name : pystr) (env_value : option Z) :
  (forall p,
     current_plan state = ValidPlan p ->
     Forall executed (steps p) ->
     _execute_agent_step state agent agent_name env_value
     = Return (mkResult (mkCommand research_team [] None None None None) p []))
  /\ (forall res,
        _execute_agent_step state agent agent_name env_value = Return res ->
        exists p,
          current_plan state = ValidPlan p
          /\ ((Forall executed (steps p)
               /\ res = mkResult (mkCommand research_team [] None None None None) p [])
              \/ exists completed current later r,
                   steps p = completed ++ current :: later
                   /\ Forall executed completed
                   /\ unexecuted current = true
                   /\ plan_after res
                      = mkPlan (plan_locale p) (has_enough_context p) (thought p)
                          (plan_title p)
                          (completed
                           ++ mkStep (step_title current) (step_description current)
                                (Some r)
                           :: later)
                   /\ goto (command res) = research_team
                   /\ (r = placeholder current
                       \/ exists k earlier,
                            (k <= 3)%nat
                            /\ agent k
                                 (attempt_input current
                                    (prepare_agent_input state completed current
                                       agent_name) k)
                                 (recursion_limit env_value)
                               = AgentReturn (earlier ++ [r])))).
Proof.
  split.
  - intros p Hplan Hf. unfold _execute_agent_step. rewrite Hplan.
    rewrite <- (app_nil_r (steps p)), find_step_app by assumption. reflexivity.
  - intros res. unfold _execute_agent_step.
    destruct (current_plan state) as [| |p]; try discriminate.
    pose proof (find_step_spec (steps p) []) as Hfind.
    destruct (find_step (steps p) []) as [completed [[current later]|]].
    + destruct Hfind as (passed & Hc & Hsteps & Hf & Hu). simpl in Hc. subst passed.
      destruct (retry_loop _ _ _ _ _ _ _) as [[result|e|e| |] log] eqn:Hrun;
        try discriminate.
      destruct (rev result) as [|response rest] eqn:Hrev; [discriminate|].
      intros H. injection H as <-.
      exists p. split; [reflexivity|]. right.
      exists completed, current, later, response. cbn.
      repeat (split; [solve [auto]|]).
      apply retry_loop_got in Hrun.
      destruct Hrun as [(k & Hk & _ & Hcall) | (_ & _ & ->)].
      * right. exists k, (rev rest). split; [exact Hk|].
        rewrite Hcall. f_equal.
        rewrite <- (rev_involutive result), Hrev. reflexivity.
      * left. cbn in Hrev. congruence.
    + destruct Hfind as [_ Hf]. intros H. injection H as <-.
      exists p. split; [reflexivity|]. left. auto.
Qed.

Lemma find_step_found passed current later acc :
  Forall executed passed -> unexecuted current = true ->
  find_step (passed ++ current :: later) acc = (acc ++ passed, Some (current, later)).
Proof.
  intros Hf Hu. revert acc. induction Hf as [|s passed Hs Hf IH]; intros acc; cbn [find_step app].
  - rewrite Hu, app_nil_r. reflexivity.
  - unfold executed in Hs. rewrite Hs, IH, <- app_assoc. reflexivity.
Qed.

(** C9, as the code has it: when the agent answers, at once or after up to
    three context-length failures on the inputs the run hands to it, the
    executor writes the content of the last message of the answer into the
    claimed step's [execution_res] (title, description and the rest of the
    plan are kept), appends it to the observations, which grow by exactly
    one, appends to the state's messages a human message named after the
    agent kind, and routes to the research team; the agent has been invoked
    on the inputs of the attempts up to that one. *)
Theorem step_success (state : State) (agent : agent_handle) (agent_name : pystr)
    (env_value : option Z) (p : Plan) (completed : list Step) (current : Step)
    (later : list Step) (k : nat) (earlier : list pystr) (response : pystr) :
  current_plan state = ValidPlan p ->
  steps p = completed ++ current :: later ->
  Forall executed completed ->
  unexecuted current = true ->
  (k <= 3)%nat ->
  overflows_on agent (recursion_limit env_value) current
    (prepare_agent_input state completed current agent_name) k ->
  agent k
    (attempt_input current (prepare_agent_input state completed current agent_name) k)
    (recursion_limit env_value)
  = AgentReturn (earlier ++ [response]) ->
  exists res,
    _execute_agent_step state agent agent_name env_value = Return res
    /\ plan_after res
       = mkPlan (plan_locale p) (has_enough_context p) (thought p) (plan_title p)
           (completed
            ++ mkStep (step_title current) (step_description current) (Some response)
            :: later)
    /\ command res
       = mkCommand research_team [mklc HumanMessage response (Some agent_name)]
           None None None (Some (observations state ++ [response]))
    /\ observations (apply_command state (command res)) = observations state ++ [response]
    /\ length (observations (apply_command state (command res)))
       = S (length (observations state))
    /\ messages (apply_command state (command res))
       = messages state ++ [ObjMsg (mklc HumanMessage response (Some agent_name))]
    /\ invocations res
       = attempts current (prepare_agent_input state completed current agent_name) (S k).
Proof.
  intros Hplan Hsteps Hf Hu Hk Hover Hret.
  unfold _execute_agent_step. rewrite Hplan, Hsteps, (find_step_found _ _ _ [] Hf Hu).
  cbn [app].
  rewrite (retry_loop_succeeds agent (recursion_limit env_value) current k
             (prepare_agent_input state completed current agent_name)
             (earlier ++ [response]) Hk Hover Hret).
  rewrite rev_app_distr. cbn [rev app].
  eexists. split; [reflexivity|]. cbn.
  repeat split; try reflexivity.
  rewrite length_app. cbn. lia.
Qed.

(** C4, as the code has it: when the agent raises a context-length failure
    on each of the first three inputs the run hands to it and raises an
    [Exception] again on the fourth, which is the minimal-content attempt,
    the executor raises nothing: it records the placeholder text as the
    step's result and as the new observation, appends it as a message, routes
    to the research team, and has invoked the agent four times. *)
Theorem overflow_degrades (state : State) (agent : agent_handle) (agent_name : pystr)
    (env_value : option Z) (p : Plan) (completed : list Step) (current : Step)
    (later : list Step) (e : pystr) :
  current_plan state = ValidPlan p ->
  steps p = completed ++ current :: later ->
  Forall executed completed ->
  unexecuted current = true ->
  overflows_on agent (recursion_limit env_value) current
    (prepare_agent_input state completed current agent_name) 3 ->
  agent 3%nat [human (minimal_content current)] (recursion_limit env_value)
  = AgentRaise e ->
  exists res,
    _execute_agent_step state agent agent_name env_value = Return res
    /\ plan_after res
       = mkPlan (plan_locale p) (has_enough_context p) (thought p) (plan_title p)
           (completed
            ++ mkStep (step_title current) (step_description current)
                 (Some (placeholder current))
            :: later)
    /\ command res
       = mkCommand research_team
           [mklc HumanMessage (placeholder current) (Some agent_name)]
           None None None (Some (observations state ++ [placeholder current]))
    /\ length (invocations res) = 4%nat
    /\ invocations res
       = attempts current (prepare_agent_input state completed current agent_name) 3
         ++ [[human (minimal_content current)]].
Proof.
  intros Hplan Hsteps Hf Hu Hover Hlast.
  unfold _execute_agent_step. rewrite Hplan, Hsteps, (find_step_found _ _ _ [] Hf Hu).
  cbn [app].
  rewrite (retry_loop_degrades agent (recursion_limit env_value) current
             (prepare_agent_input state completed current agent_name) e Hover Hlast).
  cbn [rev app].
  eexists. split; [reflexivity|]. cbn. auto.
Qed.

Lemma last_n_length {A} n (l : list A) : length (last_n n l) = Nat.min n (length l).
Proof. unfold last_n. rewrite length_skipn. lia. Qed.

Lemma last_n_all {A} n (l : list A) : (length l <= n)%nat -> last_n n l = l.
Proof.
  intros H. unfold last_n. replace (length l - n)%nat with 0%nat by lia. reflexivity.
Qed.

Lemma last_n_idem {A} n (l : list A) : last_n n (last_n n l) = last_n n l.
Proof. apply last_n_all. rewrite last_n_length. lia. Qed.

Lemma last_n_app {A} n (older l : list A) :
  (n <= length l)%nat -> last_n n (older ++ l) = last_n n l.
Proof.
  intros H. unfold last_n. rewrite length_app, skipn_app.
  rewrite skipn_all2 by lia. simpl. f_equal. lia.
Qed.

Lemma last_n_nonempty {A} n (l : list A) : l <> [] -> last_n (S n) l <> [].
Proof.
  intros Hl H. apply (f_equal (@length A)) in H. rewrite last_n_length in H.
  destruct l; [congruence | simpl in H; lia].
Qed.

Lemma observations_part_recent obs :
  observations_part (last_n 3 obs) = observations_part obs.
Proof.
  destruct obs as [|o obs]; [reflexivity|].
  pose proof (last_n_nonempty 2 (o :: obs) ltac:(discriminate)) as Hne.
  unfold observations_part at 1. rewrite last_n_idem.
  destruct (last_n 3 (o :: obs)) as [|o' obs'] eqn:E; [congruence|].
  rewrite <- E. reflexivity.
Qed.

Lemma observations_part_older older obs :
  (3 <= length obs)%nat ->
  observations_part (older ++ obs) = observations_part obs.
Proof.
  intros H. rewrite <- (observations_part_recent (older ++ obs)),
    <- (observations_part_recent obs), last_n_app by assumption. reflexivity.
Qed.

Lemma state_parts_length l :
  (length (flat_map state_message_part l) <= length l)%nat.
Proof.
  induction l as [|m l IH]; simpl; [lia|].
  rewrite length_app. destruct m; simpl; lia.
Qed.

Lemma state_parts_typed l :
  Forall (fun m => mtype m = Some (lit "state_message")) (flat_map state_message_part l).
Proof.
  induction l as [|m l IH]; simpl; [constructor|].
  apply Forall_app. split; [|exact IH]. destruct m; repeat constructor.
Qed.

Lemma filter_length_le {A} (f : A -> bool) l : (length (filter f l) <= length l)%nat.
Proof. induction l as [|x l IH]; simpl; [lia|]. destruct (f x); simpl; lia. Qed.

(** What [context_parts] draws from the state's [messages] and
    [observations], whatever the steps are. *)
Lemma context_parts_fields (state : State) (completed : list Step) (current : Step) :
  context_parts state completed current
  = context_parts (recent_state state) completed current
  /\ (length (messages (recent_state state)) <= 5)%nat
  /\ (length (observations (recent_state state)) <= 3)%nat
  /\ (length (filter (type_is (lit "state_message"))
                (context_parts state completed current)) <= 5)%nat
  /\ (length (filter (type_is (lit "observations"))
                (context_parts state completed current)) <= 1)%nat
  /\ forall older_messages older_observations,
       (5 <= length (messages state))%nat ->
       (3 <= length (observations state))%nat ->
       context_parts (with_older older_messages older_observations state)
         completed current
       = context_parts state completed current.
Proof.
  split.
  { unfold context_parts, recent_state, current_task_content, state_locale.
    cbn [messages observations locale].
    rewrite last_n_idem, observations_part_recent. reflexivity. }
  split; [cbn; rewrite last_n_length; lia|].
  split; [cbn; rewrite last_n_length; lia|].
  assert (Hobs : forall obs, observations_part obs = []
             \/ exists c, observations_part obs
                  = [mkmsg (Some c) (Some (lit "system")) None (Some (lit "observations"))]).
  { intros obs. unfold observations_part. destruct obs; [left; reflexivity|].
    destruct (truthy _); [right; eexists; reflexivity | left; reflexivity]. }
  assert (Hdrop : forall t t' c r,
             PyStr.eqb t' t = false ->
             filter (type_is t) [mkmsg c r None (Some t')] = []).
  { intros t t' c r E. cbn [filter]. unfold type_is. cbn [mtype opt_eqb]. now rewrite E. }
  assert (Hhead : forall t,
             PyStr.eqb (lit "completed_steps") t = false ->
             filter (type_is t)
               (if truthy (completed_steps_info completed)
                then [mkmsg (Some (completed_steps_info completed)) (Some (lit "system"))
                        None (Some (lit "completed_steps"))]
                else []) = []).
  { intros t E. destruct (truthy _); [now apply Hdrop | reflexivity]. }
  split; [|split].
  - unfold context_parts. rewrite !filter_app, !length_app.
    rewrite Hhead by reflexivity. rewrite Hdrop by reflexivity.
    pose proof (filter_length_le (type_is (lit "state_message"))
                  (flat_map state_message_part (last_n 5 (messages state)))).
    pose proof (state_parts_length (last_n 5 (messages state))).
    pose proof (last_n_length 5 (messages state)).
    destruct (Hobs (observations state)) as [-> | [c ->]].
    + cbn [filter length]. lia.
    + rewrite Hdrop by reflexivity. cbn [length]. lia.
  - unfold context_parts. rewrite !filter_app, !length_app.
    rewrite Hhead by reflexivity. rewrite Hdrop by reflexivity.
    assert (H2 : filter (type_is (lit "observations"))
                   (flat_map state_message_part (last_n 5 (messages state))) = []).
    { pose proof (state_parts_typed (last_n 5 (messages state))) as Ht.
      induction Ht as [|m l Hm Ht IH]; [reflexivity|].
      cbn [filter]. unfold type_is at 1. rewrite Hm, IH. reflexivity. }
    rewrite H2.
    destruct (Hobs (observations state)) as [-> | [c ->]].
    + cbn [filter length]. lia.
    + pose proof (filter_length_le (type_is (lit "observations"))
                    [mkmsg (Some c) (Some (lit "system")) None (Some (lit "observations"))]).
      cbn [length] in *. lia.
  - intros older_messages older_observations Hm Ho.
    unfold context_parts, with_older, current_task_content, state_locale.
    cbn [messages observations locale].
    rewrite last_n_app, observations_part_older by assumption. reflexivity.
Qed.

Lemma findings_occurs i completed step r :
  In step completed -> execution_res step = Some r ->
  Occurs r (findings i completed).
Proof.
  revert i. induction completed as [|s rest IH]; intros i Hin Hr; [destruct Hin|].
  cbn [findings]. destruct Hin as [-> | Hin].
  - rewrite Hr. cbn [str_of_res].
    exists (lit "## Existing Finding " ++ of_Z (i + 1) ++ lit ": " ++ step_title step
            ++ lit "\n\n" ++ lit "<finding>\n"),
           (lit "\n</finding>\n\n" ++ findings (i + 1) rest).
    rewrite <- !app_assoc. reflexivity.
  - destruct (IH (i + 1) Hin Hr) as (pre & post & E). rewrite E.
    exists (lit "## Existing Finding " ++ of_Z (i + 1) ++ lit ": " ++ step_title s
            ++ lit "\n\n" ++ lit "<finding>\n" ++ str_of_res (execution_res s)
            ++ lit "\n</finding>\n\n" ++ pre), post.
    rewrite <- !app_assoc. reflexivity.
Qed.

(** C10, as the code has it: in a run, where the executor claims a step of
    the state's plan, the payload assembled before truncation is the same as
    for the state reduced to its five most recent messages and three most
    recent observations; it holds at most five entries drawn from the state's
    messages and at most one observations entry, built from at most three
    observations; and older messages and observations in front of a state
    that already has five messages and three observations do not change it.
    But the payload also holds, in its completed-steps entry, the result of
    every step the plan has completed, which in a run are the texts of all
    the earlier observations. *)
Theorem context_parts_recent (state : State) (p : Plan) (completed : list Step)
    (current : Step) (later : list Step) :
  current_plan state = ValidPlan p ->
  find_step (steps p) [] = (completed, Some (current, later)) ->
  assembled_context state = context_parts state completed current
  /\ assembled_context state = assembled_context (recent_state state)
  /\ (length (messages (recent_state state)) <= 5)%nat
  /\ (length (observations (recent_state state)) <= 3)%nat
  /\ (length (filter (type_is (lit "state_message")) (assembled_context state)) <= 5)%nat
  /\ (length (filter (type_is (lit "observations")) (assembled_context state)) <= 1)%nat
  /\ (forall older_messages older_observations,
        (5 <= length (messages state))%nat ->
        (3 <= length (observations state))%nat ->
        assembled_context (with_older older_messages older_observations state)
        = assembled_context state)
  /\ (forall step r,
        In step completed -> execution_res step = Some r ->
        exists m,
          In m (assembled_context state)
          /\ mtype m = Some (lit "completed_steps")
          /\ Occurs r (msg_content m)).
Proof.
  intros Hplan Hfind.
  assert (Hrun : forall st,
            current_plan st = ValidPlan p ->
            assembled_context st = context_parts st completed current).
  { intros st Hst. unfold assembled_context. rewrite Hst, Hfind. reflexivity. }
  pose proof (context_parts_fields state completed current)
    as (H1 & H2 & H3 & H4 & H5 & H6).
  rewrite (Hrun state Hplan), (Hrun (recent_state state) Hplan).
  split; [reflexivity|].
  split; [exact H1|]. split; [exact H2|]. split; [exact H3|].
  split; [exact H4|]. split; [exact H5|]. split.
  - intros older_messages older_observations Hm Ho.
    rewrite (Hrun (with_older older_messages older_observations state) Hplan).
    exact (H6 older_messages older_observations Hm Ho).
  - intros step r Hin Hr.
    destruct completed as [|s rest]; [destruct Hin|].
    exists (mkmsg (Some (completed_steps_info (s :: rest))) (Some (lit "system")) None
              (Some (lit "completed_steps"))).
    split; [|split; [reflexivity|]].
    + unfold context_parts.
      assert (Ht : truthy (completed_steps_info (s :: rest)) = true).
      { cbn [completed_steps_info].
        assert (Hh : exists c header, lit "# Existing Research Findings\n\n" = c :: header)
          by (vm_compute; eauto).
        destruct Hh as (c & header & ->). reflexivity. }
      rewrite Ht. left. reflexivity.
    + destruct (findings_occurs 0 (s :: rest) step r Hin Hr) as (pre & post & E).
      exists (lit "# Existing Research Findings\n\n" ++ pre), post.
      change (msg_content
                (mkmsg (Some (completed_steps_info (s :: rest))) (Some (lit "system")) None
                   (Some (lit "completed_steps"))))
        with (lit "# Existing Research Findings\n\n" ++ findings 0 (s :: rest)).
      rewrite E, <- app_assoc. reflexivity.
Qed.

(** * Further properties of the code *)

(** ** Token estimator *)

(** The estimate of a text is never more than its number of characters and
    never less than a quarter of it, rounded down: whichever of the three
    rates applies, a token stands for between one and four characters. *)
Theorem estimate_tokens_range (text : pystr) :
  len text / 4 <= estimate_tokens text <= len text.
Proof.
  pose proof (len_nonneg text) as Hl.
  unfold estimate_tokens.
  destruct (negb (truthy text)) eqn:Et.
  - destruct text; [cbn; lia | discriminate].
  - assert (H4 : len text / 4 <= len text / 3).
    { apply Z.div_le_compat_l; lia. }
    assert (H3 : len text / 3 <= len text).
    { apply Z.div_le_upper_bound; lia. }
    assert (H44 : len text / 4 <= len text).
    { apply Z.div_le_upper_bound; lia. }
    destruct (has_code text); [lia|].
    destruct (_ <? _); [|lia].
    pose proof (cjk_div_bounds (len text) Hl) as (H0 & Hu & Hlow). cbn zeta in *.
    remember (to_int (div (of_int (len text)) (of_rat 15 10))) as e eqn:Ee. clear Ee.
    remember (len text) as n eqn:En. clear En.
    remember (2 ^ 53) as K eqn:EK.
    assert (HK : 8 <= K) by (subst K; vm_compute; congruence). clear EK.
    assert (HA : 0 < K * K) by nia.
    assert (HB : 3 * (K * K) <= 4 * ((K - 1) * (K - 1))) by nia.
    assert (HC : 2 * ((K + 1) * (K + 1)) <= 3 * (K * K)) by nia.
    remember (K * K) as A eqn:EA. remember ((K - 1) * (K - 1)) as B eqn:EB.
    remember ((K + 1) * (K + 1)) as C eqn:EC. clear EA EB EC HK K.
    split.
    + assert (Hn : n <= 2 * e + 1).
      { assert (H1 : n * (3 * A) <= n * (4 * B)) by (apply Z.mul_le_mono_nonneg_l; lia).
        assert (H2 : n * (3 * A) < (2 * (e + 1)) * (3 * A)) by nia.
        apply Z.mul_lt_mono_pos_r in H2; lia. }
      destruct (Z.eq_dec e 0) as [-> | Hne].
      * assert (Hs : n = 0 \/ n = 1) by lia. destruct Hs as [-> | ->]; reflexivity.
      * apply Z.div_le_upper_bound; lia.
    + assert (H1 : n * (2 * C) <= n * (3 * A)) by (apply Z.mul_le_mono_nonneg_l; lia).
      assert (H2 : e * (3 * A) <= n * (3 * A)) by nia.
      apply Z.mul_le_mono_pos_r in H2; lia.
Qed.

(** ** Context-window truncation *)

(** [int(max_tokens * 0.7)] lies between 0.699 and 0.701 of the budget. *)
Lemma target_tokens_ratio max_tokens :
  0 <= max_tokens ->
  let target := to_int (mul (of_int max_tokens) (of_rat 7 10)) in
  0 <= target
  /\ 1000 * target <= 701 * max_tokens
  /\ 699 * max_tokens < 1000 * (target + 1).
Proof.
  intros H. cbn zeta.
  assert (Hn : 0 <= fnum (of_rat 7 10)) by (vm_compute; congruence).
  assert (Hd : 0 < fden (of_rat 7 10)) by reflexivity.
  pose proof (mul_of_int_bounds max_tokens (of_rat 7 10) H Hn Hd) as (Hdr & Hnr & Hu & Hl).
  cbn zeta in *.
  specialize (Hu 701 1000 ltac:(lia) ltac:(lia) ltac:(vm_compute; congruence)).
  specialize (Hl 699 1000 ltac:(lia) ltac:(lia) ltac:(vm_compute; congruence)).
  pose proof (to_int_floor _ Hnr Hdr) as [Hf1 Hf2].
  remember (mul (of_int max_tokens) (of_rat 7 10)) as r eqn:Er. clear Er.
  remember (to_int r) as t eqn:Et. clear Et.
  destruct r as [nr dr]. cbn [fnum fden] in *.
  split; [nia|]. split; nia.
Qed.

Lemma truncate_context_over messages budget :
  budget < total_tokens messages ->
  truncate_context messages (Some budget)
  = sort_by (sort_key messages) (snd (select_messages messages budget)).
Proof.
  intros H. unfold truncate_context.
  destruct messages as [|m l]; [cbn in H |].
  - unfold select_messages. cbn. reflexivity.
  - apply Z.leb_gt in H. rewrite H. reflexivity.
Qed.

(** When the estimated total is above a non-negative budget and the ratio is
    not negative, the messages returned cost at most
    [int(budget * TRUNCATION_RATIO)]; with the default ratio 0.7 that is at
    most 70.1 percent of the budget: the truncation leaves the remaining
    part of the budget free for the answer. *)
Theorem truncate_context_headroom (messages : list msg) (budget : Z) :
  0 <= budget ->
  budget < total_tokens messages ->
  0 <= fnum TRUNCATION_RATIO ->
  0 < fden TRUNCATION_RATIO ->
  total_tokens (truncate_context messages (Some budget))
  <= to_int (mul (of_int budget) TRUNCATION_RATIO)
  /\ (TRUNCATION_RATIO = of_rat 7 10 ->
      1000 * total_tokens (truncate_context messages (Some budget)) <= 701 * budget).
Proof.
  intros Hb Hover Hn Hd. rewrite (truncate_context_over _ _ Hover).
  rewrite <- (total_tokens_perm _ _ (sort_by_perm _ _)).
  pose proof (select_messages_target messages budget) as Ht.
  pose proof (mul_of_int_bounds budget TRUNCATION_RATIO Hb Hn Hd) as (Hdr & Hnr & _).
  cbn zeta in *.
  pose proof (to_int_nonneg _ Hnr Hdr) as H0.
  split; [lia|].
  intros Hdefault. rewrite Hdefault in *.
  pose proof (target_tokens_ratio budget Hb) as (_ & H1 & _). cbn zeta in *.
  lia.
Qed.

(** One pass accepts a prefix of its list: the messages are taken in order,
    each as it is or cut, and the first one that does not fit ends the pass;
    the running total grows by the cost of what was accepted. *)
Lemma add_messages_if_fits_prefix msg_list limit current acc :
  exists k,
    (k <= length msg_list)%nat
    /\ snd (add_messages_if_fits msg_list limit (current, acc))
       = acc ++ map (fitted limit) (firstn k msg_list)
    /\ fst (add_messages_if_fits msg_list limit (current, acc))
       = current + total_tokens (map (fitted limit) (firstn k msg_list))
    /\ (forall m, nth_error msg_list k = Some m ->
          limit < fst (add_messages_if_fits msg_list limit (current, acc))
                  + estimate_tokens (msg_content (fitted limit m))).
Proof.
  revert current acc. induction msg_list as [|m rest IH]; intros current acc.
  - exists O. cbn. rewrite app_nil_r. repeat split; try lia. intros m H. discriminate.
  - cbn [add_messages_if_fits].
    set (step :=
      if int_gt (estimate_tokens (msg_content m)) (mul (of_int limit) (of_rat 8 10))
      then _ else _).
    assert (Hstep : step = (fitted limit m, estimate_tokens (msg_content (fitted limit m)))).
    { subst step. unfold fitted. destruct (int_gt _ _); reflexivity. }
    rewrite Hstep. clear Hstep step.
    destruct (current + _ <=? limit) eqn:E; [apply Z.leb_le in E | apply Z.leb_gt in E].
    + destruct (IH (current + estimate_tokens (msg_content (fitted limit m)))
                  (acc ++ [fitted limit m])) as (k & Hk & Hs & Hf & Hr).
      exists (S k). cbn [firstn map length nth_error total_tokens fold_right].
      rewrite Hs, Hf, <- app_assoc. cbn [app].
      repeat split; try lia.
      * unfold total_tokens. lia.
      * intros m0 H0. specialize (Hr m0 H0). rewrite Hf in Hr. exact Hr.
    + exists O. cbn [firstn map length nth_error total_tokens fold_right fst snd].
      rewrite app_nil_r. repeat split; try lia.
      intros m0 H0. injection H0 as <-. lia.
Qed.

Lemma comes_from_fitted limit m : comes_from m (fitted limit m).
Proof. unfold fitted, comes_from. destruct (int_gt _ _); auto. Qed.

Lemma Forall2_comes_from_fitted limit l : Forall2 comes_from l (map (fitted limit) l).
Proof. induction l; cbn; constructor; auto using comes_from_fitted. Qed.

Lemma select_messages_parts messages max_tokens :
  let target := to_int (mul (of_int max_tokens) TRUNCATION_RATIO) in
  exists ks kt ko cs ct,
    snd (select_messages messages max_tokens)
    = map (fitted target) (firstn ks (filter (is_class SystemClass) messages))
      ++ map (fitted (target - cs)) (firstn kt (filter (is_class TaskClass) messages))
      ++ map (fitted (target - ct)) (firstn ko (rev (filter (is_class OtherClass) messages))).
Proof.
  intros target. unfold select_messages. fold target.
  destruct (add_messages_if_fits_prefix (filter (is_class SystemClass) messages) target 0 [])
    as (ks & _ & Hs & _).
  destruct (add_messages_if_fits (filter (is_class SystemClass) messages) target (0, []))
    as [c1 l1]. cbn [fst snd] in *.
  destruct (add_messages_if_fits_prefix (filter (is_class TaskClass) messages) (target - c1) c1 l1)
    as (kt & _ & Ht & _).
  destruct (add_messages_if_fits (filter (is_class TaskClass) messages) (target - c1) (c1, l1))
    as [c2 l2]. cbn [fst snd] in *.
  destruct (add_messages_if_fits_prefix (rev (filter (is_class OtherClass) messages))
              (target - c2) c2 l2) as (ko & _ & Ho & _).
  exists ks, kt, ko, c1, c2. rewrite Ho, Ht, Hs. cbn [app]. rewrite <- app_assoc. reflexivity.
Qed.

(** The messages accepted by the three passes are, in this order, the first
    few system-class messages, the first few task-class messages and the
    last few of the remaining messages, latest first, each as it is or cut:
    within a class no message is accepted after one that was refused. *)
Theorem select_messages_prefixes (messages : list msg) (budget : Z) :
  exists ks kt ko : nat,
    Forall2 comes_from
      (firstn ks (filter (is_class SystemClass) messages)
       ++ firstn kt (filter (is_class TaskClass) messages)
       ++ firstn ko (rev (filter (is_class OtherClass) messages)))
      (snd (select_messages messages budget)).
Proof.
  destruct (select_messages_parts messages budget) as (ks & kt & ko & cs & ct & H).
  exists ks, kt, ko. rewrite H.
  repeat apply Forall2_app; apply Forall2_comes_from_fitted.
Qed.

Lemma firstn_incl {A} k (l : list A) x : In x (firstn k l) -> In x l.
Proof.
  revert l; induction k; intros [|y l]; cbn; try tauto.
  intros [H|H]; auto.
Qed.

Lemma select_messages_from messages budget r :
  In r (snd (select_messages messages budget)) ->
  exists m, In m messages /\ comes_from m r.
Proof.
  destruct (select_messages_parts messages budget) as (ks & kt & ko & cs & ct & H).
  rewrite H. intros Hin.
  repeat (apply in_app_or in Hin; destruct Hin as [Hin|Hin]);
    apply in_map_iff in Hin; destruct Hin as (m & <- & Hm);
    apply firstn_incl in Hm; rewrite <- ?in_rev in Hm;
    apply filter_In in Hm; destruct Hm as [Hm _];
    exists m; split; auto using comes_from_fitted.
Qed.

Lemma select_messages_length messages budget :
  (length (snd (select_messages messages budget)) <= length messages)%nat.
Proof.
  destruct (select_messages_parts messages budget) as (ks & kt & ko & cs & ct & H).
  rewrite H. rewrite !length_app, !length_map, !length_firstn, length_rev.
  assert (Hc : (length (filter (is_class SystemClass) messages)
          + length (filter (is_class TaskClass) messages)
          + length (filter (is_class OtherClass) messages) = length messages)%nat).
  { clear. induction messages as [|m l IH]; [reflexivity|].
    cbn [filter]. unfold is_class in *. destruct (classify m); cbn [length]; lia. }
  lia.
Qed.

(** The truncation invents nothing: every message it returns is a message of
    the input, unchanged or with its content cut and marked (role, name and
    type are kept), and it returns at most as many messages as it was
    given. *)
Theorem truncate_context_provenance (messages : list msg) (max_tokens : option Z) :
  (forall r, In r (truncate_context messages max_tokens) ->
     exists m, In m messages /\ comes_from m r)
  /\ (length (truncate_context messages max_tokens) <= length messages)%nat.
Proof.
  unfold truncate_context.
  set (budget := match max_tokens with None => _ | Some n => n end).
  destruct messages as [|m0 l]; [split; [intros r []| lia]|].
  destruct (_ <=? _).
  - split; [|lia]. intros r Hr. exists r. split; [assumption | left; reflexivity].
  - split.
    + intros r Hr.
      apply (Permutation_in _ (Permutation_sym (sort_by_perm _ _))) in Hr.
      apply select_messages_from in Hr. exact Hr.
    + rewrite <- (Permutation_length (sort_by_perm _ _)).
      apply select_messages_length.
Qed.

Lemma add_messages_if_fits_full msg_list limit current acc :
  limit < current ->
  add_messages_if_fits msg_list limit (current, acc) = (current, acc).
Proof.
  intros H. destruct msg_list as [|m rest]; [reflexivity|].
  cbn [add_messages_if_fits].
  set (step := if int_gt _ _ then _ else _).
  assert (Hstep : 0 <= snd step).
  { subst step. destruct (int_gt _ _); cbn [snd]; apply estimate_tokens_nonneg. }
  destruct step as [m' t]. cbn [snd] in Hstep.
  destruct (current + t <=? limit) eqn:E; [apply Z.leb_le in E; lia | reflexivity].
Qed.

Lemma add_messages_if_fits_total msg_list limit current acc :
  fst (add_messages_if_fits msg_list limit (current, acc))
  = current + (total_tokens (snd (add_messages_if_fits msg_list limit (current, acc)))
               - total_tokens acc).
Proof.
  pose proof (add_messages_if_fits_inv msg_list limit current acc) as (H & _).
  cbn zeta in H. lia.
Qed.

(** The later passes compare the running total, which already counts the
    accepted system messages, with what is left of the target.  Once the
    accepted system messages cost more than half of the target, no task
    message and no other message is returned, whatever its size: the result
    holds system-class messages only. *)
Theorem truncate_context_starves (messages : list msg) (budget : Z) :
  let target := to_int (mul (of_int budget) TRUNCATION_RATIO) in
  let kept := snd (add_messages_if_fits (filter (is_class SystemClass) messages)
                     target (0, [])) in
  budget < total_tokens messages ->
  target < 2 * total_tokens kept ->
  truncate_context messages (Some budget) = sort_by (sort_key messages) kept
  /\ forall r, In r (truncate_context messages (Some budget)) ->
       exists m, In m messages /\ classify m = SystemClass /\ comes_from m r.
Proof.
  intros target kept Hover Hhalf.
  assert (Hsel : snd (select_messages messages budget) = kept).
  { unfold select_messages. fold target.
    pose proof (add_messages_if_fits_total (filter (is_class SystemClass) messages)
                  target 0 []) as Hc.
    fold kept in Hc. cbn [total_tokens fold_right] in Hc.
    subst kept.
    destruct (add_messages_if_fits (filter (is_class SystemClass) messages) target (0, []))
      as [c1 l1]. cbn [fst snd] in *.
    rewrite add_messages_if_fits_full by lia. cbn [fst].
    rewrite add_messages_if_fits_full by lia. reflexivity. }
  rewrite (truncate_context_over _ _ Hover), Hsel.
  split; [reflexivity|].
  intros r Hr.
  apply (Permutation_in _ (Permutation_sym (sort_by_perm _ _))) in Hr.
  subst kept.
  destruct (add_messages_if_fits_prefix (filter (is_class SystemClass) messages) target 0 [])
    as (k & _ & Hs & _).
  rewrite Hs in Hr. cbn [app] in Hr.
  apply in_map_iff in Hr. destruct Hr as (m & <- & Hm).
  apply firstn_incl in Hm. apply filter_In in Hm. destruct Hm as [Hm Hc].
  exists m. split; [assumption|]. split; [|apply comes_from_fitted].
  unfold is_class in Hc. destruct (classify m); congruence.
Qed.

(** When the input is over the budget, the first system-class message is
    returned unchanged whenever its estimate is at most 0.799 of the target
    [int(budget * TRUNCATION_RATIO)], whatever the ratio is set to; with the
    default ratio 0.7 that is the case whenever twice the estimate plus two is
    at most the budget. *)
Theorem first_system_message_kept (messages : list msg) (budget : Z) (m : msg)
    (rest : list msg) :
  budget < total_tokens messages ->
  filter (is_class SystemClass) messages = m :: rest ->
  1000 * estimate_tokens (msg_content m)
  <= 799 * to_int (mul (of_int budget) TRUNCATION_RATIO)
  \/ (TRUNCATION_RATIO = of_rat 7 10
      /\ 2 * estimate_tokens (msg_content m) + 2 <= budget) ->
  In m (truncate_context messages (Some budget)).
Proof.
  intros Hover Hsys Hsmall.
  pose proof (estimate_tokens_nonneg (msg_content m)) as He.
  rewrite (truncate_context_over _ _ Hover).
  apply (Permutation_in _ (sort_by_perm _ _)).
  unfold select_messages.
  assert (Htarget : 1000 * estimate_tokens (msg_content m)
                    <= 799 * to_int (mul (of_int budget) TRUNCATION_RATIO)).
  { destruct Hsmall as [H | [Hdefault H]]; [exact H|]. rewrite Hdefault.
    pose proof (target_tokens_ratio budget ltac:(lia)) as (Ht0 & _ & Htl).
    cbn zeta in Htl, Ht0. lia. }
  clear Hsmall.
  set (target := to_int (mul (of_int budget) TRUNCATION_RATIO)) in *.
  assert (Ht0 : 0 <= target) by lia.
  (* the message is not cut *)
  assert (Hfit : fitted target m = m).
  { unfold fitted.
    assert (Hn : 0 <= fnum (of_rat 8 10)) by (vm_compute; congruence).
    assert (Hd : 0 < fden (of_rat 8 10)) by reflexivity.
    pose proof (mul_of_int_bounds target (of_rat 8 10) Ht0 Hn Hd) as (Hdr & Hnr & _ & Hl).
    cbn zeta in *.
    specialize (Hl 799 1000 ltac:(lia) ltac:(lia) ltac:(vm_compute; congruence)).
    remember (mul (of_int target) (of_rat 8 10)) as r eqn:Er. clear Er.
    unfold int_gt. destruct r as [nr dr]. cbn [fnum fden] in *.
    destruct (nr <? estimate_tokens (msg_content m) * dr) eqn:E; [|reflexivity].
    apply Z.ltb_lt in E. exfalso.
    assert (1000 * nr < 799 * target * dr) by nia.
    lia. }
  destruct (add_messages_if_fits_prefix (filter (is_class SystemClass) messages) target 0 [])
    as (k & _ & Hs & _ & Hr).
  assert (Hin : In m (snd (add_messages_if_fits (filter (is_class SystemClass) messages)
                             target (0, [])))).
  { destruct k as [|k].
    - exfalso.
      assert (H0 : nth_error (filter (is_class SystemClass) messages) 0 = Some m)
        by (rewrite Hsys; reflexivity).
      specialize (Hr m H0).
      rewrite Hfit in Hr.
      assert (Hz : fst (add_messages_if_fits (filter (is_class SystemClass) messages)
                          target (0, [])) = 0).
      { rewrite add_messages_if_fits_total, Hs. reflexivity. }
      rewrite Hz in Hr. lia.
    - rewrite Hs, Hsys. cbn. left. exact Hfit. }
  destruct (add_messages_if_fits (filter (is_class SystemClass) messages) target (0, []))
    as [c1 l1]. cbn [fst snd] in *.
  destruct (add_messages_if_fits_prefix (filter (is_class TaskClass) messages) (target - c1) c1 l1)
    as (kt & _ & Ht & _).
  destruct (add_messages_if_fits (filter (is_class TaskClass) messages) (target - c1) (c1, l1))
    as [c2 l2]. cbn [fst snd] in *.
  destruct (add_messages_if_fits_prefix (rev (filter (is_class OtherClass) messages))
              (target - c2) c2 l2) as (ko & _ & Ho & _).
  rewrite Ho, Ht. apply in_or_app. left. apply in_or_app. left. exact Hin.
Qed.

(** ** Step executor *)

Lemma find_filter {A} (p q : A -> bool) l :
  (forall x, p x = true -> q x = true) -> find p (filter q l) = find p l.
Proof.
  intros H. induction l as [|x l IH]; [reflexivity|]. cbn [filter find].
  destruct (p x) eqn:Ep.
  - rewrite (H x Ep). cbn [find]. rewrite Ep. reflexivity.
  - destruct (q x); [cbn [find]; rewrite Ep|]; exact IH.
Qed.

Lemma filter_filter {A} (p q : A -> bool) l :
  (forall x, p x = true -> q x = true) -> filter p (filter q l) = filter p l.
Proof.
  intros H. induction l as [|x l IH]; [reflexivity|]. cbn [filter].
  destruct (p x) eqn:Ep.
  - rewrite (H x Ep). cbn [filter]. rewrite Ep, IH. reflexivity.
  - destruct (q x); [cbn [filter]; rewrite Ep|]; exact IH.
Qed.

Lemma type_is_other t t' m :
  PyStr.eqb t t' = false -> type_is t m = true -> negb (type_is t' m) = true.
Proof.
  unfold type_is. destruct (mtype m) as [s|]; cbn [opt_eqb]; [|discriminate].
  intros Hne Ht. apply eqb_eq in Ht. subst s. rewrite Hne. reflexivity.
Qed.

(** The entries of the context that come from the state's messages take
    part in the truncation only: the input rebuilt for the agent is the one
    rebuilt from the context without them, as long as anything else is left
    in it. *)
Theorem state_messages_never_reach_agent (truncated_context : list msg)
    (agent_input : list lc_message) (current_step : Step) :
  without_state_messages truncated_context <> [] ->
  rebuild_input truncated_context agent_input current_step
  = rebuild_input (without_state_messages truncated_context) agent_input current_step.
Proof.
  intros Hne. unfold rebuild_input, without_state_messages in *.
  destruct truncated_context as [|m0 rest]; [reflexivity|].
  set (ctx := m0 :: rest) in *.
  destruct (filter _ ctx) as [|f0 frest] eqn:Ef; [congruence|].
  rewrite <- Ef.
  rewrite find_filter.
  2:{ intros x Hx. apply (type_is_other (lit "current_task")); [reflexivity | exact Hx]. }
  rewrite filter_filter; [reflexivity|].
  intros x Hx. apply andb_prop in Hx. destruct Hx as [Hx _].
  apply orb_prop in Hx. destruct Hx as [Hx|Hx].
  - apply (type_is_other (lit "completed_steps")); [reflexivity | exact Hx].
  - apply (type_is_other (lit "observations")); [reflexivity | exact Hx].
Qed.

(** What the executor does not catch: after any number of context-length
    failures on the inputs the run hands to the agent, an [Exception] that
    is not a context-length failure, raised on one of the first three
    invocations, is not retried and not replaced by a placeholder but raised
    again; and a [BaseException] that is not an [Exception], raised on any of
    the four invocations, passes through. *)
Theorem agent_error_propagates (state : State) (agent : agent_handle)
    (agent_name : pystr) (env_value : option Z) (p : Plan) (completed : list Step)
    (current : Step) (later : list Step) (k : nat) (e : pystr) :
  current_plan state = ValidPlan p ->
  steps p = completed ++ current :: later ->
  Forall executed completed ->
  unexecuted current = true ->
  overflows_on agent (recursion_limit env_value) current
    (prepare_agent_input state completed current agent_name) k ->
  ((k <= 2)%nat ->
   agent k
     (attempt_input current (prepare_agent_input state completed current agent_name) k)
     (recursion_limit env_value)
   = AgentRaise e ->
   is_context_error e = false ->
   _execute_agent_step state agent agent_name env_value = Raise (AgentError e))
  /\ ((k <= 3)%nat ->
      agent k
        (attempt_input current (prepare_agent_input state completed current agent_name) k)
        (recursion_limit env_value)
      = AgentRaiseBase e ->
      _execute_agent_step state agent agent_name env_value
      = Raise (AgentBaseException e)).
Proof.
  intros Hplan Hsteps Hf Hu Hover.
  unfold _execute_agent_step. rewrite Hplan, Hsteps, (find_step_found _ _ _ [] Hf Hu).
  cbn [app]. split.
  - intros Hk Hraise Hctx.
    rewrite (retry_loop_raises agent (recursion_limit env_value) current k
               (prepare_agent_input state completed current agent_name) e
               Hk Hover Hraise Hctx).
    reflexivity.
  - intros Hk Hraise.
    rewrite (retry_loop_uncaught agent (recursion_limit env_value) current k
               (prepare_agent_input state completed current agent_name) e
               Hk Hover Hraise).
    reflexivity.
Qed.

Lemma firstn_prefix {A} (n m : nat) (l : list A) :
  (n <= m)%nat -> exists post, firstn m l = firstn n l ++ post.
Proof.
  revert m l. induction n as [|n IH]; intros m l H.
  - exists (firstn m l). reflexivity.
  - destruct m as [|m]; [lia|]. destruct l as [|x l].
    + exists []. reflexivity.
    + destruct (IH m l ltac:(lia)) as (post & Hp). exists post. cbn. rewrite Hp. reflexivity.
Qed.

(** A retry replaces the first message by a human message and leaves the
    other messages as they are; the new content starts with the first 1000
    characters of the old one, and a content of at most 1000 characters is
    passed on unchanged. *)
Theorem shrink_input_floor (retry_count : Z) (first : lc_message)
    (rest : list lc_message) :
  exists c,
    shrink_input retry_count (first :: rest) = human c :: rest
    /\ (len (lc_content first) <= 1000 -> c = lc_content first)
    /\ exists post, c = take 1000 (lc_content first) ++ post.
Proof.
  unfold shrink_input.
  set (current_content := lc_content first).
  set (m0 := to_int _).
  set (max_length := if m0 <? 1000 then 1000 else m0).
  assert (Hm : 1000 <= max_length).
  { subst max_length. destruct (m0 <? 1000) eqn:E; [lia | apply Z.ltb_ge in E; lia]. }
  clearbody max_length. clear m0.
  eexists. split; [reflexivity|]. split.
  - intros Hshort.
    assert (E : (max_length <? len current_content) = false) by (apply Z.ltb_ge; lia).
    rewrite E. unfold take. apply firstn_all2. unfold len in Hshort. lia.
  - destruct (firstn_prefix (Z.to_nat 1000) (Z.to_nat max_length) current_content ltac:(lia))
      as (post & Hp).
    unfold take. rewrite Hp.
    destruct (max_length <? len current_content).
    + eexists. rewrite <- !app_assoc. reflexivity.
    + exists post. reflexivity.
Qed.

(** After a step got a non-empty result, the search of the next invocation
    passes it: it goes on from the step after it, with the step, now
    holding the result, counted among the completed ones. *)
Theorem executed_step_is_passed (state : State) (agent : agent_handle)
    (agent_name : pystr) (env_value : option Z) (p : Plan) (completed : list Step)
    (current : Step) (later : list Step) (k : nat) (earlier : list pystr)
    (response : pystr) :
  current_plan state = ValidPlan p ->
  steps p = completed ++ current :: later ->
  Forall executed completed ->
  unexecuted current = true ->
  (k <= 3)%nat ->
  overflows_on agent (recursion_limit env_value) current
    (prepare_agent_input state completed current agent_name) k ->
  agent k
    (attempt_input current (prepare_agent_input state completed current agent_name) k)
    (recursion_limit env_value)
  = AgentReturn (earlier ++ [response]) ->
  response <> [] ->
  exists res,
    _execute_agent_step state agent agent_name env_value = Return res
    /\ find_step (steps (plan_after res)) []
       = find_step later
           (completed
            ++ [mkStep (step_title current) (step_description current) (Some response)]).
Proof.
  intros Hplan Hsteps Hf Hu Hk Hover Hret Hne.
  unfold _execute_agent_step. rewrite Hplan, Hsteps, (find_step_found _ _ _ [] Hf Hu).
  cbn [app].
  rewrite (retry_loop_succeeds agent (recursion_limit env_value) current k
             (prepare_agent_input state completed current agent_name)
             (earlier ++ [response]) Hk Hover Hret).
  rewrite rev_app_distr. cbn [rev app].
  eexists. split; [reflexivity|]. cbn [plan_after with_steps steps].
  rewrite find_step_app by assumption. cbn [app find_step].
  assert (Hex : unexecuted (set_execution_res current response) = false).
  { unfold unexecuted, set_execution_res. cbn. destruct response; [congruence | reflexivity]. }
  rewrite Hex. reflexivity.
Qed.

(** An empty answer leaves the step unexecuted: the empty text is recorded
    as the step's result and appended to the observations, and the search of
    the next invocation claims the same step again. *)
Theorem empty_answer_stalls (state : State) (agent : agent_handle)
    (agent_name : pystr) (env_value : option Z) (p : Plan) (completed : list Step)
    (current : Step) (later : list Step) (k : nat) (earlier : list pystr) :
  current_plan state = ValidPlan p ->
  steps p = completed ++ current :: later ->
  Forall executed completed ->
  unexecuted current = true ->
  (k <= 3)%nat ->
  overflows_on agent (recursion_limit env_value) current
    (prepare_agent_input state completed current agent_name) k ->
  agent k
    (attempt_input current (prepare_agent_input state completed current agent_name) k)
    (recursion_limit env_value)
  = AgentReturn (earlier ++ [[]]) ->
  exists res,
    _execute_agent_step state agent agent_name env_value = Return res
    /\ find_step (steps (plan_after res)) []
       = (completed,
          Some (mkStep (step_title current) (step_description current) (Some []), later))
    /\ update_observations (command res) = Some (observations state ++ [[]]).
Proof.
  intros Hplan Hsteps Hf Hu Hk Hover Hret.
  unfold _execute_agent_step. rewrite Hplan, Hsteps, (find_step_found _ _ _ [] Hf Hu).
  cbn [app].
  rewrite (retry_loop_succeeds agent (recursion_limit env_value) current k
             (prepare_agent_input state completed current agent_name)
             (earlier ++ [[]]) Hk Hover Hret).
  rewrite rev_app_distr. cbn [rev app].
  eexists. split; [reflexivity|]. cbn [plan_after with_steps steps command update_observations].
  split; [|reflexivity].
  rewrite find_step_app by assumption. reflexivity.
Qed.

(** With every step of the plan executed the executor invokes no agent and
    updates nothing: it routes back to the research team. *)
Theorem all_steps_executed (state : State) (agent : agent_handle)
    (agent_name : pystr) (env_value : option Z) (p : Plan) :
  current_plan state = ValidPlan p ->
  Forall executed (steps p) ->
  _execute_agent_step state agent agent_name env_value
  = Return (mkResult (goto_only research_team) p []).
Proof.
  intros Hplan Hf. unfold _execute_agent_step. rewrite Hplan.
  rewrite <- (app_nil_r (steps p)), find_step_app by assumption. reflexivity.
Qed.

(** ** Planner, review and reporter *)

Section MoreNodeFacts.

Variable repair_json_output : pystr -> pystr.

Variable json_loads : pystr -> option json.

Variable model_validate : json -> option Plan.

Variable apply_prompt_template : list lc_message -> pystr -> list lc_message.

Variable llm : list lc_message -> pystr.

Lemma planner_to_review state max_plan_iterations full_response c :
  planner_node repair_json_output json_loads model_validate state max_plan_iterations
    full_response = Return c ->
  goto c = human_feedback ->
  c = mkCommand human_feedback [mklc AIMessage full_response (Some (lit "planner"))]
        (Some (RawPlan full_response)) None None None
  /\ exists items,
       json_loads (repair_json_output full_response) = Some (JDict items)
       /\ match assoc (lit "has_enough_context") items with
          | Some v => json_truthy v = false
          | None => True
          end.
Proof.
  unfold planner_node. intros H Hg.
  destruct (_ <=? _); [injection H as <-; discriminate|].
  destruct (json_loads _) as [curr_plan|].
  2:{ destruct (0 <? _); injection H as <-; discriminate. }
  destruct curr_plan as [| | | | |items]; try discriminate.
  destruct (assoc _ items) as [v|] eqn:Ea.
  - destruct (json_truthy v) eqn:Ev.
    + destruct (model_validate _); [injection H as <-; discriminate | discriminate].
    + injection H as <-. split; [reflexivity|]. exists items. rewrite Ea. auto.
  - injection H as <-. split; [reflexivity|]. exists items. rewrite Ea. auto.
Qed.

(** When the planner hands a plan to the review and the review runs on the
    updated state, the run goes back to the planner (no iteration counted)
    or on to the research team with a validated plan and one more
    iteration; it never goes to the reporter or to the end.  What can be
    raised is the [TypeError] of an unsupported feedback, a [KeyError] (the
    planner reads [has_enough_context] with [get], the review with an
    index; [locale] is indexed too) or the validation error. *)
Theorem reviewed_plan_outcomes (state : State) (max_plan_iterations : Z)
    (full_response feedback : pystr) (c : Command) :
  planner_node repair_json_output json_loads model_validate state max_plan_iterations
    full_response = Return c ->
  goto c = human_feedback ->
  match human_feedback_node repair_json_output json_loads model_validate
          (apply_command state c) feedback with
  | Return c' =>
      (goto c' = planner /\ update_plan_iterations c' = None)
      \/ (goto c' = research_team
          /\ update_plan_iterations c' = Some (plan_iterations state + 1)
          /\ exists p, update_current_plan c' = Some (ValidPlan p))
  | Raise e =>
      (exists message, e = TypeError message) \/ (exists key, e = KeyError key)
      \/ e = ValidationError
  end.
Proof.
  intros H Hg.
  destruct (planner_to_review _ _ _ _ H Hg) as (-> & items & Hparse & Hctx).
  assert (Hacc :
    match accept_plan repair_json_output json_loads model_validate
            (apply_command state
               (mkCommand human_feedback
                  [mklc AIMessage full_response (Some (lit "planner"))]
                  (Some (RawPlan full_response)) None None None)) with
    | Return c' =>
        (goto c' = planner /\ update_plan_iterations c' = None)
        \/ (goto c' = research_team
            /\ update_plan_iterations c' = Some (plan_iterations state + 1)
            /\ exists p, update_current_plan c' = Some (ValidPlan p))
    | Raise e =>
        (exists message, e = TypeError message) \/ (exists key, e = KeyError key)
        \/ e = ValidationError
    end).
  { unfold accept_plan. cbn [apply_command current_plan update_current_plan plan_iterations
                              update_plan_iterations].
    rewrite Hparse.
    destruct (assoc (lit "has_enough_context") items) as [v|]; [|right; left; eauto].
    rewrite Hctx.
    destruct (model_validate _) as [p|]; [|auto].
    destruct (assoc (lit "locale") items); [|right; left; eauto].
    right. cbn. eauto. }
  unfold human_feedback_node.
  destruct (negb _); [|exact Hacc].
  destruct (truthy feedback && startswith (lit "[EDIT_PLAN]") (upper feedback)).
  - left. cbn. auto.
  - destruct (truthy feedback && startswith (lit "[ACCEPTED]") (upper feedback)).
    + exact Hacc.
    + left. eauto.
Qed.

(** The review increments the iteration count before it parses the plan, so
    with a count that is not negative its parse-failure branch always routes
    to the reporter: the review never ends the run. *)
Theorem human_feedback_never_ends (state : State) (feedback : pystr) (c : Command) :
  0 <= plan_iterations state ->
  human_feedback_node repair_json_output json_loads model_validate state feedback
  = Return c ->
  goto c <> node_end.
Proof.
  intros Hpos.
  assert (Hacc : accept_plan repair_json_output json_loads model_validate state = Return c ->
                 goto c <> node_end).
  { unfold accept_plan.
    destruct (current_plan state) as [|text|p]; try discriminate.
    - destruct (json_loads _) as [new_plan|].
      + destruct new_plan as [| | | | |items]; try discriminate.
        destruct (assoc _ items) as [v|]; [|discriminate].
        destruct (model_validate _); [|discriminate].
        destruct (assoc _ items); [|discriminate].
        intros H. injection H as <-. cbn. destruct (json_truthy v); discriminate.
      + assert (E : (0 <? plan_iterations state + 1) = true) by (apply Z.ltb_lt; lia).
        rewrite E. intros H. injection H as <-. discriminate.
    - destruct (json_loads _) as [new_plan|].
      + destruct new_plan as [| | | | |items]; try discriminate.
        destruct (assoc _ items) as [v|]; [|discriminate].
        destruct (model_validate _); [|discriminate].
        destruct (assoc _ items); [|discriminate].
        intros H. injection H as <-. cbn. destruct (json_truthy v); discriminate.
      + assert (E : (0 <? plan_iterations state + 1) = true) by (apply Z.ltb_lt; lia).
        rewrite E. intros H. injection H as <-. discriminate. }
  unfold human_feedback_node.
  destruct (negb _); [|exact Hacc].
  destruct (truthy feedback && startswith (lit "[EDIT_PLAN]") (upper feedback)).
  - intros H. injection H as <-. discriminate.
  - destruct (truthy feedback && startswith (lit "[ACCEPTED]") (upper feedback)).
    + exact Hacc.
    + discriminate.
Qed.

(** The planner never updates the iteration count.  The review updates it
    only when the plan is accepted and parsed, to one more than the state's
    count, and then routes to the research team or to the reporter; a
    request to edit the plan and a plan that cannot be parsed leave it as it
    is. *)
Theorem plan_iterations_count_acceptances (state : State) (max_plan_iterations : Z)
    (full_response feedback : pystr) :
  (forall c,
     planner_node repair_json_output json_loads model_validate state max_plan_iterations
       full_response = Return c ->
     update_plan_iterations c = None)
  /\ (forall c,
        human_feedback_node repair_json_output json_loads model_validate state feedback
        = Return c ->
        (update_plan_iterations c = None /\ (goto c = planner \/ goto c = reporter \/ goto c = node_end))
        \/ (update_plan_iterations c = Some (plan_iterations state + 1)
            /\ (goto c = research_team \/ goto c = reporter))).
Proof.
  split.
  - intros c. unfold planner_node.
    destruct (_ <=? _); [intros H; injection H as <-; reflexivity|].
    destruct (json_loads _) as [curr_plan|].
    2:{ destruct (0 <? _); intros H; injection H as <-; reflexivity. }
    destruct curr_plan as [| | | | |items]; try discriminate.
    destruct (match assoc _ items with Some v => json_truthy v | None => false end).
    + destruct (model_validate _); [intros H; injection H as <-; reflexivity | discriminate].
    + intros H; injection H as <-; reflexivity.
  - intros c.
    assert (Hacc : accept_plan repair_json_output json_loads model_validate state = Return c ->
      (update_plan_iterations c = None /\ (goto c = planner \/ goto c = reporter \/ goto c = node_end))
      \/ (update_plan_iterations c = Some (plan_iterations state + 1)
          /\ (goto c = research_team \/ goto c = reporter))).
    { unfold accept_plan.
      destruct (current_plan state) as [|text|p]; try discriminate.
      - destruct (json_loads _) as [new_plan|].
        + destruct new_plan as [| | | | |items]; try discriminate.
          destruct (assoc _ items) as [v|]; [|discriminate].
          destruct (model_validate _); [|discriminate].
          destruct (assoc _ items); [|discriminate].
          intros H. injection H as <-. right. cbn. destruct (json_truthy v); auto.
        + destruct (0 <? _); intros H; injection H as <-; left; cbn; auto.
      - destruct (json_loads _) as [new_plan|].
        + destruct new_plan as [| | | | |items]; try discriminate.
          destruct (assoc _ items) as [v|]; [|discriminate].
          destruct (model_validate _); [|discriminate].
          destruct (assoc _ items); [|discriminate].
          intros H. injection H as <-. right. cbn. destruct (json_truthy v); auto.
        + destruct (0 <? _); intros H; injection H as <-; left; cbn; auto. }
    unfold human_feedback_node.
    destruct (negb _); [|exact Hacc].
    destruct (truthy feedback && startswith (lit "[EDIT_PLAN]") (upper feedback)).
    + intros H. injection H as <-. left. cbn. auto.
    + destruct (truthy feedback && startswith (lit "[ACCEPTED]") (upper feedback)).
      * exact Hacc.
      * discriminate.
Qed.

(** When the planner routes to the reporter, the reporter answers if the
    planner stored a validated plan or the state already had one; otherwise
    (the planner routed there without an update: the iteration limit was
    reached or the answer was not JSON) the reporter raises
    [AttributeError]. *)
Theorem reporter_after_planner (state : State) (max_plan_iterations : Z)
    (full_response : pystr) (c : Command) :
  planner_node repair_json_output json_loads model_validate state max_plan_iterations
    full_response = Return c ->
  goto c = reporter ->
  match reporter_node apply_prompt_template llm (apply_command state c) with
  | Return _ =>
      (exists p, update_current_plan c = Some (ValidPlan p))
      \/ (update_current_plan c = None /\ exists p, current_plan state = ValidPlan p)
  | Raise e =>
      e = AttributeError /\ c = goto_only reporter
      /\ forall p, current_plan state <> ValidPlan p
  end.
Proof.
  unfold planner_node. intros H Hg.
  assert (Hbare :
    match reporter_node apply_prompt_template llm (apply_command state (goto_only reporter)) with
    | Return _ =>
        (exists p, update_current_plan (goto_only reporter) = Some (ValidPlan p))
        \/ (update_current_plan (goto_only reporter) = None
            /\ exists p, current_plan state = ValidPlan p)
    | Raise e =>
        e = AttributeError /\ goto_only reporter = goto_only reporter
        /\ forall p, current_plan state <> ValidPlan p
    end).
  { unfold reporter_node. cbn [apply_command goto_only update_current_plan current_plan].
    destruct (current_plan state) as [|text|p].
    - repeat split; congruence.
    - repeat split; congruence.
    - right. split; [reflexivity | eauto]. }
  destruct (_ <=? _); [injection H as <-; exact Hbare|].
  destruct (json_loads _) as [curr_plan|].
  2:{ destruct (0 <? _); injection H as <-; [exact Hbare | discriminate]. }
  destruct curr_plan as [| | | | |items]; try discriminate.
  destruct (match assoc _ items with Some v => json_truthy v | None => false end).
  - destruct (model_validate _) as [p|]; [|discriminate].
    injection H as <-. unfold reporter_node. cbn. left. eauto.
  - injection H as <-. discriminate.
Qed.

(** The two values an interrupt event offers are understood by the review,
    whatever the last message of the request: the resume text built from
    [edit_plan] sends the run back to the planner with that text as the
    feedback message, and the one built from [accepted] accepts the plan. *)
Theorem interrupt_options_understood (state : State) (interrupt_feedback : pystr)
    (last_content : option pystr) :
  auto_accepted_plan state = false ->
  In interrupt_feedback interrupt_options ->
  exists resume_msg,
    workflow_input false interrupt_feedback last_content = Resume resume_msg
    /\ ((interrupt_feedback = lit "edit_plan"
         /\ human_feedback_node repair_json_output json_loads model_validate state
              resume_msg
            = Return (mkCommand planner
                        [mklc HumanMessage resume_msg (Some (lit "feedback"))]
                        None None None None))
        \/ (interrupt_feedback = lit "accepted"
            /\ human_feedback_node repair_json_output json_loads model_validate state
                 resume_msg
               = accept_plan repair_json_output json_loads model_validate state)).
Proof.
  intros Hauto Hopt.
  assert (Hcases : interrupt_feedback = lit "edit_plan" \/ interrupt_feedback = lit "accepted").
  { destruct Hopt as [<-|[<-|[]]]; auto. }
  clear Hopt.
  set (tail := match last_content with Some c => lit " " ++ c | None => [] end).
  exists (lit "[" ++ interrupt_feedback ++ lit "]" ++ tail).
  split.
  - unfold workflow_input. cbn [negb andb].
    destruct Hcases as [-> | ->]; cbn [truthy];
      subst tail; destruct last_content; cbn [app].
    all: try rewrite app_nil_r.
    all: rewrite <- ?app_assoc; reflexivity.
  - unfold human_feedback_node. rewrite Hauto. cbn [negb].
    destruct Hcases as [-> | ->]; [left | right]; (split; [reflexivity|]).
    + assert (E : startswith (lit "[EDIT_PLAN]")
                    (upper (lit "[" ++ lit "edit_plan" ++ lit "]" ++ tail)) = true).
      { rewrite !app_assoc. apply upper_prefix; reflexivity. }
      rewrite E. reflexivity.
    + assert (E : upper (lit "[" ++ lit "accepted" ++ lit "]" ++ tail)
                  = lit "[ACCEPTED]" ++ upper tail).
      { rewrite !app_assoc, upper_app, upper_ascii; reflexivity. }
      rewrite E.
      assert (E1 : startswith (lit "[EDIT_PLAN]") (lit "[ACCEPTED]" ++ upper tail) = false)
        by reflexivity.
      assert (E2 : startswith (lit "[ACCEPTED]") (lit "[ACCEPTED]" ++ upper tail) = true)
        by reflexivity.
      rewrite E1, E2. reflexivity.
Qed.

End MoreNodeFacts.

(** ** Coordinator *)

Lemma find_handoff_none tool_calls :
  (forall tc, In tc tool_calls -> ~ hands_off tc) -> find_handoff tool_calls = None.
Proof.
  induction tool_calls as [|tc rest IH]; intros H; [reflexivity|].
  cbn [find_handoff].
  destruct (PyStr.eqb (tc_name tc) (lit "handoff_to_planner")) eqn:En; cbn [negb].
  - destruct (truthy (tc_locale tc) && truthy (tc_research_topic tc)) eqn:Et.
    + exfalso. apply (H tc); [left; reflexivity|].
      apply andb_prop in Et. destruct Et as [E1 E2].
      split; [apply eqb_eq; assumption|].
      split; intros E; rewrite E in *; discriminate.
    + apply IH. intros x Hx. apply H. right. assumption.
  - apply IH. intros x Hx. apply H. right. assumption.
Qed.

Lemma find_handoff_first before tc after :
  (forall x, In x before -> ~ hands_off x) -> hands_off tc ->
  find_handoff (before ++ tc :: after) = Some (tc_locale tc, tc_research_topic tc).
Proof.
  intros Hb (Hn & Hl & Ht). induction before as [|x before IH]; cbn [app find_handoff].
  - apply eqb_eq in Hn. rewrite Hn. cbn [negb].
    destruct (tc_locale tc); [congruence|]. destruct (tc_research_topic tc); [congruence|].
    reflexivity.
  - assert (Hx : ~ hands_off x) by (apply Hb; left; reflexivity).
    assert (IH' := IH (fun y Hy => Hb y (or_intror Hy))).
    destruct (PyStr.eqb (tc_name x) (lit "handoff_to_planner")) eqn:En; cbn [negb];
      [|exact IH'].
    destruct (truthy (tc_locale x) && truthy (tc_research_topic x)) eqn:Et; [|exact IH'].
    exfalso. apply Hx. apply andb_prop in Et. destruct Et as [E1 E2].
    split; [apply eqb_eq; assumption|].
    split; intros E; rewrite E in *; discriminate.
Qed.

(** The coordinator ends the run exactly when the model's answer has no tool
    call; any tool call routes on, to the background investigation when it
    is enabled and to the planner otherwise.  Locale and topic are taken
    together from the first hand-off call that gives both; without such a
    call the state's locale and topic are kept. *)
Theorem coordinator_handoff (state : State) (research_topic : pystr)
    (enable_background_investigation : bool) (tool_calls : list tool_call)
    (resources : list Resource) :
  let c := coordinator_node state research_topic enable_background_investigation
             tool_calls resources in
  (coordinator_next c = to_end <-> tool_calls = [])
  /\ (tool_calls <> [] ->
      coordinator_next c
      = if enable_background_investigation then to_background_investigator
        else to_planner)
  /\ ((forall tc, In tc tool_calls -> ~ hands_off tc) ->
      coordinator_locale c = state_locale state
      /\ coordinator_research_topic c = research_topic)
  /\ (forall before tc after,
        tool_calls = before ++ tc :: after ->
        (forall x, In x before -> ~ hands_off x) -> hands_off tc ->
        coordinator_locale c = tc_locale tc
        /\ coordinator_research_topic c = tc_research_topic tc).
Proof.
  cbn zeta. unfold coordinator_node.
  destruct tool_calls as [|tc0 rest].
  - cbn. split; [tauto|]. split; [congruence|]. split; [auto|].
    intros before tc after Heq. destruct before; discriminate.
  - set (calls := tc0 :: rest).
    assert (Hgoto : forall l t,
      coordinator_next
        match find_handoff calls with
        | Some (locale, research_topic0) =>
            mkCoordinatorCommand
              (if enable_background_investigation then to_background_investigator
               else to_planner) locale research_topic0 resources
        | None =>
            mkCoordinatorCommand
              (if enable_background_investigation then to_background_investigator
               else to_planner) l t resources
        end
      = if enable_background_investigation then to_background_investigator
        else to_planner).
    { intros l t. destruct (find_handoff calls) as [[? ?]|]; reflexivity. }
    split; [|split; [|split]].
    + rewrite Hgoto. split; [destruct enable_background_investigation|]; discriminate.
    + intros _. apply Hgoto.
    + intros Hno. rewrite (find_handoff_none calls Hno). cbn. auto.
    + intros before tc after Heq Hb Htc. rewrite Heq.
      rewrite (find_handoff_first before tc after Hb Htc). cbn. auto.
Qed.

(** ** Tools of an agent *)

Lemma mem_In x l : mem x l = true <-> In x l.
Proof.
  unfold mem. rewrite existsb_exists. split.
  - intros (y & Hy & E). apply eqb_eq in E. subst. assumption.
  - intros H. exists x. split; [assumption | apply eqb_eq; reflexivity].
Qed.

Lemma tool_server_selected agent_type servers name server :
  tool_server agent_type servers name = Some server ->
  exists config,
    In (server, config) servers /\ server_selected agent_type config = true
    /\ In name (enabled_tools config).
Proof.
  induction servers as [|[server_name config] rest IH]; [discriminate|].
  cbn [tool_server].
  destruct (tool_server agent_type rest name) as [later|].
  - intros H. injection H as <-. destruct (IH eq_refl) as (cfg & Hin & Hs & He).
    exists cfg. split; [right; assumption | auto].
  - destruct (server_selected agent_type config && mem name (enabled_tools config)) eqn:E;
      [|discriminate].
    intros H. injection H as <-. apply andb_prop in E. destruct E as [E1 E2].
    exists config. split; [left; reflexivity|]. split; [assumption | apply mem_In; assumption].
Qed.

Lemma mcp_servers_none agent_type servers :
  (forall server config, In (server, config) servers ->
     server_selected agent_type config = false) ->
  mcp_servers agent_type servers = [].
Proof.
  induction servers as [|[server_name config] rest IH]; intros H; [reflexivity|].
  cbn [mcp_servers]. rewrite (H server_name config) by (left; reflexivity).
  apply IH. intros s c Hin. apply (H s c). right. assumption.
Qed.

(** The agent's tools are the default tools followed by added ones.  Every
    added tool is a tool the client offers whose name is enabled by a server
    configured for this agent type, with that server named in front of its
    description; when no server is configured for the agent type, nothing
    is added. *)
Theorem agent_tools_extend_defaults (agent_type : pystr)
    (servers : list (pystr * server_config)) (default_tools : list Tool)
    (get_tools : list (pystr * list (pystr * json)) -> list Tool) :
  exists added,
    agent_tools agent_type servers default_tools get_tools = default_tools ++ added
    /\ (forall tool, In tool added ->
          exists server config offered,
            In (server, config) servers
            /\ server_selected agent_type config = true
            /\ In (tool_name offered) (enabled_tools config)
            /\ In offered (get_tools (mcp_servers agent_type servers))
            /\ tool = mkTool (tool_name offered)
                        (lit "Powered by '" ++ server ++ lit "'.\n"
                         ++ tool_description offered))
    /\ ((forall server config, In (server, config) servers ->
           server_selected agent_type config = false) -> added = []).
Proof.
  unfold agent_tools.
  destruct (mcp_servers agent_type servers) as [|s0 sel] eqn:Esel.
  - exists []. rewrite app_nil_r. split; [reflexivity|]. split; [intros ? []| reflexivity].
  - exists (add_client_tools agent_type servers (get_tools (s0 :: sel))).
    split; [reflexivity|]. split.
    + generalize (get_tools (s0 :: sel)) as client_tools.
      intros client_tools tool.
      assert (Hgen : forall l,
        In tool (add_client_tools agent_type servers l) ->
        exists server config offered,
          In (server, config) servers /\ server_selected agent_type config = true
          /\ In (tool_name offered) (enabled_tools config) /\ In offered l
          /\ tool = mkTool (tool_name offered)
                      (lit "Powered by '" ++ server ++ lit "'.\n" ++ tool_description offered)).
      { induction l as [|t l IH]; [intros []|].
        cbn [add_client_tools].
        destruct (tool_server agent_type servers (tool_name t)) as [server|] eqn:Es.
        - intros [<- | Hin].
          + destruct (tool_server_selected _ _ _ _ Es) as (cfg & H1 & H2 & H3).
            exists server, cfg, t. repeat split; auto. left; reflexivity.
          + destruct (IH Hin) as (s & cfg & o & H1 & H2 & H3 & H4 & H5).
            exists s, cfg, o. repeat split; auto. right; assumption.
        - intros Hin. destruct (IH Hin) as (s & cfg & o & H1 & H2 & H3 & H4 & H5).
          exists s, cfg, o. repeat split; auto. right; assumption. }
      apply Hgen.
    + intros Hnone. rewrite (mcp_servers_none _ _ Hnone) in Esel. discriminate.
Qed.

(** ** The Python tool *)

(** The tool reports success exactly when the run went through and its
    output mentions neither [Error] nor [Exception]; in every other case,
    also when the code ran and printed such a word, it reports an error.
    Either report quotes the code in a fence. *)
Theorem python_repl_tool_verdict (run : pystr -> repl_result) (code : pystr) :
  (clean_run run code ->
   exists result,
     run code = ReplOutput result
     /\ python_repl_tool run code
        = lit "Successfully executed:\n```python\n" ++ code ++ lit "\n```\nStdout: " ++ result)
  /\ (~ clean_run run code ->
      exists error,
        python_repl_tool run code
        = lit "Error executing code:\n```python\n" ++ code ++ lit "\n```\nError: " ++ error)
  /\ (startswith (lit "Successfully executed:") (python_repl_tool run code) = true
      <-> clean_run run code).
Proof.
  unfold python_repl_tool, clean_run.
  destruct (run code) as [result|error] eqn:Er.
  - destruct (contains (lit "Error") result) eqn:E1.
    + assert (Hno : ~ exists r, ReplOutput result = ReplOutput r
                      /\ ~ Occurs (lit "Error") r /\ ~ Occurs (lit "Exception") r).
      { intros (r & Hr & H1 & _). injection Hr as <-. apply H1. apply contains_spec. exact E1. }
      cbn [orb]. split; [intros H; contradiction|]. split.
      * intros _. eexists. reflexivity.
      * split; [discriminate | intros H; contradiction].
    + destruct (contains (lit "Exception") result) eqn:E2; cbn [orb].
      * assert (Hno : ~ exists r, ReplOutput result = ReplOutput r
                        /\ ~ Occurs (lit "Error") r /\ ~ Occurs (lit "Exception") r).
        { intros (r & Hr & _ & H2). injection Hr as <-. apply H2. apply contains_spec. exact E2. }
        split; [intros H; contradiction|]. split.
        -- intros _. eexists. reflexivity.
        -- split; [discriminate | intros H; contradiction].
      * assert (Hyes : exists r, ReplOutput result = ReplOutput r
                        /\ ~ Occurs (lit "Error") r /\ ~ Occurs (lit "Exception") r).
        { exists result. split; [reflexivity|].
          split; intros H; apply contains_spec in H; congruence. }
        split; [intros _; exists result; split; reflexivity|]. split.
        -- intros H; contradiction.
        -- split; [intros _; exact Hyes | intros _; reflexivity].
  - assert (Hno : ~ exists r, ReplRaise error = ReplOutput r
                    /\ ~ Occurs (lit "Error") r /\ ~ Occurs (lit "Exception") r).
    { intros (r & Hr & _). discriminate. }
    split; [intros H; contradiction|]. split.
    + intros _. eexists. reflexivity.
    + split; [discriminate | intros H; contradiction].
Qed.

(** ** Configuration loader *)

Lemma json_induction (P : json -> Prop) :
  P JNull -> (forall b, P (JBool b)) -> (forall n, P (JNum n)) -> (forall s, P (JStr s)) ->
  (forall l, Forall P l -> P (JList l)) ->
  (forall items, Forall (fun kv => P (snd kv)) items -> P (JDict items)) ->
  forall j, P j.
Proof.
  intros Hnull Hbool Hnum Hstr Hlist Hdict.
  fix IH 1. intros [| b | n | s | l | items].
  - exact Hnull.
  - apply Hbool.
  - apply Hnum.
  - apply Hstr.
  - apply Hlist. induction l as [|x l IHl]; constructor; [apply IH | exact IHl].
  - apply Hdict. induction items as [|[k v] items IHl]; constructor; [apply IH | exact IHl].
Qed.

Lemma process_value_fixed getenv value :
  no_variables value = true -> process_value getenv value = value.
Proof.
  induction value as [| b | n | s | l IH | items IH] using json_induction;
    intros H; try reflexivity.
  - cbn in *. unfold replace_env_vars. apply negb_true_iff in H. rewrite H. reflexivity.
  - cbn [process_value no_variables] in *. f_equal.
    induction items as [|[k v] items IHi]; [reflexivity|].
    cbn [map forallb] in *. apply andb_prop in H. destruct H as [Hv Hrest].
    inversion IH as [|? ? Hhead Htail]; subst. cbn [snd] in Hhead.
    rewrite (Hhead Hv), (IHi Htail Hrest). reflexivity.
Qed.

(** A configuration in which no string reached through nested dicts starts
    with a dollar sign is returned as it is, whatever the environment;
    strings inside lists are not looked at. *)
Theorem process_dict_without_variables (getenv : environment)
    (items : list (pystr * json)) :
  no_variables (JDict items) = true ->
  process_dict getenv (JDict items) = Loaded (JDict items).
Proof.
  intros Hno. unfold process_dict.
  destruct items as [|kv items]; [reflexivity|].
  cbn [json_truthy negb].
  pose proof (process_value_fixed getenv (JDict (kv :: items)) Hno) as H.
  cbn [process_value] in H. unfold process_items. rewrite H. reflexivity.
Qed.

(** Looking a key up after the processing gives the processed value of the
    key: a nested dict processed in turn, a string that starts with a dollar
    sign replaced by the value of the variable (by the variable's name when
    it is not set), anything else as it was. *)
Theorem process_dict_lookup (getenv : environment) (items : list (pystr * json))
    (key : pystr) :
  assoc key (process_items getenv items)
  = match assoc key items with
    | Some (JDict inner) => Some (JDict (process_items getenv inner))
    | Some (JStr s) =>
        Some (JStr (if startswith (lit "$") s
                    then match getenv (skipn 1 s) with
                         | Some v => v
                         | None => skipn 1 s
                         end
                    else s))
    | other => other
    end.
Proof.
  unfold process_items.
  induction items as [|[k v] items IH]; [reflexivity|].
  cbn [map assoc]. destruct (PyStr.eqb k key); [|exact IH].
  destruct v; try reflexivity.
  cbn [process_value]. unfold replace_env_vars. destruct (startswith _ _); reflexivity.
Qed.

Lemma assoc_head key value rest : assoc key ((key, value) :: rest) = Some value.
Proof.
  cbn [assoc]. assert (E : PyStr.eqb key key = true) by (apply eqb_eq; reflexivity).
  rewrite E. reflexivity.
Qed.

(** Once a file has been loaded, every later load of the path returns the
    same configuration as long as the file exists, even when the file or
    the environment has changed since. *)
Theorem load_yaml_config_cached (getenv getenv' : environment) (fs fs' : pystr -> file)
    (cache cache' : list (pystr * json)) (file_path : pystr) (config : json) :
  fs file_path <> Missing ->
  fs' file_path <> Missing ->
  load_yaml_config getenv fs cache file_path = (Loaded config, cache') ->
  load_yaml_config getenv' fs' cache' file_path = (Loaded config, cache')
  /\ assoc file_path cache' = Some config.
Proof.
  intros Hfs Hfs' Hload.
  assert (Hhit : assoc file_path cache' = Some config).
  { unfold load_yaml_config in Hload.
    destruct (fs file_path) as [| |content]; [congruence | |].
    - destruct (assoc file_path cache) as [cached|] eqn:Ea; [|discriminate].
      injection Hload as <- <-. exact Ea.
    - destruct (assoc file_path cache) as [cached|] eqn:Ea.
      + injection Hload as <- <-. exact Ea.
      + destruct (process_dict getenv content) as [processed| |]; try discriminate.
        injection Hload as <- <-. apply assoc_head. }
  split; [|exact Hhit].
  unfold load_yaml_config.
  destruct (fs' file_path); [congruence | |]; rewrite Hhit; reflexivity.
Qed.

(** ** Server *)

Lemma escape_char_one_line c x : In x (escape_char c) -> ~ line_break x.
Proof.
  unfold escape_char, line_break, hex_digit.
  repeat match goal with
         | |- context [if ?b then _ else _] => destruct b eqn:?
         end;
    cbn [In]; intros H;
    repeat match goal with
           | H : _ \/ _ |- _ => destruct H as [H|H]
           | H : False |- _ => destruct H
           | H : (_ =? _)%N = false |- _ => apply N.eqb_neq in H
           | H : (_ <? _)%N = true |- _ => apply N.ltb_lt in H
           | H : (_ <? _)%N = false |- _ => apply N.ltb_ge in H
           end;
    subst; try lia.
  all: clear; match goal with |- context [(48 + ?t)%N] => generalize t end; intros q; lia.
Qed.

Lemma json_string_one_line s x : In x (json_string s) -> ~ line_break x.
Proof.
  unfold json_string. intros H.
  apply in_app_or in H. destruct H as [H|H].
  - destruct H as [<-|[]]. unfold line_break. lia.
  - apply in_app_or in H. destruct H as [H|H].
    + apply in_flat_map in H. destruct H as (c & _ & Hc).
      apply (escape_char_one_line c x Hc).
    + destruct H as [<-|[]]. unfold line_break. lia.
Qed.

Lemma uint_chars d x :
  In x (map N_of_ascii (list_ascii_of_string (NilEmpty.string_of_uint d))) -> (45 <= x)%N.
Proof.
  induction d; cbn; intros H; try (destruct H as [<-|H]; [lia | auto]).
  destruct H.
Qed.

Lemma of_Z_one_line n x : In x (of_Z n) -> ~ line_break x.
Proof.
  unfold of_Z, line_break. intros H.
  assert (45 <= x)%N; [|lia].
  destruct (Z.to_int n) as [d|d]; unfold NilZero.string_of_int, NilZero.string_of_uint in H.
  - destruct d; try apply (uint_chars _ _ H).
    cbn in H. destruct H as [<-|[]]. lia.
  - cbn [list_ascii_of_string map In] in H. destruct H as [<-|H]; [cbn; lia|].
    destruct d; try apply (uint_chars _ _ H).
    cbn in H. destruct H as [<-|[]]. lia.
Qed.

Lemma join_chars sep parts x :
  In x (join sep parts) -> In x sep \/ exists p, In p parts /\ In x p.
Proof.
  induction parts as [|p rest IH]; [intros []|].
  destruct rest as [|q rest].
  - cbn. intros H. right. exists p. auto.
  - cbn [join]. intros H. apply in_app_or in H. destruct H as [H|H].
    + right. exists p. split; [left; reflexivity | assumption].
    + apply in_app_or in H. destruct H as [H|H]; [left; assumption|].
      destruct (IH H) as [Hs | (p' & Hp & Hx)]; [left; assumption|].
      right. exists p'. split; [right; assumption | assumption].
Qed.

Lemma json_dumps_one_line j x : In x (json_dumps j) -> ~ line_break x.
Proof.
  revert x.
  induction j as [| b | n | s | l IH | items IH] using json_induction; intros x H.
  - cbn in H. unfold line_break. repeat (destruct H as [<-|H]; [lia|]). destruct H.
  - destruct b; cbn in H; unfold line_break;
      repeat (destruct H as [<-|H]; [lia|]); destruct H.
  - apply (of_Z_one_line n x H).
  - apply (json_string_one_line s x H).
  - cbn [json_dumps] in H.
    apply in_app_or in H. destruct H as [H|H].
    { cbn in H. destruct H as [<-|[]]. unfold line_break. lia. }
    apply in_app_or in H. destruct H as [H|H].
    2:{ cbn in H. destruct H as [<-|[]]. unfold line_break. lia. }
    apply join_chars in H. destruct H as [H | (p & Hp & Hx)].
    { cbn in H. unfold line_break. repeat (destruct H as [<-|H]; [lia|]). destruct H. }
    apply in_map_iff in Hp. destruct Hp as (v & <- & Hv).
    rewrite Forall_forall in IH. apply (IH v Hv x Hx).
  - cbn [json_dumps] in H.
    apply in_app_or in H. destruct H as [H|H].
    { cbn in H. destruct H as [<-|[]]. unfold line_break. lia. }
    apply in_app_or in H. destruct H as [H|H].
    2:{ cbn in H. destruct H as [<-|[]]. unfold line_break. lia. }
    apply join_chars in H. destruct H as [H | (p & Hp & Hx)].
    { cbn in H. unfold line_break. repeat (destruct H as [<-|H]; [lia|]). destruct H. }
    apply in_map_iff in Hp. destruct Hp as ([k v] & <- & Hv).
    apply in_app_or in Hx. destruct Hx as [Hx|Hx]; [apply (json_string_one_line k x Hx)|].
    apply in_app_or in Hx. destruct Hx as [Hx|Hx].
    { cbn in Hx. unfold line_break. repeat (destruct Hx as [<-|Hx]; [lia|]). destruct Hx. }
    rewrite Forall_forall in IH. apply (IH (k, v) Hv x Hx).
Qed.

(** An event is the event line, the data line and an empty line, and the
    payload of the data line holds no line feed and no carriage return:
    a line break inside the data cannot end the event. *)
Theorem make_event_payload_one_line (event_type : pystr) (data : list (pystr * json)) :
  exists payload,
    _make_event event_type data
    = lit "event: " ++ event_type ++ lit "\ndata: " ++ payload ++ lit "\n\n"
    /\ forall c, In c payload -> ~ line_break c.
Proof.
  unfold _make_event. eexists. split; [reflexivity|].
  intros c. apply json_dumps_one_line.
Qed.

(** The speech endpoint answers with the audio or with status 500 and the
    detail [Internal Server Error]: the status 400 of a missing credential
    and the client's error text are raised inside the [try] and replaced.
    The audio is the decoded answer of the client to the first 1024
    characters of the text. *)
Theorem text_to_speech_outcomes (app_id access_token : pystr)
    (tts_client : pystr -> tts_result) (b64decode : pystr -> option pystr)
    (text encoding : pystr) :
  match text_to_speech app_id access_token tts_client b64decode text encoding with
  | AudioResponse audio_data media_type =>
      app_id <> [] /\ access_token <> []
      /\ media_type = lit "audio/" ++ encoding
      /\ exists error audio,
           tts_client (firstn 1024 text) = TTSResult true error audio
           /\ b64decode audio = Some audio_data
  | HTTPException status_code detail =>
      status_code = 500 /\ detail = lit "Internal Server Error"
  end.
Proof.
  unfold text_to_speech, text_to_speech_body.
  destruct app_id as [|a app_id]; cbn [truthy negb]; [split; reflexivity|].
  destruct access_token as [|t access_token]; cbn [truthy negb]; [split; reflexivity|].
  change (take 1024 text) with (firstn 1024 text).
  destruct (tts_client (firstn 1024 text)) as [success error audio|] eqn:Ec;
    [|split; reflexivity].
  destruct success; cbn [negb]; [|split; reflexivity].
  destruct (b64decode audio) as [audio_data|] eqn:Ed; [|split; reflexivity].
  repeat split; try congruence. eauto.
Qed.

End Facts.

(** * The properties at concrete inputs *)

(** The examples are evaluated with the default settings and with the ASCII
    case mapping, which is [str.lower] and [str.upper] on their texts. *)



(** Equal messages get the same key: the second [hi] is moved up to the
    first one, in front of [yo]. *)
Lemma truncate_context_moves_duplicates :
  map msg_content (truncate_context duplicate_example (Some 40))
  = [lit "hi"; lit "hi"; lit "yo";
     take 98 (repeat 97%N 164) ++ TRUNCATED_MARK].
Proof. vm_compute. reflexivity. Qed.

(** C1, counterexample: the ratio is read from the environment and is not
    checked.  With [TRUNCATION_RATIO=1.5] and a budget of 40 tokens the two
    messages of [order_example], which cost 42 tokens, are over the budget,
    the target is 60 tokens, and both messages are returned as they are: the
    result costs 42 tokens, more than the budget, although the smaller
    message costs one token. *)
Lemma truncate_context_over_budget :
  ~ respects_budget (settings := generous_settings) order_example 40.
Proof.
  intros H.
  specialize (H (mkmsg (Some (lit "note")) (Some (lit "system")) None None)).
  assert (Hcost : total_tokens
                    (truncate_context (settings := generous_settings) order_example
                       (Some 40)) = 42) by (vm_compute; reflexivity).
  rewrite Hcost in H.
  assert (Hle : 42 <= 40).
  { apply H.
    - right. left. reflexivity.
    - intros m [<- | [<- | []]]; vm_compute; discriminate.
    - vm_compute. discriminate. }
  lia.
Qed.

Lemma flaky_agent_overflows limit current_step agent_input :
  overflows_on flaky_agent limit current_step agent_input 3.
Proof.
  intros i Hi. exists (lit "Error code: 400 - context_length_exceeded").
  unfold flaky_agent. apply Nat.ltb_lt in Hi. rewrite Hi. split; reflexivity.
Qed.

Lemma failing_agent_overflows limit current_step agent_input k :
  overflows_on failing_agent limit current_step agent_input k.
Proof.
  intros i _. eexists. split; reflexivity.
Qed.

(** C4, counterexample: three overflow failures are not the whole story.  An
    agent that always overflows is invoked four times before the placeholder
    is returned, the minimal-content attempt being the fourth invocation; and
    an agent that overflows on its first three invocations and answers the
    fourth gets its answer recorded, not the placeholder. *)
Lemma overflow_needs_four_failures :
  ~ degrades_within_three_attempts example_state failing_agent (lit "coder") None
      [first_step] second_step
  /\ ~ three_overflows_degrade example_state flaky_agent (lit "coder") None
        [first_step] second_step.
Proof.
  split.
  - intros H.
    destruct (H (failing_agent_overflows _ _ _)) as (res & Hres & _ & Hlen & _).
    vm_compute in Hres. injection Hres as <-.
    vm_compute in Hlen. discriminate Hlen.
  - intros H. destruct (H (flaky_agent_overflows _ _ _)) as (res & Hres & Hobs).
    vm_compute in Hres. injection Hres as <-.
    vm_compute in Hobs. discriminate Hobs.
Qed.

(** C9, counterexample: on success the only message appended is a
    [HumanMessage]; none is an [AIMessage]. *)
Lemma success_message_is_not_assistant :
  exists res,
    _execute_agent_step example_state prompt_agent (lit "coder") None = Return res
    /\ ~ appends_assistant_message res.
Proof.
  eexists. split; [vm_compute; reflexivity|].
  intros (m & Hin & Hkind). cbn in Hin. destruct Hin as [<- | []]. discriminate Hkind.
Qed.

(** C10, counterexample: after four steps the first observation is older
    than the three most recent ones, and its text is in the payload
    assembled for the fifth step, inside the completed-steps entry. *)
Lemma older_observations_reach_context : ~ drops_older_observations history_state.
Proof.
  intros H.
  apply (H (lit "alpha finding")
           (mkmsg (Some (completed_steps_info (firstn 4 (steps history_plan))))
              (Some (lit "system")) None (Some (lit "completed_steps")))).
  - vm_compute. left. reflexivity.
  - vm_compute. left. reflexivity.
  - apply contains_spec. vm_compute. reflexivity.
Qed.

Lemma truncate_context_budget_witness :
  total_tokens (truncate_context order_example (Some 40)) <= 40.
Proof.
  apply (truncate_context_budget order_example 40
           (mkmsg (Some (lit "note")) (Some (lit "system")) None None)).
  - right. left. reflexivity.
  - intros m [<- | [<- | []]]; vm_compute; discriminate.
  - vm_compute. discriminate.
  - split; [reflexivity|]. split; [vm_compute; discriminate|]. left. reflexivity.
Defined.

Lemma truncate_context_idempotent_witness :
  truncate_context order_example (Some 50) = order_example
  /\ truncate_context (truncate_context order_example (Some 50)) (Some 50)
     = truncate_context order_example (Some 50).
Proof.
  apply (truncate_context_idempotent order_example 50). vm_compute. discriminate.
Defined.


Lemma human_feedback_decision_witness :
  human_feedback_node (fun s => s) (fun _ => None) (fun _ => None) review_state
    (lit "[EDIT_PLAN] shorten scope")
  = Return (mkCommand planner
              [mklc HumanMessage (lit "[EDIT_PLAN] shorten scope") (Some (lit "feedback"))]
              None None None None)
  /\ human_feedback_node (fun s => s) (fun _ => None) (fun _ => None) review_state
       (lit "banana")
     = Raise (TypeError (lit "Interrupt value of " ++ lit "banana"
                         ++ lit " is not supported."))
  /\ human_feedback_node (fun s => s) (fun _ => Some draft_plan)
       (fun _ => Some example_plan) review_state (lit "[accepted] go")
     = Return (mkCommand research_team [] (Some (ValidPlan example_plan))
                 (Some (plan_iterations review_state + 1)) (Some (JStr (lit "en-US")))
                 None).
Proof.
  split; [|split].
  - destruct (human_feedback_decision (fun s => s) (fun _ => None) (fun _ => None)
                review_state (lit "[EDIT_PLAN] shorten scope") eq_refl) as (H & _).
    apply H. reflexivity.
  - destruct (human_feedback_decision (fun s => s) (fun _ => None) (fun _ => None)
                review_state (lit "banana") eq_refl) as (_ & _ & H & _).
    apply H; reflexivity.
  - destruct (human_feedback_decision (fun s => s) (fun _ => Some draft_plan)
                (fun _ => Some example_plan) review_state (lit "[accepted] go") eq_refl)
      as (_ & H & _).
    destruct (H eq_refl eq_refl (lit "{}") eq_refl) as [Hok _].
    apply (Hok [(lit "has_enough_context", JBool false);
                (lit "locale", JStr (lit "en-US"))] (JBool false) example_plan
             (JStr (lit "en-US"))); reflexivity.
Defined.

Lemma planner_enough_context_witness :
  exists c,
    planner_node (fun s => s)
      (fun _ => Some (JDict [(lit "has_enough_context", JBool true)]))
      (fun _ => Some example_plan) review_state 1 (lit "{}") = Return c
    /\ goto c = reporter
    /\ current_plan (apply_command review_state c) = ValidPlan example_plan
    /\ update_plan_iterations c = None
    /\ plan_iterations (apply_command review_state c) = 0.
Proof.
  apply (planner_enough_context (fun s => s)
           (fun _ => Some (JDict [(lit "has_enough_context", JBool true)]))
           (fun _ => Some example_plan) review_state 1 (lit "{}")
           [(lit "has_enough_context", JBool true)] (JBool true) example_plan);
    try reflexivity.
Defined.

Lemma estimate_tokens_contract_witness :
  estimate_tokens (lit "def f(): pass") = len (lit "def f(): pass") / 3
  /\ estimate_tokens (lit "plain words") = len (lit "plain words") / 4
  /\ estimate_tokens (lit "當前任務 ok") = 2 * len (lit "當前任務 ok") / 3.
Proof.
  split; [|split].
  3: { assert (Hno : ~ code_like (lit "當前任務 ok")).
       { intros H. apply has_code_spec in H. vm_compute in H. discriminate H. }
       destruct (estimate_tokens_contract (lit "當前任務 ok")) as (_ & _ & _ & H & _).
       apply H; [exact Hno | unfold cjk_dominant; vm_compute; lia | vm_compute; reflexivity]. }
  - destruct (estimate_tokens_contract (lit "def f(): pass")) as (_ & _ & H & _).
    apply H. right. left. exists [], (lit "f(): pass"). reflexivity.
  - assert (Hno : ~ code_like (lit "plain words")).
    { intros H. apply has_code_spec in H. vm_compute in H. discriminate H. }
    destruct (estimate_tokens_contract (lit "plain words")) as (_ & _ & _ & _ & H).
    apply H; [exact Hno|]. unfold cjk_dominant. vm_compute. lia.
Defined.

Lemma single_claim_in_order_witness :
  exists res,
    _execute_agent_step example_state prompt_agent (lit "coder") None = Return res
    /\ steps (plan_after res)
       = [first_step; mkStep (lit "second") (lit "dig") (Some (lit "done"))]
    /\ exists p,
         current_plan example_state = ValidPlan p
         /\ ((Forall executed (steps p)
              /\ res = mkResult (mkCommand research_team [] None None None None) p [])
             \/ exists completed current later r,
                  steps p = completed ++ current :: later
                  /\ Forall executed completed
                  /\ unexecuted current = true
                  /\ plan_after res
                     = mkPlan (plan_locale p) (has_enough_context p) (thought p)
                         (plan_title p)
                         (completed
                          ++ mkStep (step_title current) (step_description current)
                               (Some r)
                          :: later)
                  /\ goto (command res) = research_team
                  /\ (r = placeholder current
                      \/ exists k earlier,
                           (k <= 3)%nat
                           /\ prompt_agent k
                                (attempt_input current
                                   (prepare_agent_input example_state completed current
                                      (lit "coder")) k)
                                (recursion_limit None)
                              = AgentReturn (earlier ++ [r]))).
Proof.
  eexists. split; [vm_compute; reflexivity|]. split; [vm_compute; reflexivity|].
  apply (proj2 (single_claim_in_order example_state prompt_agent (lit "coder") None)).
  vm_compute. reflexivity.
Defined.

Lemma step_success_witness :
  exists res,
    _execute_agent_step example_state prompt_agent (lit "coder") None = Return res
    /\ plan_after res
       = mkPlan (lit "en-US") false (lit "why") (lit "Plan")
           ([first_step] ++ mkStep (lit "second") (lit "dig") (Some (lit "done")) :: [])
    /\ command res
       = mkCommand research_team [mklc HumanMessage (lit "done") (Some (lit "coder"))]
           None None None (Some (observations example_state ++ [lit "done"]))
    /\ observations (apply_command example_state (command res))
       = observations example_state ++ [lit "done"]
    /\ length (observations (apply_command example_state (command res)))
       = S (length (observations example_state))
    /\ messages (apply_command example_state (command res))
       = messages example_state
         ++ [ObjMsg (mklc HumanMessage (lit "done") (Some (lit "coder")))]
    /\ invocations res
       = attempts second_step
           (prepare_agent_input example_state [first_step] second_step (lit "coder")) 1.
Proof.
  apply (step_success example_state prompt_agent (lit "coder") None example_plan
           [first_step] second_step [] 0 [] (lit "done")); try reflexivity.
  - repeat constructor.
  - lia.
  - intros i Hi. lia.
Defined.

Lemma overflow_degrades_witness :
  exists res,
    _execute_agent_step example_state failing_agent (lit "coder") None = Return res
    /\ plan_after res
       = mkPlan (lit "en-US") false (lit "why") (lit "Plan")
           ([first_step]
            ++ mkStep (lit "second") (lit "dig") (Some (placeholder second_step)) :: [])
    /\ command res
       = mkCommand research_team
           [mklc HumanMessage (placeholder second_step) (Some (lit "coder"))]
           None None None (Some (observations example_state ++ [placeholder second_step]))
    /\ length (invocations res) = 4%nat
    /\ invocations res
       = attempts second_step
           (prepare_agent_input example_state [first_step] second_step (lit "coder")) 3
         ++ [[human (minimal_content second_step)]].
Proof.
  apply (overflow_degrades example_state failing_agent (lit "coder") None example_plan
           [first_step] second_step []
           (lit "This model's maximum context length is 8192 tokens")); try reflexivity.
  - repeat constructor.
  - apply failing_agent_overflows.
Defined.

Lemma context_parts_recent_witness :
  assembled_context
    (with_older [DictMsg (mkmsg (Some (lit "old")) None None None)] [lit "old finding"]
       long_state)
  = assembled_context long_state
  /\ exists m,
       In m (assembled_context long_state)
       /\ mtype m = Some (lit "completed_steps")
       /\ Occurs (lit "found") (msg_content m).
Proof.
  destruct (context_parts_recent long_state example_plan [first_step] second_step []
              eq_refl eq_refl) as (_ & _ & _ & _ & _ & _ & Hold & Hdone).
  split.
  - apply Hold; cbn; lia.
  - apply (Hdone first_step (lit "found")); [left; reflexivity | reflexivity].
Defined.

Lemma truncate_context_headroom_witness :
  total_tokens (truncate_context order_example (Some 40))
  <= to_int (mul (of_int 40) TRUNCATION_RATIO)
  /\ 1000 * total_tokens (truncate_context order_example (Some 40)) <= 701 * 40.
Proof.
  destruct (truncate_context_headroom order_example 40) as [H1 H2].
  - lia.
  - vm_compute. reflexivity.
  - vm_compute. discriminate.
  - reflexivity.
  - split; [exact H1 | exact (H2 eq_refl)].
Defined.

Lemma truncate_context_starves_witness :
  truncate_context starved_example (Some 60)
  = [mkmsg (Some (repeat 97%N 120)) (Some (lit "system")) None None].
Proof.
  destruct (truncate_context_starves starved_example 60) as [H _].
  - vm_compute. reflexivity.
  - vm_compute. reflexivity.
  - rewrite H. vm_compute. reflexivity.
Defined.

Lemma first_system_message_kept_witness :
  In (mkmsg (Some (lit "note")) (Some (lit "system")) None None)
     (truncate_context
        [mkmsg (Some (lit "note")) (Some (lit "system")) None None;
         mkmsg (Some (repeat 98%N 200)) (Some (lit "user")) None None] (Some 40)).
Proof.
  apply (first_system_message_kept _ 40 _ []).
  - vm_compute. reflexivity.
  - vm_compute. reflexivity.
  - right. split; [reflexivity | vm_compute; congruence].
Defined.

Lemma state_messages_never_reach_agent_witness :
  rebuild_input
    [mkmsg (Some (lit "task")) (Some (lit "user")) None (Some (lit "current_task"));
     mkmsg (Some (lit "earlier talk")) (Some (lit "user")) None (Some (lit "state_message"))]
    [] second_step
  = [human (lit "task")].
Proof.
  rewrite state_messages_never_reach_agent; [reflexivity | vm_compute; congruence].
Defined.

Lemma agent_error_propagates_witness :
  _execute_agent_step example_state broken_agent (lit "coder") None
  = Raise (AgentError (lit "Connection reset by peer"))
  /\ _execute_agent_step example_state cancelled_agent (lit "coder") None
     = Raise (AgentBaseException (lit "CancelledError()")).
Proof.
  split.
  - apply (agent_error_propagates example_state broken_agent (lit "coder") None
             example_plan [first_step] second_step [] 0
             (lit "Connection reset by peer"));
      try reflexivity; try lia.
    + repeat constructor.
    + intros i Hi. lia.
  - apply (agent_error_propagates example_state cancelled_agent (lit "coder") None
             example_plan [first_step] second_step [] 0 (lit "CancelledError()"));
      try reflexivity; try lia.
    + repeat constructor.
    + intros i Hi. lia.
Defined.

Lemma shrink_input_floor_witness :
  shrink_input 2 [human (lit "short task"); human (lit "hint")]
  = [human (lit "short task"); human (lit "hint")].
Proof.
  destruct (shrink_input_floor 2 (human (lit "short task")) [human (lit "hint")])
    as (c & Heq & Hshort & _).
  rewrite Heq, Hshort; [reflexivity | vm_compute; congruence].
Defined.

Lemma executed_step_is_passed_witness :
  exists res,
    _execute_agent_step example_state prompt_agent (lit "coder") None = Return res
    /\ find_step (steps (plan_after res)) []
       = find_step []
           ([first_step] ++ [mkStep (lit "second") (lit "dig") (Some (lit "done"))]).
Proof.
  apply (executed_step_is_passed example_state prompt_agent (lit "coder") None
           example_plan [first_step] second_step [] 0 [] (lit "done"));
    try reflexivity.
  - repeat constructor.
  - lia.
  - intros i Hi. lia.
  - vm_compute. congruence.
Defined.

Lemma empty_answer_stalls_witness :
  exists res,
    _execute_agent_step example_state silent_agent (lit "coder") None = Return res
    /\ find_step (steps (plan_after res)) []
       = ([first_step], Some (mkStep (lit "second") (lit "dig") (Some []), []))
    /\ update_observations (command res) = Some (observations example_state ++ [[]]).
Proof.
  apply (empty_answer_stalls example_state silent_agent (lit "coder") None
           example_plan [first_step] second_step [] 0 []); try reflexivity.
  - repeat constructor.
  - lia.
  - intros i Hi. lia.
Defined.

Lemma all_steps_executed_witness :
  _execute_agent_step finished_state prompt_agent (lit "coder") None
  = Return (mkResult (goto_only research_team)
              (mkPlan (lit "en-US") false (lit "why") (lit "Plan") [first_step]) []).
Proof.
  apply all_steps_executed; [reflexivity | repeat constructor].
Defined.

Lemma reviewed_plan_outcomes_witness :
  match human_feedback_node (fun s => s) (fun _ => Some draft_plan)
          (fun _ => Some example_plan)
          (apply_command review_state (review_command (lit "{}")))
          (lit "[ACCEPTED] go") with
  | Return c' =>
      (goto c' = planner /\ update_plan_iterations c' = None)
      \/ (goto c' = research_team
          /\ update_plan_iterations c' = Some (plan_iterations review_state + 1)
          /\ exists p, update_current_plan c' = Some (ValidPlan p))
  | Raise e =>
      (exists message, e = TypeError message) \/ (exists key, e = KeyError key)
      \/ e = ValidationError
  end.
Proof.
  apply (reviewed_plan_outcomes (fun s => s) (fun _ => Some draft_plan)
           (fun _ => Some example_plan) review_state 1 (lit "{}")); reflexivity.
Defined.

Lemma human_feedback_never_ends_witness :
  goto (goto_only reporter) <> node_end.
Proof.
  apply (human_feedback_never_ends (fun s => s) (fun _ => None) (fun _ => None)
           review_state (lit "[ACCEPTED] go")); [vm_compute; congruence | reflexivity].
Defined.

Lemma reporter_after_planner_witness :
  match reporter_node (fun messages _ => messages) (fun _ => lit "report")
          (apply_command review_state (goto_only reporter)) with
  | Return _ =>
      (exists p, update_current_plan (goto_only reporter) = Some (ValidPlan p))
      \/ (update_current_plan (goto_only reporter) = None
          /\ exists p, current_plan review_state = ValidPlan p)
  | Raise e =>
      e = AttributeError /\ goto_only reporter = goto_only reporter
      /\ forall p, current_plan review_state <> ValidPlan p
  end.
Proof.
  apply (reporter_after_planner (fun s => s) (fun _ => None) (fun _ => None)
           (fun messages _ => messages) (fun _ => lit "report") review_state 0 (lit "{}"));
    reflexivity.
Defined.

Lemma interrupt_options_understood_witness :
  exists resume_msg,
    workflow_input false (lit "accepted") (Some (lit "go")) = Resume resume_msg
    /\ ((lit "accepted" = lit "edit_plan"
         /\ human_feedback_node (fun s => s) (fun _ => None) (fun _ => None) review_state
              resume_msg
            = Return (mkCommand planner
                        [mklc HumanMessage resume_msg (Some (lit "feedback"))]
                        None None None None))
        \/ (lit "accepted" = lit "accepted"
            /\ human_feedback_node (fun s => s) (fun _ => None) (fun _ => None)
                 review_state resume_msg
               = accept_plan (fun s => s) (fun _ => None) (fun _ => None) review_state)).
Proof.
  apply interrupt_options_understood; [reflexivity | right; left; reflexivity].
Defined.

Lemma coordinator_handoff_witness :
  coordinator_next (coordinator_node example_state (lit "coffee") false example_calls [])
  = to_planner
  /\ coordinator_locale
       (coordinator_node example_state (lit "coffee") false example_calls [])
     = lit "zh-TW"
  /\ coordinator_research_topic
       (coordinator_node example_state (lit "coffee") false example_calls [])
     = lit "tea".
Proof.
  destruct (coordinator_handoff example_state (lit "coffee") false example_calls [])
    as (_ & Hgoto & _ & Hfirst).
  split; [apply Hgoto; discriminate|].
  apply (Hfirst [mkToolCall (lit "web_search") [] []]
           (mkToolCall (lit "handoff_to_planner") (lit "zh-TW") (lit "tea")) [] eq_refl).
  - intros x [<-|[]] (Hn & _). vm_compute in Hn. discriminate.
  - repeat split; vm_compute; congruence.
Defined.

Lemma process_dict_without_variables_witness :
  process_dict (fun _ => Some (lit "/root")) (JDict plain_config)
  = Loaded (JDict plain_config).
Proof.
  apply process_dict_without_variables. reflexivity.
Defined.

Lemma load_yaml_config_cached_witness :
  load_yaml_config (fun _ => Some (lit "two")) (fun _ => Content (JDict []))
    [(lit "conf.yaml", JDict [(lit "api_key", JStr (lit "one"))])] (lit "conf.yaml")
  = (Loaded (JDict [(lit "api_key", JStr (lit "one"))]),
     [(lit "conf.yaml", JDict [(lit "api_key", JStr (lit "one"))])])
  /\ assoc (lit "conf.yaml")
       [(lit "conf.yaml", JDict [(lit "api_key", JStr (lit "one"))])]
     = Some (JDict [(lit "api_key", JStr (lit "one"))]).
Proof.
  apply (load_yaml_config_cached (fun _ => Some (lit "one")) (fun _ => Some (lit "two"))
           (fun _ => Content key_config) (fun _ => Content (JDict [])) []);
    [discriminate | discriminate | reflexivity].
Defined.
